(** * Post-sale analytics and admin module: a shallow embedding

    The first part embeds the code, one module per source file:

    - [JS]                values, truthiness, objects and responses;
    - [EventModel]        [backend/models/eventModel.js];
    - [Num], [Binary64]   the arithmetic of JavaScript numbers;
    - [LogController]     [backend/logs/logController.js];
    - [Auth]              [backend/middleware/authMiddleware.js];
    - [Routes]            the routers of [backend/api/routes];
    - [LoggerClient]      [frontend/utils/loggerClient.js];
    - [StatsController]   [backend/api/controllers/statsController.js];
    - [ProductController] [backend/admin/controllers/productController.js];
    - [UserController]    [backend/admin/controllers/userController.js];
    - [ClientMethods]     the helper methods of the logging client;
    - [AdminRoutes]       the routers of [backend/admin/routes] and [server.js];
    - [Sorting], [Aggregate]  sorts and aggregation pipelines;
    - [LogQueries]        the query handlers of the log controller;
    - [Trends], [MockSeries]  the trends and the generated series of the statistics;
    - [ProductCatalogue], [ProductModel]  the product handlers and the rating hook;
    - [UserAccounts]      registration, updates and password changes;
    - [Samples]           concrete requests and stores.

    The second part states and proves the properties.

    Stateful code is written in state-passing style: a handler takes the
    store it reads and returns the response together with the store it
    leaves behind.  What lives outside the repository (Mongoose and
    MongoDB, Express, the JWT library, bcrypt, the browser, the file
    system) appears as an explicit argument or as a field of the store,
    except where the code depends on it and what it does is fixed: the
    [String] type and the [minimize] option of the event schema, the
    [length] that [minlength] counts, the way Express compares paths and
    methods.  Strings hold UTF-8. *)

From Stdlib Require Import ZArith QArith Qround Ascii String List Bool Lia Lqa.
From Stdlib Require Import DecimalString.
From Stdlib Require Import Uint63 PrimFloat FloatOps SpecFloat.
From Stdlib Require Import Permutation Sorted.
Import ListNotations.

Local Open Scope string_scope.
Local Open Scope list_scope.
Local Open Scope Z_scope.

Set Warnings "-register-all".

(* ===================================================================== *)
(** * JavaScript values *)
(* ===================================================================== *)

Module JS.

(** A value as it reaches a controller in [req.body] and as it is handed to
    [res.json].  [JIso ms] stands for the string [new Date(ms).toISOString()];
    [JNum] carries the numeric value of a finite number. *)
Inductive value : Type :=
| JNull
| JBool (b : bool)
| JNum (q : Q)
| JStr (s : string)
| JIso (ms : Z)
| JArr (items : list value)
| JObj (fields : list (string * value)).

(** A property read: [None] is [undefined]. *)
Definition prop := option value.

Definition str_empty (s : string) : bool :=
  match s with EmptyString => true | String _ _ => false end.

(** ToBoolean.  Objects and arrays are always truthy; [undefined], [null],
    [false], [0] and the empty string are falsy. *)
Definition truthy (p : prop) : bool :=
  match p with
  | None => false
  | Some JNull => false
  | Some (JBool b) => b
  | Some (JNum q) => negb (Qnum q =? 0)
  | Some (JStr s) => negb (str_empty s)
  | Some (JIso _) => true
  | Some (JArr _) => true
  | Some (JObj _) => true
  end.

(** [a || b] for a property read [a] and a default [b]. *)
Definition or_else (a : prop) (b : value) : value :=
  match a with
  | Some v => if truthy a then v else b
  | None => b
  end.

(** Objects used as maps, with members of any type: [obj[k]], and
    [obj[k] = v], where an existing key keeps its place and a new one goes
    last. *)
Fixpoint lookup {A : Type} (k : string) (o : list (string * A)) : option A :=
  match o with
  | [] => None
  | (k', v) :: rest => if String.eqb k k' then Some v else lookup k rest
  end.

Fixpoint set {A : Type} (k : string) (v : A) (o : list (string * A)) : list (string * A) :=
  match o with
  | [] => [(k, v)]
  | (k', v') :: rest => if String.eqb k k' then (k, v) :: rest else (k', v') :: set k v rest
  end.

(** [obj[k]] on an object literal. *)
Definition get (k : string) (o : list (string * value)) : prop := lookup k o.

Definition keys (o : list (string * value)) : list string := map fst o.

Definition field (k : string) (v : value) : prop :=
  match v with JObj o => get k o | _ => None end.

(** A string holds the UTF-8 bytes of its text.  [s.length] counts UTF-16
    code units: one for a character of up to three bytes, two for one of
    four bytes; the continuation bytes [10xxxxxx] count nothing. *)
Definition units (c : ascii) : nat :=
  let n := nat_of_ascii c in
  if (n <? 128)%nat then 1%nat
  else if (n <? 192)%nat then 0%nat
  else if (n <? 240)%nat then 1%nat
  else 2%nat.

Fixpoint utf16_length (s : string) : nat :=
  match s with
  | EmptyString => 0%nat
  | String c rest => (units c + utf16_length rest)%nat
  end.

(** The letters [A] to [Z] in lower case, every other byte as it is: how a
    regular expression with the flag [i] compares a pattern of ASCII
    characters. *)
Definition lower (c : ascii) : ascii :=
  let n := nat_of_ascii c in
  if ((65 <=? n) && (n <=? 90))%nat then ascii_of_nat (n + 32) else c.

Fixpoint lowercase (s : string) : string :=
  match s with
  | EmptyString => EmptyString
  | String c rest => String (lower c) (lowercase rest)
  end.

Definition same_word (a b : string) : bool := String.eqb (lowercase a) (lowercase b).

(** An Express response: status code and JSON body. *)
Record response : Type := Response { status : nat; body : value }.

Definition success_of (r : response) : prop := field "success" (body r).

(** A date in the query string: absent (or empty), or a string that
    [new Date] turns into a time value or into an invalid date, on which
    [toISOString] throws. *)
Inductive date_param : Type := Absent | Valid (ms : Z) | Invalid.

Definition thirty_days : Z := 30 * 24 * 60 * 60 * 1000.

(** [startDate ? new Date(startDate) : new Date(Date.now() - 30 days)] *)
Definition start_of (p : date_param) (now : Z) : option Z :=
  match p with Absent => Some (now - thirty_days) | Valid ms => Some ms | Invalid => None end.

(** [endDate ? new Date(endDate) : new Date()] *)
Definition end_of (p : date_param) (now : Z) : option Z :=
  match p with Absent => Some now | Valid ms => Some ms | Invalid => None end.

(** The envelope of a caught exception; the [error] member stands for the
    message of whatever was thrown. *)
Definition server_error (msg : string) : response :=
  Response 500 (JObj [("success", JBool false); ("message", JStr msg);
                      ("error", JStr "error.message")]).

End JS.

Import JS.

(* ===================================================================== *)
(** * backend/models/eventModel.js *)
(* ===================================================================== *)

Module EventModel.

(** A document of the event collection: the fields the controller passes to
    [new Event({...})], the [_id], and the [timestamp] default. *)
Record event : Type := Event {
  ev_id : nat;
  ev_eventType : prop;
  ev_userId : value;
  ev_isAuthenticated : bool;
  ev_sessionId : prop;
  ev_eventData : prop;
  ev_userAgent : prop;
  ev_ipAddress : prop;
  ev_pageUrl : value;
  ev_referrer : value;
  ev_timestamp : Z
}.

(** The event collection.  [accepts] is the outcome of [event.save()] for a
    document and [reachable] that of a query (connectivity and the write are
    the database's); [clock] is [Date.now()]; [number_text] is [String(n)]
    for a number [n], which the schema's [String] type stores in place of
    the number. *)
Record store : Type := Store {
  events : list event;
  accepts : event -> bool;
  reachable : bool;
  clock : Z;
  number_text : Q -> string
}.

Definition with_events (s : store) (l : list event) : store :=
  {| events := l; accepts := accepts s; reachable := reachable s; clock := clock s;
     number_text := number_text s |}.

(** [type: String].  A string stays as it is; a number or a boolean becomes
    its text; an object with a string [_id] becomes that string; any other
    object, and an array, is a [CastError]: [None]. *)
Definition cast_String (s : store) (v : value) : option value :=
  match v with
  | JNull => Some JNull
  | JBool b => Some (JStr (if b then "true" else "false"))
  | JNum q => Some (JStr (number_text s q))
  | JStr x => Some (JStr x)
  | JIso ms => Some (JIso ms)
  | JArr _ => None
  | JObj o =>
      match get "_id" o with
      | Some (JStr i) => if str_empty i then None else Some (JStr i)
      | Some (JIso ms) => Some (JIso ms)
      | _ => None
      end
  end.

(** A path that was not set stays [undefined]. *)
Definition cast_path (s : store) (p : prop) : option prop :=
  match p with
  | None => Some None
  | Some v => option_map Some (cast_String s v)
  end.

(** [required: true] on a [String] path: a string that is not empty. *)
Definition required_String (v : value) : bool :=
  match v with
  | JStr x => negb (str_empty x)
  | JIso _ => true
  | _ => false
  end.

(** The schema option [minimize], on by default: [save] leaves out every
    object without members, also inside other objects, where an object
    left without members goes too.  Arrays stay, and an object inside an
    array stays even when it is empty.  [None]: nothing is stored. *)
Fixpoint minimize (v : value) : option value :=
  match v with
  | JObj fields =>
      match (fix members (l : list (string * value)) : list (string * value) :=
               match l with
               | [] => []
               | (k, x) :: rest =>
                   match minimize x with
                   | Some x' => (k, x') :: members rest
                   | None => members rest
                   end
               end) fields with
      | [] => None
      | kept => Some (JObj kept)
      end
  | JArr items =>
      Some (JArr ((fix each (l : list value) : list value :=
                     match l with
                     | [] => []
                     | x :: rest =>
                         match minimize x with
                         | Some x' => x' :: each rest
                         | None => JObj [] :: each rest
                         end
                     end) items))
  | _ => Some v
  end.

(** The document as [save] writes it. *)
Definition stored (e : event) : event :=
  {| ev_id := ev_id e;
     ev_eventType := ev_eventType e;
     ev_userId := ev_userId e;
     ev_isAuthenticated := ev_isAuthenticated e;
     ev_sessionId := ev_sessionId e;
     ev_eventData := match ev_eventData e with Some v => minimize v | None => None end;
     ev_userAgent := ev_userAgent e;
     ev_ipAddress := ev_ipAddress e;
     ev_pageUrl := ev_pageUrl e;
     ev_referrer := ev_referrer e;
     ev_timestamp := ev_timestamp e |}.

(** [await event.save()] : [None] when the promise rejects. *)
Definition save (e : event) (s : store) : option store :=
  if accepts s e then Some (with_events s (events s ++ [stored e])) else None.

Definition has_type (t : string) (e : event) : bool :=
  match ev_eventType e with
  | Some (JStr t') => String.eqb t t'
  | _ => false
  end.

(** [timestamp: { $gte: start, $lte: end }] *)
Definition in_window (start stop : Z) (e : event) : bool :=
  (start <=? ev_timestamp e) && (ev_timestamp e <=? stop).

(** [Event.countDocuments({ eventType, timestamp })]; without [eventType]
    when [t] is [None].  [None] when the query rejects. *)
Definition countDocuments (t : option string) (start stop : Z) (s : store) : option Z :=
  if reachable s then
    Some (Z.of_nat (List.length (filter
      (fun e => match t with Some ty => has_type ty e | None => true end
                && in_window start stop e) (events s))))
  else None.

End EventModel.

(* ===================================================================== *)
(** * JavaScript numbers in the rate formulas *)
(* ===================================================================== *)

Module Num.

Local Open Scope Q_scope.

(** Rounding to the nearest double, by the properties the proofs use:
    it is monotone, it leaves a double unchanged, and integers up to [2^53]
    are doubles. *)
Class Rounding : Type := {
  rnd : Q -> Q;
  rnd_mono : forall x y, x <= y -> rnd x <= rnd y;
  rnd_idem : forall x, rnd (rnd x) == rnd x;
  rnd_int : forall z : Z, (Z.abs z <= 2 ^ 53)%Z -> rnd (inject_Z z) == inject_Z z
}.

(** Arithmetic without rounding error is one such rounding. *)
Definition exact : Rounding :=
  {| rnd := fun x => x;
     rnd_mono := fun _ _ H => H;
     rnd_idem := fun x => Qeq_refl x;
     rnd_int := fun z _ => Qeq_refl (inject_Z z) |}.

(** A Number: finite, or one of the three values a division by zero or an
    overflow produces. *)
Inductive num : Type := Fin (q : Q) | PosInf | NegInf | NaN.

Definition is_zero (q : Q) : bool := (Qnum q =? 0)%Z.
Definition is_neg (q : Q) : bool := (Qnum q <? 0)%Z.

(** [x > 0] *)
Definition gt0 (x : num) : bool :=
  match x with
  | Fin q => (0 <? Qnum q)%Z
  | PosInf => true
  | NegInf | NaN => false
  end.

Section Arith.

Context {R : Rounding}.

(** The Number of an integer count. *)
Definition of_count (n : Z) : num := Fin (rnd (inject_Z n)).

(** [x / y] *)
Definition div (x y : num) : num :=
  match x, y with
  | NaN, _ | _, NaN => NaN
  | Fin a, Fin b =>
      if is_zero b then
        if is_zero a then NaN else if is_neg a then NegInf else PosInf
      else Fin (rnd (a / b))
  | Fin a, (PosInf | NegInf) => Fin 0
  | (PosInf | NegInf), (PosInf | NegInf) => NaN
  | PosInf, Fin b => if is_neg b then NegInf else PosInf
  | NegInf, Fin b => if is_neg b then PosInf else NegInf
  end.

(** [x * y] *)
Definition mul (x y : num) : num :=
  match x, y with
  | NaN, _ | _, NaN => NaN
  | Fin a, Fin b => Fin (rnd (a * b))
  | Fin a, PosInf | PosInf, Fin a =>
      if is_zero a then NaN else if is_neg a then NegInf else PosInf
  | Fin a, NegInf | NegInf, Fin a =>
      if is_zero a then NaN else if is_neg a then PosInf else NegInf
  | PosInf, PosInf | NegInf, NegInf => PosInf
  | PosInf, NegInf | NegInf, PosInf => NegInf
  end.

(** [x - y] *)
Definition sub (x y : num) : num :=
  match x, y with
  | NaN, _ | _, NaN => NaN
  | Fin a, Fin b => Fin (rnd (a - b))
  | Fin _, PosInf => NegInf
  | Fin _, NegInf => PosInf
  | PosInf, Fin _ | PosInf, NegInf => PosInf
  | NegInf, Fin _ | NegInf, PosInf => NegInf
  | PosInf, PosInf | NegInf, NegInf => NaN
  end.

End Arith.

(** The value of [parseFloat(x.toFixed(2))]: a decimal with two fractional
    digits, counted in hundredths, which is also what the JSON text of the
    response shows. *)
Inductive fixed2 : Type := Hundredths (n : Z) | FPosInf | FNegInf | FNaN.

(** [toFixed] picks the integer [n] with [n / 100] closest to [x], the
    larger one on a tie, after setting the sign aside. *)
Definition round_half_up (x : Q) : Z := Qfloor (x * 100 + (1 # 2)).

Definition toFixed2 (x : num) : fixed2 :=
  match x with
  | Fin q => if is_neg q then Hundredths (- round_half_up (- q))
             else Hundredths (round_half_up q)
  | PosInf => FPosInf
  | NegInf => FNegInf
  | NaN => FNaN
  end.

Definition json_of_fixed2 (x : fixed2) : value :=
  match x with
  | Hundredths n => JNum (n # 100)
  | _ => JNull
  end.

(** The reported value lies in the interval [0, 100]. *)
Definition percent (x : fixed2) : Prop :=
  match x with
  | Hundredths n => (0 <= n <= 10000)%Z
  | _ => False
  end.

End Num.

(* ===================================================================== *)
(** * backend/logs/logController.js *)
(* ===================================================================== *)

Module LogController.

Import EventModel.

(** The body and the ambient data of [POST /api/logs/event]. *)
Record request : Type := Request {
  eventType : prop;
  userId : prop;
  sessionId : prop;
  eventData : prop;
  pageUrl : prop;
  referrer : prop;
  userAgentHeader : prop;
  ip : prop
}.

Definition incomplete_message : string :=
  "Dados incompletos. eventType, sessionId e eventData são obrigatórios.".

Definition bad_request : response :=
  Response 400 (JObj [("success", JBool false); ("message", JStr incomplete_message)]).

Definition created (e : event) : response :=
  Response 201 (JObj [("success", JBool true);
                      ("message", JStr "Evento registrado com sucesso");
                      ("event", JObj [("id", JNum (inject_Z (Z.of_nat (ev_id e))));
                                      ("eventType", or_else (ev_eventType e) JNull);
                                      ("timestamp", JIso (ev_timestamp e))])]).

(** [!eventType || !sessionId || !eventData] *)
Definition incomplete (r : request) : bool :=
  negb (truthy (eventType r)) || negb (truthy (sessionId r)) || negb (truthy (eventData r)).

(** [new Event({...})]: the fields of the request as the schema casts them.
    [None] when a field cannot be cast or a required string is left empty;
    the document then carries the error and [save] rejects with it. *)
Definition new_event (r : request) (s : store) : option event :=
  match cast_path s (eventType r),
        cast_String s (or_else (userId r) (JStr "anonymous")),
        cast_path s (sessionId r),
        cast_path s (userAgentHeader r),
        cast_path s (ip r),
        cast_String s (or_else (pageUrl r) (JStr "")),
        cast_String s (or_else (referrer r) (JStr "")) with
  | Some (Some type), Some user, Some (Some session), Some agent, Some address,
    Some page, Some from =>
      if required_String type && required_String user && required_String session
      then Some {| ev_id := List.length (events s);
                   ev_eventType := Some type;
                   ev_userId := user;
                   ev_isAuthenticated := truthy (userId r);
                   ev_sessionId := Some session;
                   ev_eventData := eventData r;
                   ev_userAgent := agent;
                   ev_ipAddress := address;
                   ev_pageUrl := page;
                   ev_referrer := from;
                   ev_timestamp := clock s |}
      else None
  | _, _, _, _, _, _, _ => None
  end.

Definition logEvent (r : request) (s : store) : response * store :=
  if incomplete r then (bad_request, s)
  else
    match new_event r s with
    | None => (server_error "Erro ao registrar evento", s)
    | Some e =>
        match save e s with
        | Some s' => (created e, s')
        | None => (server_error "Erro ao registrar evento", s)
        end
    end.

(** A field that is a string, or is not there: what a client that sends
    strings sends. *)
Definition textual (p : prop) : bool :=
  match p with
  | None | Some (JStr _) | Some (JIso _) => true
  | Some _ => false
  end.

Definition all_textual (r : request) : bool :=
  textual (eventType r) && textual (userId r) && textual (sessionId r)
  && textual (pageUrl r) && textual (referrer r)
  && textual (userAgentHeader r) && textual (ip r).

(** A required field is missing when the body does not carry it. *)
Definition missing (p : prop) : bool :=
  match p with None => true | Some _ => false end.

Definition any_missing (r : request) : bool :=
  missing (eventType r) || missing (sessionId r) || missing (eventData r).

(** ** getFunnelData *)

Definition funnelStages : list string :=
  ["product_view"; "product_customize"; "cart_add"; "checkout_start"; "checkout_complete"].

(** The documents of type [stage] in the window. *)
Definition count_of (stage : string) (start stop : Z) (s : store) : Z :=
  Z.of_nat (List.length (filter (fun e => has_type stage e && in_window start stop e)
                                (events s))).

(** The first loop: one count query per stage; [None] when a query rejects. *)
Fixpoint count_stages (stages : list string) (start stop : Z) (s : store)
    (funnelData : list (string * Z)) : option (list (string * Z)) :=
  match stages with
  | [] => Some funnelData
  | stage :: rest =>
      match countDocuments (Some stage) start stop s with
      | None => None
      | Some n => count_stages rest start stop s (set stage n funnelData)
      end
  end.

Section Rates.

Context {R : Num.Rounding}.

(** [funnelData[k]] as a Number; a key that is not there reads [undefined],
    which is not [> 0] and is [NaN] in arithmetic. *)
Definition read (k : string) (funnelData : list (string * Z)) : Num.num :=
  match lookup k funnelData with
  | Some n => Num.of_count n
  | None => Num.NaN
  end.

(** [funnelData[cur] > 0 ? (funnelData[next] / funnelData[cur]) * 100 : 0],
    then [parseFloat(rate.toFixed(2))]. *)
Definition stage_rate (funnelData : list (string * Z)) (cur next : string) : Num.fixed2 :=
  Num.toFixed2
    (if Num.gt0 (read cur funnelData)
     then Num.mul (Num.div (read next funnelData) (read cur funnelData)) (Num.Fin 100)
     else Num.Fin 0).

Definition rate_key (cur next : string) : string := cur ++ "_to_" ++ next.

(** The second loop, [i] from [0] to [funnelStages.length - 2]. *)
Fixpoint conversion_loop (stages : list string) (funnelData : list (string * Z))
    (conversionRates : list (string * Num.fixed2)) : list (string * Num.fixed2) :=
  match stages with
  | cur :: ((next :: _) as rest) =>
      conversion_loop rest funnelData
        (set (rate_key cur next) (stage_rate funnelData cur next) conversionRates)
  | _ => conversionRates
  end.

Definition json_of_counts (o : list (string * Z)) : value :=
  JObj (map (fun kv => (fst kv, JNum (inject_Z (snd kv)))) o).

Definition json_of_rates (o : list (string * Num.fixed2)) : value :=
  JObj (map (fun kv => (fst kv, Num.json_of_fixed2 (snd kv))) o).

(** The two objects the handler computes, before they are put in the
    response. *)
Definition funnel (start stop : Z) (s : store)
    : option (list (string * Z) * list (string * Num.fixed2)) :=
  match count_stages funnelStages start stop s [] with
  | None => None
  | Some funnelData => Some (funnelData, conversion_loop funnelStages funnelData [])
  end.

Definition getFunnelData (startDate endDate : date_param) (s : store) : response :=
  match start_of startDate (clock s), end_of endDate (clock s) with
  | Some start, Some stop =>
      match funnel start stop s with
      | Some (funnelData, conversionRates) =>
          Response 200 (JObj [("success", JBool true);
                              ("period", JObj [("start", JIso start); ("end", JIso stop)]);
                              ("funnelData", json_of_counts funnelData);
                              ("conversionRates", json_of_rates conversionRates)])
      | None => server_error "Erro ao buscar dados do funil"
      end
  | _, _ => server_error "Erro ao buscar dados do funil"
  end.

End Rates.

End LogController.

(* ===================================================================== *)
(** * backend/middleware/authMiddleware.js *)
(* ===================================================================== *)

Module Auth.

(** The decoded payload of a token; only the role claim is read. *)
Record claims : Type := Claims { role : option string }.

(** What a middleware does with a request: answer it, or call [next()]
    (after [isAuthenticated], with [req.user] set). *)
Inductive outcome : Type :=
| Respond (r : response)
| Next (user : option claims).

Definition unauthorized (msg : string) : response :=
  Response 401 (JObj [("success", JBool false); ("message", JStr msg)]).

Definition forbidden : response :=
  Response 403 (JObj [("success", JBool false);
    ("message", JStr "Acesso proibido. Permissões de administrador necessárias.")]).

(** The characters of [s] before its first space, and what follows it. *)
Fixpoint until_space (s : string) : string :=
  match s with
  | EmptyString => EmptyString
  | String c rest => if Ascii.eqb c " "%char then EmptyString else String c (until_space rest)
  end.

Fixpoint after_space (s : string) : option string :=
  match s with
  | EmptyString => None
  | String c rest => if Ascii.eqb c " "%char then Some rest else after_space rest
  end.

(** [authHeader.split(' ')[1]] *)
Definition second_word (s : string) : option string :=
  option_map until_space (after_space s).

Section Verify.

(** [jwt.verify(token, secret)]: the payload, or [None] when it throws
    (malformed, badly signed or expired token). *)
Variable verify : string -> option claims.

Definition isAuthenticated (authorization : option string) : outcome :=
  match authorization with
  | None => Respond (unauthorized "Acesso não autorizado. Token não fornecido.")
  | Some h =>
      if negb (String.prefix "Bearer " h)
      then Respond (unauthorized "Acesso não autorizado. Token não fornecido.")
      else
        match second_word h with
        | None => Respond (unauthorized "Acesso não autorizado. Token inválido ou expirado.")
        | Some token =>
            match verify token with
            | None => Respond (unauthorized "Acesso não autorizado. Token inválido ou expirado.")
            | Some c => Next (Some c)
            end
        end
  end.

Definition isAdmin (authorization : option string) : outcome :=
  match isAuthenticated authorization with
  | Respond r => Respond r
  | Next user =>
      match user with
      | Some c =>
          match role c with
          | Some r => if String.eqb r "admin" then Next user else Respond forbidden
          | None => Respond forbidden
          end
      | None => Respond forbidden
      end
  end.

End Verify.

End Auth.

(* ===================================================================== *)
(** * backend/api/routes/logRoutes.js and statsRoutes.js *)
(* ===================================================================== *)

Module Routes.

(** The method of a request; [OTHER] is any method besides the seven. *)
Inductive method : Type := GET | POST | PUT | DELETE | PATCH | HEAD | OPTIONS | OTHER.

Definition method_eqb (a b : method) : bool :=
  match a, b with
  | GET, GET | POST, POST | PUT, PUT | DELETE, DELETE | PATCH, PATCH
  | HEAD, HEAD | OPTIONS, OPTIONS | OTHER, OTHER => true
  | _, _ => false
  end.

(** A route declared with [router.get] takes the GET requests and, as no
    route here is declared for HEAD, the HEAD requests; a route declared
    for another method takes the requests of that method. *)
Definition handles (declared requested : method) : bool :=
  match requested with
  | HEAD => method_eqb declared GET
  | _ => method_eqb declared requested
  end.

(** A path pattern, segment by segment: [/events/:type] is
    [[Lit "events"; Param "type"]].  The path of a request is cut at its
    slashes in the same way, [/api/logs/counts] being
    [["api"; "logs"; "counts"]]; a slash at the end leaves an empty last
    segment, and [/] itself is the empty list. *)
Inductive segment : Type := Lit (s : string) | Param (name : string).

(** Express compares the literal segments without regard to case, wants a
    parameter not to be empty, and lets one slash at the end pass. *)
Fixpoint matches (pat : list segment) (path : list string) : bool :=
  match pat, path with
  | [], [] => true
  | [], [x] => str_empty x
  | Lit s :: pat', x :: path' => same_word s x && matches pat' path'
  | Param _ :: pat', x :: path' => negb (str_empty x) && matches pat' path'
  | _, _ => false
  end.

(** [app.use(prefix, router)] and [router.use(prefix, router)]: the path
    below the prefix, which is what the mounted router sees; with the
    prefix goes one slash that is followed by another slash or by the
    end.  [None] when the path is not below the prefix. *)
Fixpoint below (prefix path : list string) : option (list string) :=
  match prefix, path with
  | [], "" :: rest => Some rest
  | [], rest => Some rest
  | p :: prefix', x :: path' => if same_word p x then below prefix' path' else None
  | _ :: _, [] => None
  end.

(** ** The parameters of a path

    Express hands a parameter to [decodeURIComponent], which throws on an
    escape that is not [%] with two hex digits, and on escaped bytes that
    are not the UTF-8 encoding of a code point. *)

Definition hex_digit (c : ascii) : option N :=
  let n := N_of_ascii c in
  if ((48 <=? n) && (n <=? 57))%N then Some (n - 48)%N
  else if ((65 <=? n) && (n <=? 70))%N then Some (n - 55)%N
  else if ((97 <=? n) && (n <=? 102))%N then Some (n - 87)%N
  else None.

(** The characters of a parameter, an escape being the byte it stands
    for; [None] when an escape is malformed. *)
Fixpoint escapes (s : string) : option (list (option N)) :=
  match s with
  | EmptyString => Some []
  | String c rest =>
      if Ascii.eqb c "%"%char then
        match rest with
        | String h (String l rest') =>
            match hex_digit h, hex_digit l, escapes rest' with
            | Some a, Some b, Some items => Some (Some (16 * a + b)%N :: items)
            | _, _, _ => None
            end
        | _ => None
        end
      else option_map (cons None) (escapes rest)
  end.

(** A continuation byte [10xxxxxx], by its six bits. *)
Definition continuation (b : N) : option N :=
  if ((128 <=? b) && (b <? 192))%N then Some (b - 128)%N else None.

(** The escaped bytes are well-formed UTF-8: no stray continuation byte,
    no sequence cut short or interrupted, no overlong form, no surrogate,
    nothing above [U+10FFFF]. *)
Fixpoint well_formed (items : list (option N)) : bool :=
  match items with
  | [] => true
  | None :: rest => well_formed rest
  | Some b :: rest =>
      if (b <? 128)%N then well_formed rest
      else if (b <? 192)%N then false
      else if (b <? 224)%N then
        match rest with
        | Some b1 :: rest' =>
            match continuation b1 with
            | Some c1 => (128 <=? (b - 192) * 64 + c1)%N && well_formed rest'
            | None => false
            end
        | _ => false
        end
      else if (b <? 240)%N then
        match rest with
        | Some b1 :: Some b2 :: rest' =>
            match continuation b1, continuation b2 with
            | Some c1, Some c2 =>
                let cp := ((b - 224) * 4096 + c1 * 64 + c2)%N in
                (2048 <=? cp)%N && negb ((55296 <=? cp) && (cp <=? 57343))%N
                && well_formed rest'
            | _, _ => false
            end
        | _ => false
        end
      else if (b <? 248)%N then
        match rest with
        | Some b1 :: Some b2 :: Some b3 :: rest' =>
            match continuation b1, continuation b2, continuation b3 with
            | Some c1, Some c2, Some c3 =>
                let cp := ((b - 240) * 262144 + c1 * 4096 + c2 * 64 + c3)%N in
                (65536 <=? cp)%N && (cp <=? 1114111)%N && well_formed rest'
            | _, _, _ => false
            end
        | _ => false
        end
      else false
  end.

(** [decodeURIComponent(s)] does not throw. *)
Definition decodable (s : string) : bool :=
  match escapes s with
  | Some items => well_formed items
  | None => false
  end.

(** The parameters of a path that matches a pattern can all be decoded. *)
Fixpoint decoded (pat : list segment) (path : list string) : bool :=
  match pat, path with
  | Param _ :: pat', x :: path' => decodable x && decoded pat' path'
  | Lit _ :: pat', _ :: path' => decoded pat' path'
  | _, _ => true
  end.

(** What the application's error middleware answers when an error is
    passed on to it (outside development, where it names the error). *)
Definition internal_error : response :=
  Response 500 (JObj [("error", JStr "Erro interno do servidor");
                      ("message", JStr "Algo deu errado")]).

Inductive middleware : Type := MwIsAuthenticated | MwIsAdmin.

(** The controller method a route ends in. *)
Inductive handler : Type :=
| LogEvent | GetEventsByType | GetEventCounts | GetMostViewedProducts | GetFunnelData
| StatsIndex | GetOverviewStats | GetDashboardData | GetTrendsData | StatsPublic.

Record route : Type := Route {
  r_method : method;
  r_path : list segment;
  r_chain : list middleware;
  r_handler : handler
}.

(** [router.post('/event', ...)] ... [router.get('/funnel', ...)], in the
    order of logRoutes.js. *)
Definition logRoutes : list route :=
  [ Route POST [Lit "event"] [] LogEvent;
    Route GET [Lit "events"; Param "type"] [] GetEventsByType;
    Route GET [Lit "counts"] [] GetEventCounts;
    Route GET [Lit "most-viewed"] [] GetMostViewedProducts;
    Route GET [Lit "funnel"] [] GetFunnelData ].

(** statsRoutes.js; [isAdmin] is on [/trends] only. *)
Definition statsRoutes : list route :=
  [ Route GET [] [] StatsIndex;
    Route GET [Lit "overview"] [] GetOverviewStats;
    Route GET [Lit "dashboard"] [] GetDashboardData;
    Route GET [Lit "trends"] [MwIsAdmin] GetTrendsData;
    Route GET [Lit "public"] [] StatsPublic ].

(** The end of a request in a router: it was answered before a controller
    method was entered, by a middleware of the route or by the error
    middleware of the application; a controller method was entered; or
    no route took the request.  (The routers sit behind [cors], which
    answers the OPTIONS requests itself, so the answer a router gives to
    those on its own is not needed.) *)
Inductive dispatched : Type :=
| Rejected (r : response)
| Reached (h : handler) (user : option Auth.claims)
| NotFound.

Section Dispatch.

Variable verify : string -> option Auth.claims.

Definition run_middleware (m : middleware) (authorization : option string) : Auth.outcome :=
  match m with
  | MwIsAuthenticated => Auth.isAuthenticated verify authorization
  | MwIsAdmin => Auth.isAdmin verify authorization
  end.

Fixpoint run_chain (chain : list middleware) (authorization : option string)
    (user : option Auth.claims) (h : handler) : dispatched :=
  match chain with
  | [] => Reached h user
  | m :: rest =>
      match run_middleware m authorization with
      | Auth.Respond r => Rejected r
      | Auth.Next u => run_chain rest authorization u h
      end
  end.

(** The router goes through its routes in order.  A route whose path
    matches has its parameters decoded before its method is looked at; a
    parameter that cannot be decoded is an error, with which no later
    route matches. *)
Fixpoint dispatch (routes : list route) (m : method) (path : list string)
    (authorization : option string) : dispatched :=
  match routes with
  | [] => NotFound
  | r :: rest =>
      if matches (r_path r) path then
        if negb (decoded (r_path r) path) then Rejected internal_error
        else if handles (r_method r) m
        then run_chain (r_chain r) authorization None (r_handler r)
        else dispatch rest m path authorization
      else dispatch rest m path authorization
  end.

End Dispatch.

(** The four query routes of the log router. *)
Definition query_route (path : list string) : bool :=
  matches [Lit "events"; Param "type"] path && decoded [Lit "events"; Param "type"] path
  || matches [Lit "counts"] path
  || matches [Lit "most-viewed"] path
  || matches [Lit "funnel"] path.

End Routes.

(* ===================================================================== *)
(** * frontend/utils/loggerClient.js *)
(* ===================================================================== *)

Module LoggerClient.

(** The object [logEvent] pushes on the queue. *)
Record entry : Type := Entry {
  en_eventType : string;
  en_sessionId : string;
  en_userId : option string;
  en_timestamp : Z;
  en_severity : string;
  en_data : value;
  en_url : string;
  en_userAgent : string
}.

(** The fields of a [LoggerClient] instance. *)
Record client : Type := Client {
  apiUrl : string;
  debug : bool;
  sessionId : string;
  userId : option string;
  eventQueue : list entry;
  flushInterval : Z
}.

(** What [await fetch(...)] comes back with: a rejection, or a response
    with its [ok] flag, its status and the outcome of [response.json()]
    ([None] when that promise rejects). *)
Inductive fetched : Type :=
| NetworkError (reason : string)
| HttpResponse (ok : bool) (code : nat) (json : option value).

(** The error caught in [flush]: the rejection of [fetch], or the [Error]
    thrown on a response that is not [ok]. *)
Inductive error : Type :=
| FetchRejected (reason : string)
| SendFailed (code : nat)
| BodyUnreadable.

(** How the promise returned by [flush] settles. *)
Inductive settled : Type :=
| Resolved (v : prop)
| RejectedWith (e : error).

(** A call of [flush] has either settled when it returns, or it is
    suspended at [await fetch] with the request [id] in flight. *)
Inductive flushing : Type :=
| Done (o : settled)
| Awaiting (id : nat).

(** The client together with what surrounds it: the batches whose request is
    in flight, every request handed to the network (URL and batch), the
    calls of [errorHandler], the lines written by [console.log]. *)
Record world : Type := World {
  self : client;
  inflight : list (nat * list entry);
  next_id : nat;
  requests : list (string * list entry);
  handled : list error;
  console : list string
}.

Definition with_queue (w : world) (q : list entry) : world :=
  {| self := {| apiUrl := apiUrl (self w); debug := debug (self w);
                sessionId := sessionId (self w); userId := userId (self w);
                eventQueue := q; flushInterval := flushInterval (self w) |};
     inflight := inflight w; next_id := next_id w; requests := requests w;
     handled := handled w; console := console w |}.

Definition with_userId (w : world) (u : option string) : world :=
  {| self := {| apiUrl := apiUrl (self w); debug := debug (self w);
                sessionId := sessionId (self w); userId := u;
                eventQueue := eventQueue (self w); flushInterval := flushInterval (self w) |};
     inflight := inflight w; next_id := next_id w; requests := requests w;
     handled := handled w; console := console w |}.

Definition log_line (line : string) (w : world) : world :=
  if debug (self w) then
    {| self := self w; inflight := inflight w; next_id := next_id w;
       requests := requests w; handled := handled w; console := console w ++ [line] |}
  else w.

Definition batch_url (w : world) : string := apiUrl (self w) ++ "/batch".

(** [navigator.sendBeacon(url, blob)]: the request is handed over and the
    call returns [queued]. *)
Definition send_beacon (events : list entry) (w : world) : world :=
  {| self := self w; inflight := inflight w; next_id := next_id w;
     requests := requests w ++ [(batch_url w, events)];
     handled := handled w; console := console w |}.

(** [fetch(url, requestOptions)] up to the [await]. *)
Definition start_fetch (events : list entry) (w : world) : world * nat :=
  ({| self := self w; inflight := inflight w ++ [(next_id w, events)];
      next_id := S (next_id w);
      requests := requests w ++ [(batch_url w, events)];
      handled := handled w; console := console w |}, next_id w).

(** [flush(sync)] up to its first suspension.  [beacon] is [None] when the
    browser has no [navigator.sendBeacon], and otherwise what a call of it
    returns. *)
Definition flush (sync : bool) (beacon : option bool) (w : world) : world * flushing :=
  match eventQueue (self w) with
  | [] => (w, Done (Resolved None))
  | _ :: _ =>
      let events := eventQueue (self w) in
      let w1 := with_queue w [] in
      match sync, beacon with
      | true, Some queued => (send_beacon events w1, Done (Resolved (Some (JBool queued))))
      | _, _ => let (w2, id) := start_fetch events w1 in (w2, Awaiting id)
      end
  end.

Fixpoint find_batch (id : nat) (l : list (nat * list entry)) : option (list entry) :=
  match l with
  | [] => None
  | (i, b) :: rest => if Nat.eqb i id then Some b else find_batch id rest
  end.

Fixpoint drop_batch (id : nat) (l : list (nat * list entry)) : list (nat * list entry) :=
  match l with
  | [] => []
  | (i, b) :: rest => if Nat.eqb i id then rest else (i, b) :: drop_batch id rest
  end.

(** The [catch] block: the batch goes back in front of the queue, the
    error handler is called, the promise rejects. *)
Definition requeue (events : list entry) (e : error) (w : world) : world * settled :=
  let w1 := with_queue w (events ++ eventQueue (self w)) in
  ({| self := self w1; inflight := inflight w1; next_id := next_id w1;
      requests := requests w1; handled := handled w1 ++ [e]; console := console w1 |},
   RejectedWith e).

(** [`${events.length} eventos enviados com sucesso`] *)
Definition sent_line (events : list entry) : string :=
  NilZero.string_of_uint (Nat.to_uint (List.length events)) ++ " eventos enviados com sucesso".

(** [flush] from [await fetch] on, for the request [id]. *)
Definition resume (id : nat) (r : fetched) (w : world) : world * option settled :=
  match find_batch id (inflight w) with
  | None => (w, None)
  | Some events =>
      let w1 := {| self := self w; inflight := drop_batch id (inflight w);
                   next_id := next_id w; requests := requests w;
                   handled := handled w; console := console w |} in
      match r with
      | NetworkError reason =>
          let (w2, o) := requeue events (FetchRejected reason) w1 in (w2, Some o)
      | HttpResponse false code _ =>
          let (w2, o) := requeue events (SendFailed code) w1 in (w2, Some o)
      | HttpResponse true _ json =>
          (log_line (sent_line events) w1,
           Some (match json with
                 | Some v => Resolved (Some v)
                 | None => RejectedWith BodyUnreadable
                 end))
      end
  end.

(** The ambient values [logEvent] reads: [new Date()], [window.location.href],
    [navigator.userAgent]. *)
Record ambient : Type := Ambient { at_time : Z; href : string; agent : string }.

Definition make_entry (c : client) (eventType : string) (data : value)
    (severity : string) (a : ambient) : entry :=
  {| en_eventType := eventType; en_sessionId := sessionId c; en_userId := userId c;
     en_timestamp := at_time a; en_severity := severity; en_data := data;
     en_url := href a; en_userAgent := agent a |}.

Definition logEvent (eventType : string) (data : value) (severity : string)
    (a : ambient) (w : world) : world :=
  let event := make_entry (self w) eventType data severity a in
  let w1 := with_queue w (eventQueue (self w) ++ [event]) in
  let w2 := log_line "Evento registrado:" w1 in
  if String.eqb severity "error" then fst (flush false None w2) else w2.

Definition setUserId (u : option string) (w : world) : world :=
  log_line "ID do usuário definido:" (with_userId w u).

(** What can happen to the client between two points in time: a call of
    [logEvent] or [setUserId], the interval timer, the [beforeunload]
    listener, and the settling of a request in flight. *)
Inductive action : Type :=
| Log (eventType : string) (data : value) (severity : string) (a : ambient)
| SetUser (u : option string)
| Timer
| Unload (beacon : option bool)
| Settle (id : nat) (r : fetched).

Definition step (w : world) (a : action) : world :=
  match a with
  | Log t d sev amb => logEvent t d sev amb w
  | SetUser u => setUserId u w
  | Timer => fst (flush false None w)
  | Unload beacon => fst (flush true beacon w)
  | Settle id r => fst (resume id r w)
  end.

Definition run (actions : list action) (w : world) : world := fold_left step actions w.

(** The entries created by the [logEvent] calls among [actions], in order,
    for a client with session [sid] whose user is [uid] at the start. *)
Fixpoint logged (actions : list action) (sid : string) (uid : option string) : list entry :=
  match actions with
  | [] => []
  | Log t d sev amb :: rest =>
      {| en_eventType := t; en_sessionId := sid; en_userId := uid;
         en_timestamp := at_time amb; en_severity := sev; en_data := d;
         en_url := href amb; en_userAgent := agent amb |} :: logged rest sid uid
  | SetUser u :: rest => logged rest sid u
  | _ :: rest => logged rest sid uid
  end.

(** An action during which no [flush] starts and none resumes. *)
Definition quiet (a : action) : bool :=
  match a with
  | Log _ _ sev _ => negb (String.eqb sev "error")
  | SetUser _ => true
  | Timer | Unload _ | Settle _ _ => false
  end.

(** The request did not succeed: a network error or a response that is
    not ok. *)
Definition failure (r : fetched) : option error :=
  match r with
  | NetworkError reason => Some (FetchRejected reason)
  | HttpResponse false code _ => Some (SendFailed code)
  | HttpResponse true _ _ => None
  end.

(** A fresh client, as the constructor leaves it when it is given an
    [apiUrl] and no [flushInterval]; [sid] is the session id it generates.
    With [debug] on it reports itself on the console. *)
Definition create (url sid : string) (dbg : bool) : world :=
  {| self := {| apiUrl := url; debug := dbg; sessionId := sid; userId := None;
                eventQueue := []; flushInterval := 10000 |};
     inflight := []; next_id := 0; requests := []; handled := [];
     console := if dbg then ["LoggerClient inicializado"] else [] |}.

(** Request ids are handed out in increasing order, so those in flight are
    all below the next one. *)
Definition well_formed (w : world) : Prop :=
  Forall (fun p => (fst p < next_id w)%nat) (inflight w).

End LoggerClient.

(* ===================================================================== *)
(** * Doubles, for the code whose inputs are finitely many *)
(* ===================================================================== *)

Module Binary64.

(** The double of a small non-negative integer. *)
Definition of_int (n : Z) : float := PrimFloat.of_uint63 (Uint63.of_Z n).

(** [x.toFixed(2)] read as a number of hundredths, from the exact value
    [m * 2^e] of the double: the integer [n] with [n / 100] closest to it,
    the larger one on a tie, the sign set aside.  [None] for [NaN] and the
    infinities. *)
Definition hundredths (x : float) : option Z :=
  match Prim2SF x with
  | S754_zero _ => Some 0
  | S754_finite s m e =>
      let n := if 0 <=? e then 100 * Zpos m * 2 ^ e
               else (200 * Zpos m + 2 ^ (- e)) / (2 * 2 ^ (- e)) in
      Some (if s then - n else n)
  | S754_infinity _ | S754_nan => None
  end.

(** [parseFloat(x.toFixed(2))]: the double closest to the decimal. *)
Definition parseFloat_toFixed2 (x : float) : float :=
  match hundredths x with
  | Some n => if n <? 0 then (- (of_int (- n) / 100))%float else (of_int n / 100)%float
  | None => x
  end.

(** [Math.floor(Math.random() * n) + base] for a draw [k] of the integer
    part, [0 <= k < n]. *)
Definition drawn (k : nat) (base : float) : float :=
  (of_int (Z.of_nat k) + base)%float.

(** [deviceUsage.reduce((sum, item) => sum + item.percentage, 0)] *)
Definition totalPercentage (raws : list float) : float :=
  fold_left (fun sum p => (sum + p)%float) raws 0%float.

(** The [deviceUsage] array of [_generateMockData] (statsController.js) after
    the [forEach] that normalises it, for the three draws. *)
Definition deviceUsage (desktop mobile tablet : nat) : list float :=
  let raws := [drawn desktop 30; drawn mobile 30; drawn tablet 5] in
  let total := totalPercentage raws in
  map (fun p => parseFloat_toFixed2 (p / total * 100)%float) raws.

(** The same three percentages as decimals, in hundredths. *)
Definition deviceUsage_hundredths (desktop mobile tablet : nat) : list (option Z) :=
  map hundredths (deviceUsage desktop mobile tablet).

(** The sum of the decimals, when each is finite. *)
Fixpoint sum_hundredths (l : list (option Z)) : option Z :=
  match l with
  | [] => Some 0
  | Some n :: rest => option_map (Z.add n) (sum_hundredths rest)
  | None :: _ => None
  end.

(** The sum is within one hundredth of 100. *)
Definition sums_to_100 (l : list (option Z)) : bool :=
  match sum_hundredths l with
  | Some s => (9999 <=? s) && (s <=? 10001)
  | None => false
  end.

(** A double within 0.015 of 100. *)
Definition near_100 (x : float) : bool :=
  (of_int 99985 / 1000 <=? x)%float && (x <=? of_int 100015 / 1000)%float.

(** Both readings of "the percentages sum to 100": as decimals, and as
    doubles added up the way the generator adds the raw values. *)
Definition normalised (desktop mobile tablet : nat) : bool :=
  sums_to_100 (deviceUsage_hundredths desktop mobile tablet)
  && near_100 (totalPercentage (deviceUsage desktop mobile tablet)).

(** [f] holds of every triple of draws below the three bounds. *)
Definition all_triples (n1 n2 n3 : nat) (f : nat -> nat -> nat -> bool) : bool :=
  forallb (fun a => forallb (fun b => forallb (fun c => f a b c) (seq 0 n3)) (seq 0 n2))
          (seq 0 n1).

End Binary64.

(* ===================================================================== *)
(** * backend/api/controllers/statsController.js *)
(* ===================================================================== *)

Module StatsController.

Import EventModel.

(** [utils/data/dashboard.json] as the handlers find it: no file, a file
    that [JSON.parse] rejects, or its parsed content. *)
Inductive fixture : Type := NoFile | Malformed | Parsed (content : value).

(** A line on the server's console, by [console.log] or by
    [console.error]; of the latter the text before the error object. *)
Inductive line : Type := Log (text : string) | Error (text : string).

Section Overview.

Context {R : Num.Rounding}.

(** [productViews > 0 ? (checkoutCompletes / productViews) * 100 : 0], then
    [parseFloat(conversionRate.toFixed(2))]. *)
Definition conversionRate (productViews checkoutCompletes : Z) : Num.fixed2 :=
  Num.toFixed2
    (if Num.gt0 (Num.of_count productViews)
     then Num.mul (Num.div (Num.of_count checkoutCompletes) (Num.of_count productViews))
                  (Num.Fin 100)
     else Num.Fin 0).

(** [cartAdds > 0 ? ((cartAdds - checkoutCompletes) / cartAdds) * 100 : 0],
    then [parseFloat(cartAbandonmentRate.toFixed(2))]. *)
Definition cartAbandonmentRate (cartAdds checkoutCompletes : Z) : Num.fixed2 :=
  Num.toFixed2
    (if Num.gt0 (Num.of_count cartAdds)
     then Num.mul (Num.div (Num.sub (Num.of_count cartAdds) (Num.of_count checkoutCompletes))
                           (Num.of_count cartAdds))
                  (Num.Fin 100)
     else Num.Fin 0).

Definition count_json (n : Z) : value := JNum (inject_Z n).

Definition period_json (start stop : Z) : value :=
  JObj [("start", JIso start); ("end", JIso stop)].

(** The [stats] object of the live path. *)
Definition live_stats (totalEvents productViews productCustomizations cartAdds
    checkoutStarts checkoutCompletes : Z) : value :=
  JObj [("totalEvents", count_json totalEvents);
        ("productViews", count_json productViews);
        ("productCustomizations", count_json productCustomizations);
        ("cartAdds", count_json cartAdds);
        ("checkoutStarts", count_json checkoutStarts);
        ("checkoutCompletes", count_json checkoutCompletes);
        ("conversionRate",
         Num.json_of_fixed2 (conversionRate productViews checkoutCompletes));
        ("cartAbandonmentRate",
         Num.json_of_fixed2 (cartAbandonmentRate cartAdds checkoutCompletes))].

(** The [overviewStats] literal of the fixture path. *)
Definition overviewStats : value :=
  JObj [("totalEvents", count_json 1000);
        ("productViews", count_json 450);
        ("productCustomizations", count_json 200);
        ("cartAdds", count_json 300);
        ("checkoutStarts", count_json 150);
        ("checkoutCompletes", count_json 100);
        ("conversionRate", JNum (222 # 10));
        ("cartAbandonmentRate", JNum (667 # 10))].

Definition overview_ok (start stop : Z) (stats : value) : response :=
  Response 200 (JObj [("success", JBool true);
                      ("period", period_json start stop);
                      ("stats", stats)]).

Definition overview_error : response * list line :=
  (server_error "Erro ao buscar estatísticas gerais",
   [Error "Erro ao buscar estatísticas gerais:"]).

(** The six count queries of the live path, in order; [None] as soon as one
    rejects. *)
Definition live_overview (start stop : Z) (s : store) : option value :=
  match countDocuments None start stop s with None => None | Some totalEvents =>
  match countDocuments (Some "product_view") start stop s with None => None | Some productViews =>
  match countDocuments (Some "product_customize") start stop s with None => None | Some productCustomizations =>
  match countDocuments (Some "cart_add") start stop s with None => None | Some cartAdds =>
  match countDocuments (Some "checkout_start") start stop s with None => None | Some checkoutStarts =>
  match countDocuments (Some "checkout_complete") start stop s with None => None | Some checkoutCompletes =>
    Some (live_stats totalEvents productViews productCustomizations cartAdds
                     checkoutStarts checkoutCompletes)
  end end end end end end.

(** The response, and what the handler writes on the console: nothing,
    unless it fails. *)
Definition getOverviewStats (startDate endDate : date_param) (f : fixture) (s : store)
    : response * list line :=
  match start_of startDate (clock s), end_of endDate (clock s) with
  | Some start, Some stop =>
      match f with
      | Parsed _ => (overview_ok start stop overviewStats, [])
      | Malformed => overview_error
      | NoFile =>
          match live_overview start stop s with
          | Some stats => (overview_ok start stop stats, [])
          | None => overview_error
          end
      end
  | _, _ => overview_error
  end.

End Overview.

(** ** getDashboardData *)

(** The results of the two aggregation pipelines [_getRealStats] runs
    ([findMostViewedProducts], [countByType]), each an array of groups; the
    pipelines themselves run in the database. *)
Record aggregates : Type := Aggregates {
  topProducts : list value;
  eventCounts : list value
}.

(** [_getRealStats]: a failed query is caught, reported on the console and
    replaced by empty lists. *)
Definition _getRealStats (agg : option aggregates) (now : Z)
    : list (string * value) * list line :=
  let period := JObj [("start", JIso (now - thirty_days)); ("end", JIso now)] in
  match agg with
  | Some a =>
      ([("topProducts", JArr (topProducts a)); ("eventCounts", JArr (eventCounts a));
        ("period", period)], [])
  | None =>
      ([("topProducts", JArr []); ("eventCounts", JArr []); ("period", period)],
       [Error "Erro ao buscar estatísticas reais:"])
  end.

(** What [_generateMockData] draws: the series and metrics it builds from
    [Math.random], and the integer parts of the three device draws. *)
Record generated : Type := Generated {
  dailySales : value;
  dailyVisitors : value;
  salesByCategory : value;
  popularCustomizations : value;
  desktop : nat;
  mobile : nat;
  tablet : nat;
  metrics : value
}.

Definition device_json (name : string) (h : option Z) : value :=
  JObj [("device", JStr name);
        ("percentage", match h with Some n => JNum (n # 100) | None => JNull end)].

Definition deviceUsage_json (g : generated) : value :=
  match Binary64.deviceUsage_hundredths (desktop g) (mobile g) (tablet g) with
  | [d; m; t] => JArr [device_json "Desktop" d; device_json "Mobile" m; device_json "Tablet" t]
  | _ => JArr []
  end.

Definition _generateMockData (g : generated) : list (string * value) :=
  [("dailySales", dailySales g);
   ("dailyVisitors", dailyVisitors g);
   ("salesByCategory", salesByCategory g);
   ("popularCustomizations", popularCustomizations g);
   ("deviceUsage", deviceUsage_json g);
   ("metrics", metrics g)].

(** [{ ...a, ...b }] *)
Fixpoint assign (a b : list (string * value)) : list (string * value) :=
  match b with
  | [] => a
  | (k, v) :: rest => assign (set k v a) rest
  end.

Definition dashboard_ok (dashboardData : value) : response :=
  Response 200 (JObj [("success", JBool true); ("dashboardData", dashboardData)]).

Definition using_fixture : string :=
  "✅ Usando dados simulados do arquivo para o dashboard".

Definition generating : string :=
  "⚠️ Arquivo de dados simulados não encontrado, gerando dados dinamicamente".

(** The response, and what the handler writes on the console: which of the
    two sources it uses, then the errors if any. *)
Definition getDashboardData (f : fixture) (agg : option aggregates) (g : generated)
    (s : store) : response * list line :=
  match f with
  | Parsed dashboardData => (dashboard_ok dashboardData, [Log using_fixture])
  | Malformed =>
      (server_error "Erro ao buscar dados do dashboard",
       [Log using_fixture; Error "Erro ao buscar dados do dashboard:"])
  | NoFile =>
      let (realStats, errors) := _getRealStats agg (clock s) in
      (dashboard_ok (JObj (assign realStats (_generateMockData g))),
       Log generating :: errors)
  end.

(** The members of [dashboardData] when it is put together by the handler:
    three from the store, six from the generator. *)
Definition dashboard_members : list string :=
  ["topProducts"; "eventCounts"; "period";
   "dailySales"; "dailyVisitors"; "salesByCategory"; "popularCustomizations";
   "deviceUsage"; "metrics"].

(** ** The shape of a response *)

(** A JSON value with its leaves erased: what members there are, not what
    they hold. *)
Inductive skeleton : Type :=
| SLeaf
| SArr
| SObj (members : list (string * skeleton)).

Fixpoint shape (v : value) : skeleton :=
  match v with
  | JObj fields =>
      SObj ((fix members (l : list (string * value)) : list (string * skeleton) :=
               match l with
               | [] => []
               | (k, x) :: rest => (k, shape x) :: members rest
               end) fields)
  | JArr _ => SArr
  | _ => SLeaf
  end.

(** A response carries a degraded-mode flag with respect to a live one when
    the two can be told apart by status or by the members they have. *)
Definition flagged (mock live : response) : Prop :=
  status mock <> status live \/ shape (body mock) <> shape (body live).

End StatsController.

(* ===================================================================== *)
(** * backend/admin/controllers/productController.js : updateProduct *)
(* ===================================================================== *)

Module ProductController.

(** A product document, as an object. *)
Definition document := list (string * value).

(** The product collection: the documents by [_id], each under the hex
    string of its ObjectId; whether a query goes through; the verdict of
    the schema validators on a document; and what is Mongoose's and
    MongoDB's to decide:
    - [objectId]: the ObjectId a route parameter or a body value is cast
      to, as its hex string, [None] when the cast throws a [CastError];
    - [in_schema]: whether strict mode keeps a dotted key of [$set], such
      as [tags.0], as a path of the schema;
    - [write_inside]: the value of a member after the dotted keys below it
      were written, given the keys with their values and the member as it
      was; [None] when the write is refused;
    - [customization]: what the nested schema makes of the
      [customizationOptions] of a new product, its subdocuments with their
      ids and defaults; [None] when the value cannot be cast. *)
Record store : Type := Store {
  products : list (string * document);
  reachable : bool;
  validates : document -> bool;
  objectId : string -> option string;
  in_schema : string -> bool;
  write_inside : list (string * value) -> prop -> option value;
  customization : value -> option value
}.

Definition with_products (s : store) (l : list (string * document)) : store :=
  {| products := l; reachable := reachable s; validates := validates s;
     objectId := objectId s; in_schema := in_schema s;
     write_inside := write_inside s; customization := customization s |}.

(** The document of an ObjectId. *)
Fixpoint findById (id : string) (l : list (string * document)) : option document :=
  match l with
  | [] => None
  | (i, d) :: rest => if String.eqb i id then Some d else findById id rest
  end.

Fixpoint replace (id : string) (d : document) (l : list (string * document))
    : list (string * document) :=
  match l with
  | [] => []
  | (i, d') :: rest =>
      if String.eqb i id then (i, d) :: rest else (i, d') :: replace id d rest
  end.

(** The paths of [productSchema], with the version key; [$set] ignores a
    key that is neither one of them nor inside one of them. *)
Definition schema_paths : list string :=
  ["name"; "description"; "price"; "category"; "subcategory"; "images"; "model3dUrl";
   "has3dModel"; "customizationOptions"; "stock"; "isActive"; "isFeatured"; "tags";
   "ratings"; "averageRating"; "createdAt"; "updatedAt"; "__v"].

(** The name before the first dot of a key: the path a dotted key writes
    inside. *)
Fixpoint root (k : string) : string :=
  match k with
  | EmptyString => EmptyString
  | String c rest => if Ascii.eqb c "."%char then EmptyString else String c (root rest)
  end.

Definition dotted (k : string) : bool := negb (String.eqb (root k) k).

(** The dotted keys of [updateData] inside the path [p] that strict mode
    keeps. *)
Definition inside (s : store) (p : string) (updateData : list (string * value))
    : list (string * value) :=
  filter (fun kv => String.eqb (root (fst kv)) p && dotted (fst kv) && in_schema s (fst kv))
         updateData.

(** One path under [{ $set: updateData }].  The value of the key [p] is
    written to the document; dotted keys inside [p] are written by
    MongoDB; and MongoDB refuses an update that has both, as it would write
    the same place twice. *)
Definition apply_path (s : store) (updateData : list (string * value)) (p : string)
    (d : document) : option document :=
  match get p updateData, inside s p updateData with
  | Some v, [] => Some (set p v d)
  | Some _, _ :: _ => None
  | None, [] => Some d
  | None, deep =>
      match write_inside s deep (get p d) with
      | Some v => Some (set p v d)
      | None => None
      end
  end.

Fixpoint apply_paths (s : store) (paths : list string) (updateData : list (string * value))
    (d : document) : option document :=
  match paths with
  | [] => Some d
  | p :: rest =>
      match apply_path s updateData p d with
      | Some d' => apply_paths s rest updateData d'
      | None => None
      end
  end.

(** [_id] cannot be changed: an update that carries it goes through only
    when the value casts to the id the document has. *)
Definition same_id (s : store) (oid : string) (updateData : list (string * value)) : bool :=
  match get "_id" updateData with
  | None => true
  | Some (JStr i) =>
      match objectId s i with
      | Some o => String.eqb o oid
      | None => false
      end
  | Some _ => false
  end.

(** [{ $set: updateData }] on the document [oid]; [None] when the update
    is refused. *)
Definition apply_set (s : store) (oid : string) (updateData : list (string * value))
    (d : document) : option document :=
  if same_id s oid updateData then apply_paths s schema_paths updateData d else None.

(** The built-ins the handler calls on body fields. *)
Record builtins : Type := Builtins {
  json_parse : string -> option value;
  parseFloat : value -> value;
  parseInt : value -> value;
  split_trim : string -> list string
}.

(** The multipart request: route parameter, [req.files] (the stored file
    names, in upload order; [None] when there is no such property) and
    [req.body]. *)
Record request : Type := Request {
  id : string;
  files : option (list string);
  updateData : list (string * value)
}.

Definition upload_path (filename : string) : string := "/uploads/products/" ++ filename.

(** [x === 'true' || x === true] *)
Definition is_true (p : prop) : bool :=
  match p with
  | Some (JStr s) => String.eqb s "true"
  | Some (JBool b) => b
  | _ => false
  end.

(** The elements of [product.images]. *)
Definition images_of (d : document) : list value :=
  match get "images" d with
  | Some (JArr items) => items
  | _ => []
  end.

(** Lines 404-414: the uploaded files become [updateData.images]. *)
Definition process_images (files : option (list string)) (product : document)
    (updateData : list (string * value)) : list (string * value) :=
  match files with
  | Some (f :: fs) =>
      let newImages := map (fun file => JStr (upload_path file)) (f :: fs) in
      if is_true (get "keepImages" updateData)
      then set "images" (JArr (images_of product ++ newImages)) updateData
      else set "images" (JArr newImages) updateData
  | _ => updateData
  end.

Section Normalise.

Variable b : builtins.

(** Tags: an array stays, a string is split at commas; anything else truthy
    has no [split] and the call throws. *)
Definition process_tags (u : list (string * value)) : option (list (string * value)) :=
  if truthy (get "tags" u) then
    match get "tags" u with
    | Some (JArr _) => Some u
    | Some (JStr s) => Some (set "tags" (JArr (map JStr (split_trim b s))) u)
    | _ => None
    end
  else Some u.

Definition process_options (u : list (string * value)) : option (list (string * value)) :=
  match get "customizationOptions" u with
  | Some (JStr s) =>
      if str_empty s then Some u
      else match json_parse b s with
           | Some v => Some (set "customizationOptions" v u)
           | None => None
           end
  | _ => Some u
  end.

Definition process_flag (k : string) (u : list (string * value)) : list (string * value) :=
  match get k u with
  | Some _ => set k (JBool (is_true (get k u))) u
  | None => u
  end.

Definition process_number (k : string) (parse : value -> value)
    (u : list (string * value)) : list (string * value) :=
  match get k u with
  | Some v => set k (parse v) u
  | None => u
  end.

(** Lines 416-450, in order. *)
Definition normalise (u : list (string * value)) : option (list (string * value)) :=
  match process_tags u with
  | None => None
  | Some u1 =>
      match process_options u1 with
      | None => None
      | Some u2 =>
          Some (process_number "stock" (parseInt b)
                 (process_number "price" (parseFloat b)
                   (process_flag "isFeatured"
                     (process_flag "isActive"
                       (process_flag "has3dModel" u2)))))
      end
  end.

Definition not_found : response :=
  Response 404 (JObj [("success", JBool false); ("message", JStr "Produto não encontrado")]).

Definition updated (d : document) : response :=
  Response 200 (JObj [("success", JBool true);
                      ("message", JStr "Produto atualizado com sucesso");
                      ("product", JObj d)]).

Definition update_error : response := server_error "Erro ao atualizar produto".

(** [Product.findById] casts the route parameter before it looks the
    document up, and throws when it is no ObjectId. *)
Definition updateProduct (r : request) (s : store) : response * store :=
  if negb (reachable s) then (update_error, s)
  else
    match objectId s (id r) with
    | None => (update_error, s)
    | Some oid =>
        match findById oid (products s) with
        | None => (not_found, s)
        | Some product =>
            match normalise (process_images (files r) product (updateData r)) with
            | None => (update_error, s)
            | Some u =>
                match apply_set s oid u product with
                | None => (update_error, s)
                | Some d =>
                    if validates s d
                    then (updated d, with_products s (replace oid d (products s)))
                    else (update_error, s)
                end
            end
        end
    end.

End Normalise.

(** The [images] array of the product with the ObjectId [oid] in the
    store. *)
Definition stored_images (oid : string) (s : store) : option (list value) :=
  match findById oid (products s) with
  | Some d => Some (images_of d)
  | None => None
  end.

End ProductController.

(* ===================================================================== *)
(** * backend/admin/controllers/userController.js : login *)
(* ===================================================================== *)

Module UserController.

(** A user document; [u_id] is the hex string of its ObjectId, [password]
    the stored hash, and the two dates are time values. *)
Record user : Type := User {
  u_id : string;
  name : string;
  email : string;
  password : string;
  role : string;
  isActive : bool;
  createdAt : Z;
  updatedAt : Z
}.

(** The user collection: the documents; whether a query goes through; and
    what is Mongoose's to decide: [normalise], the setters [trim] and
    [lowercase] of the path [email], which run on a value that is stored
    and on a value that is looked for; and [objectId], the ObjectId a
    parameter is cast to, as its hex string, [None] when the cast throws a
    [CastError]. *)
Record store : Type := Store {
  users : list user;
  reachable : bool;
  normalise : string -> string;
  objectId : string -> option string
}.

Definition with_users (s : store) (l : list user) : store :=
  {| users := l; reachable := reachable s; normalise := normalise s;
     objectId := objectId s |}.

(** The first document with the email [e]. *)
Fixpoint findOne (e : string) (l : list user) : option user :=
  match l with
  | [] => None
  | u :: rest => if String.eqb (email u) e then Some u else findOne e rest
  end.

(** The body of a login request; a [password] that is not a string is
    [None]. *)
Record credentials : Type := Credentials { cr_email : string; cr_password : option string }.

Definition invalid_credentials : response :=
  Response 401 (JObj [("success", JBool false); ("message", JStr "Email ou senha inválidos")]).

Definition deactivated : response :=
  Response 401 (JObj [("success", JBool false);
    ("message", JStr "Conta desativada. Entre em contato com o administrador.")]).

Definition toSafeObject (u : user) : value :=
  JObj [("id", JStr (u_id u)); ("name", JStr (name u)); ("email", JStr (email u));
        ("role", JStr (role u)); ("isActive", JBool (isActive u));
        ("createdAt", JIso (createdAt u)); ("updatedAt", JIso (updatedAt u))].

Definition logged_in (token : string) (u : user) : response :=
  Response 200 (JObj [("success", JBool true);
                      ("message", JStr "Login realizado com sucesso");
                      ("token", JStr token);
                      ("user", toSafeObject u)]).

Section Login.

(** [bcrypt.compare(candidate, hash)] and [jwt.sign(payload, secret, options)]. *)
Variable compare : string -> string -> bool.
Variable sign : user -> string.

(** [user.comparePassword(password)]: bcrypt throws on a candidate that is
    not a string. *)
Definition comparePassword (u : user) (candidate : option string) : option bool :=
  match candidate with
  | Some c => Some (compare c (password u))
  | None => None
  end.

(** [User.findOne({ email })] looks for the email as the schema writes
    it. *)
Definition login (c : credentials) (s : store) : response :=
  if negb (reachable s) then server_error "Erro ao fazer login"
  else
    match findOne (normalise s (cr_email c)) (users s) with
    | None => invalid_credentials
    | Some u =>
        if negb (isActive u) then deactivated
        else
          match comparePassword u (cr_password c) with
          | None => server_error "Erro ao fazer login"
          | Some false => invalid_credentials
          | Some true => logged_in (sign u) u
          end
    end.

End Login.

End UserController.

(* ===================================================================== *)
(** * frontend/utils/loggerClient.js : the logging helpers *)
(* ===================================================================== *)

Module ClientMethods.

Import LoggerClient.

(** [{ k1: v1, ..., ...additionalData }] *)
Definition with_additional (named additionalData : list (string * value)) : value :=
  JObj (StatsController.assign named additionalData).

Definition logPageView (pageTitle : value) (additionalData : list (string * value))
    (a : ambient) (w : world) : world :=
  logEvent "page_view" (with_additional [("pageTitle", pageTitle)] additionalData) "info" a w.

Definition logProductView (productId productName : value)
    (additionalData : list (string * value)) (a : ambient) (w : world) : world :=
  logEvent "product_view"
    (with_additional [("productId", productId); ("productName", productName)] additionalData)
    "info" a w.

Definition logAddToCart (productId productName quantity price : value)
    (additionalData : list (string * value)) (a : ambient) (w : world) : world :=
  logEvent "add_to_cart"
    (with_additional [("productId", productId); ("productName", productName);
                      ("quantity", quantity); ("price", price)] additionalData)
    "info" a w.

Definition logRemoveFromCart (productId productName quantity : value)
    (additionalData : list (string * value)) (a : ambient) (w : world) : world :=
  logEvent "remove_from_cart"
    (with_additional [("productId", productId); ("productName", productName);
                      ("quantity", quantity)] additionalData)
    "info" a w.

Definition logCheckout (items total : value) (additionalData : list (string * value))
    (a : ambient) (w : world) : world :=
  logEvent "checkout" (with_additional [("items", items); ("total", total)] additionalData)
    "info" a w.

Definition logPurchase (orderId items total : value) (additionalData : list (string * value))
    (a : ambient) (w : world) : world :=
  logEvent "purchase"
    (with_additional [("orderId", orderId); ("items", items); ("total", total)] additionalData)
    "info" a w.

Definition logCustomization (productId productName customizations : value)
    (additionalData : list (string * value)) (a : ambient) (w : world) : world :=
  logEvent "customization"
    (with_additional [("productId", productId); ("productName", productName);
                      ("customizations", customizations)] additionalData)
    "info" a w.

Definition logError (errorMessage : value) (errorDetails : list (string * value))
    (a : ambient) (w : world) : world :=
  logEvent "error" (with_additional [("message", errorMessage)] errorDetails) "error" a w.

(** A call of one of the eight helper methods, with its arguments. *)
Inductive call : Type :=
| PageView (pageTitle : value) (additionalData : list (string * value))
| ProductView (productId productName : value) (additionalData : list (string * value))
| AddToCart (productId productName quantity price : value)
    (additionalData : list (string * value))
| RemoveFromCart (productId productName quantity : value)
    (additionalData : list (string * value))
| Checkout (items total : value) (additionalData : list (string * value))
| Purchase (orderId items total : value) (additionalData : list (string * value))
| Customization (productId productName customizations : value)
    (additionalData : list (string * value))
| Error (errorMessage : value) (errorDetails : list (string * value)).

Definition perform (c : call) (a : ambient) (w : world) : world :=
  match c with
  | PageView t d => logPageView t d a w
  | ProductView i n d => logProductView i n d a w
  | AddToCart i n q p d => logAddToCart i n q p d a w
  | RemoveFromCart i n q d => logRemoveFromCart i n q d a w
  | Checkout i t d => logCheckout i t d a w
  | Purchase o i t d => logPurchase o i t d a w
  | Customization i n c d => logCustomization i n c d a w
  | Error m d => logError m d a w
  end.

(** The object the caller passes last: [additionalData], or [errorDetails]. *)
Definition additional (c : call) : list (string * value) :=
  match c with
  | PageView _ d | ProductView _ _ d | AddToCart _ _ _ _ d | RemoveFromCart _ _ _ d
  | Checkout _ _ d | Purchase _ _ _ d | Customization _ _ _ d | Error _ d => d
  end.

(** The entries the client holds: those in the queue and those of the
    batches whose request is in flight. *)
Definition held (w : world) : list entry :=
  eventQueue (self w) ++ concat (map snd (inflight w)).

(** The entries that leave the client for good in one step: a batch handed
    to [sendBeacon], or one whose request came back ok. *)
Definition departed (w : world) (a : action) : list entry :=
  match a with
  | Unload (Some _) => eventQueue (self w)
  | Settle id (HttpResponse true _ _) =>
      match find_batch id (inflight w) with
      | Some batch => batch
      | None => []
      end
  | _ => []
  end.

Fixpoint departed_during (actions : list action) (w : world) : list entry :=
  match actions with
  | [] => []
  | a :: rest => departed w a ++ departed_during rest (step w a)
  end.

End ClientMethods.

(* ===================================================================== *)
(** * backend/admin/routes and the application (server.js) *)
(* ===================================================================== *)

Module AdminRoutes.

Import Routes.

(** The middlewares of the admin routers: the two of authMiddleware.js and
    [productController.uploadImages] (Multer). *)
Inductive mw : Type := IsAuthenticated | IsAdmin | UploadImages.

Inductive handler : Type :=
| CreateProduct | GetAllProducts | GetProductStats | GetProductById | UpdateProduct
| DeleteProduct
| Register | Login | GetProfile | GetAllUsers | UpdateUser | ChangePassword
| AdminIndex | AdminDashboard | AdminOrders.

Record route : Type := Route {
  r_method : method;
  r_path : list segment;
  r_chain : list mw;
  r_handler : handler
}.

(** productRoutes.js, in order; [/stats] comes before [/:id]. *)
Definition productRoutes : list route :=
  [ Route POST [] [IsAdmin; UploadImages] CreateProduct;
    Route GET [] [IsAdmin] GetAllProducts;
    Route GET [Lit "stats"] [IsAdmin] GetProductStats;
    Route GET [Param "id"] [IsAdmin] GetProductById;
    Route PUT [Param "id"] [IsAdmin; UploadImages] UpdateProduct;
    Route DELETE [Param "id"] [IsAdmin] DeleteProduct ].

(** userRoutes.js, in order. *)
Definition userRoutes : list route :=
  [ Route POST [Lit "register"] [IsAdmin] Register;
    Route POST [Lit "login"] [] Login;
    Route GET [Lit "profile"] [IsAuthenticated] GetProfile;
    Route GET [] [IsAdmin] GetAllUsers;
    Route PUT [Param "id"] [IsAdmin] UpdateUser;
    Route POST [Lit "change-password"] [IsAuthenticated] ChangePassword ].

(** The routes adminRoutes.js declares itself: [/] before the two mounted
    routers, [/dashboard] and [/orders] after them. *)
Definition adminIndex : list route := [ Route GET [] [IsAdmin] AdminIndex ].

Definition adminPages : list route :=
  [ Route GET [Lit "dashboard"] [IsAdmin] AdminDashboard;
    Route GET [Lit "orders"] [IsAdmin] AdminOrders ].

(** The end of a request in these routers, with the middlewares that ran,
    in order. *)
Inductive result : Type :=
| Stopped (r : response) (ran : list mw)
| Entered (h : handler) (user : option Auth.claims) (ran : list mw)
| Unmatched.

(** The middlewares that ran, whatever the end. *)
Definition ran_of (r : result) : list mw :=
  match r with
  | Stopped _ ran | Entered _ _ ran => ran
  | Unmatched => []
  end.

Fixpoint no_space (s : string) : bool :=
  match s with
  | EmptyString => true
  | String c rest => negb (Ascii.eqb c " "%char) && no_space rest
  end.

(** A token was verified and carries the role ["admin"]. *)
Definition is_admin (user : option Auth.claims) : Prop :=
  exists c, user = Some c /\ Auth.role c = Some "admin".

(** The handlers that serve any caller, and those that serve any
    authenticated one. *)
Definition public (h : handler) : bool :=
  match h with Login => true | _ => false end.

Definition for_any_user (h : handler) : bool :=
  match h with GetProfile | ChangePassword => true | _ => false end.

Section Dispatch.

Variable verify : string -> option Auth.claims.

(** [upload] tells whether Multer accepts the files of the request (at most
    five, each an image of at most 5 MB); if not, it passes an error on. *)
Fixpoint run_chain (chain : list mw) (authorization : option string) (upload : bool)
    (user : option Auth.claims) (ran : list mw) (h : handler) : result :=
  match chain with
  | [] => Entered h user ran
  | IsAuthenticated :: rest =>
      match Auth.isAuthenticated verify authorization with
      | Auth.Respond r => Stopped r (ran ++ [IsAuthenticated])
      | Auth.Next u => run_chain rest authorization upload u (ran ++ [IsAuthenticated]) h
      end
  | IsAdmin :: rest =>
      match Auth.isAdmin verify authorization with
      | Auth.Respond r => Stopped r (ran ++ [IsAdmin])
      | Auth.Next u => run_chain rest authorization upload u (ran ++ [IsAdmin]) h
      end
  | UploadImages :: rest =>
      if upload then run_chain rest authorization upload user (ran ++ [UploadImages]) h
      else Stopped internal_error (ran ++ [UploadImages])
  end.

(** As in [Routes.dispatch]: a parameter that cannot be decoded ends the
    request at the error middleware before any middleware of a route has
    run. *)
Fixpoint dispatch (routes : list route) (m : method) (path : list string)
    (authorization : option string) (upload : bool) : result :=
  match routes with
  | [] => Unmatched
  | r :: rest =>
      if matches (r_path r) path then
        if negb (decoded (r_path r) path) then Stopped internal_error []
        else if handles (r_method r) m
        then run_chain (r_chain r) authorization upload None [] (r_handler r)
        else dispatch rest m path authorization upload
      else dispatch rest m path authorization upload
  end.

(** [a], and [b] when no route of [a] matched. *)
Definition or_next (a b : result) : result :=
  match a with Unmatched => b | _ => a end.

(** [router.use(prefix, sub)]: the sub-router sees the path below the
    prefix. *)
Definition mounted (prefix : string) (sub : list route) (m : method) (path : list string)
    (authorization : option string) (upload : bool) : result :=
  match below [prefix] path with
  | Some rest => dispatch sub m rest authorization upload
  | None => Unmatched
  end.

(** adminRoutes.js as a whole. *)
Definition adminRoutes (m : method) (path : list string)
    (authorization : option string) (upload : bool) : result :=
  or_next (dispatch adminIndex m path authorization upload)
    (or_next (mounted "users" userRoutes m path authorization upload)
       (or_next (mounted "products" productRoutes m path authorization upload)
          (dispatch adminPages m path authorization upload))).

(** server.js: how a request ends in the application. *)
Inductive served : Type :=
| Preflight
| BodyRejected (r : response)
| ByLogs (d : dispatched)
| ByStats (d : dispatched)
| ByAdmin (r : result)
| Root
| NoRoute (r : response).

Definition route_not_found : response :=
  Response 404 (JObj [("error", JStr "Rota não encontrada")]).

(** The middlewares in front of the routers, the three [app.use] mounts,
    the root route, and the final middleware.  [cors] answers every
    OPTIONS request with 204 and no body; a body that [express.json] or
    [express.urlencoded] cannot parse ([parsed] is [false]) goes to the
    error middleware. *)
Definition app (m : method) (path : list string) (authorization : option string)
    (parsed upload : bool) : served :=
  match m with
  | OPTIONS => Preflight
  | _ =>
      if negb parsed then BodyRejected internal_error
      else
        let logs :=
          match below ["api"; "logs"] path with
          | Some rest => Routes.dispatch verify logRoutes m rest authorization
          | None => NotFound
          end in
        let stats :=
          match below ["api"; "stats"] path with
          | Some rest => Routes.dispatch verify statsRoutes m rest authorization
          | None => NotFound
          end in
        let admin :=
          match below ["api"; "admin"] path with
          | Some rest => adminRoutes m rest authorization upload
          | None => Unmatched
          end in
        match logs with
        | NotFound =>
            match stats with
            | NotFound =>
                match admin with
                | Unmatched =>
                    if handles GET m && matches [] path then Root
                    else NoRoute route_not_found
                | r => ByAdmin r
                end
            | d => ByStats d
            end
        | d => ByLogs d
        end
  end.

(** What a route lets through: its handler runs with the verified payload
    of the bearer token, with an admin's unless the handler is for any
    user, and the upload middleware runs only behind [isAdmin]. *)
Definition guarded (r : route) : Prop :=
  forall authorization upload res,
    run_chain (r_chain r) authorization upload None [] (r_handler r) = res ->
    (forall h user ran, res = Entered h user ran ->
       h = r_handler r /\
       (public h = false ->
        exists c, Auth.isAuthenticated verify authorization = Auth.Next (Some c)
                  /\ user = Some c) /\
       (public h = false -> for_any_user h = false -> is_admin user)) /\
    (In UploadImages (ran_of res) ->
     exists user, Auth.isAdmin verify authorization = Auth.Next user).

End Dispatch.

End AdminRoutes.

(* ===================================================================== *)
(** * Sorting and grouping, as the queries and the generators use them *)
(* ===================================================================== *)

Module Sorting.

Section Desc.

Variable A : Type.
Variable measure : A -> Z.

(** A stable sort by decreasing [measure]: what [Array.prototype.sort] does
    with the comparator [(a, b) => b.count - a.count], and one of the orders
    a [$sort: { count: -1 }] stage or [.sort({ timestamp: -1 })] may give
    (the database leaves the order of equal keys open). *)
Fixpoint insert_desc (x : A) (l : list A) : list A :=
  match l with
  | [] => [x]
  | y :: rest => if measure y <=? measure x then x :: y :: rest else y :: insert_desc x rest
  end.

Definition sort_desc (l : list A) : list A := fold_right insert_desc [] l.

(** Each element is at least as large as those after it. *)
Definition descending (l : list A) : Prop :=
  StronglySorted (fun a b => measure b <= measure a) l.

End Desc.

Arguments insert_desc {A} measure x l.
Arguments sort_desc {A} measure l.
Arguments descending {A} measure l.

End Sorting.

Module Aggregate.

Section Group.

Variables K A : Type.
Variable eqb : K -> K -> bool.

(** One output document of a [$group] stage: its [_id], what a [$first]
    accumulator kept, and its [{ $sum: 1 }]. *)
Record group : Type := Group { g_id : K; g_first : A; g_count : nat }.

(** A document with key [k] enters the groups: it is counted in the group
    of its key, or opens a new one. *)
Fixpoint enter (k : K) (a : A) (groups : list group) : list group :=
  match groups with
  | [] => [Group k a 1]
  | g :: rest =>
      if eqb (g_id g) k then Group (g_id g) (g_first g) (S (g_count g)) :: rest
      else g :: enter k a rest
  end.

Definition group_by (docs : list (K * A)) : list group :=
  fold_left (fun groups d => enter (fst d) (snd d) groups) docs [].

Definition views (g : group) : Z := Z.of_nat (g_count g).

(** The number of documents with key [k]. *)
Definition occurrences (k : K) (docs : list (K * A)) : nat :=
  List.length (filter (fun d => eqb (fst d) k) docs).

Definition total (groups : list group) : nat :=
  fold_right (fun g n => (g_count g + n)%nat) 0%nat groups.

(** The groups partition the documents [seen]: one group per key that
    occurs, counting the documents of that key. *)
Definition grouped (seen : list (K * A)) (groups : list group) : Prop :=
  NoDup (map g_id groups) /\
  (forall g, In g groups -> (0 < g_count g)%nat /\ g_count g = occurrences (g_id g) seen) /\
  (forall d, In d seen -> exists g, In g groups /\ g_id g = fst d) /\
  total groups = List.length seen.

End Group.

Arguments Group {K A} g_id g_first g_count.
Arguments g_id {K A} g.
Arguments g_first {K A} g.
Arguments g_count {K A} g.
Arguments enter {K A} eqb k a groups.
Arguments group_by {K A} eqb docs.
Arguments views {K A} g.
Arguments occurrences {K A} eqb k docs.
Arguments total {K A} groups.
Arguments grouped {K A} eqb seen groups.

End Aggregate.

(* ===================================================================== *)
(** * backend/logs/logController.js : the query handlers *)
(* ===================================================================== *)

Module LogQueries.

Import EventModel Aggregate.

Definition seven_days : Z := 7 * 24 * 60 * 60 * 1000.

(** [Event.findByTypeAndPeriod(type, start, end)]: the events of the type
    in the window, newest first. *)
Definition findByTypeAndPeriod (t : string) (start stop : Z) (s : store) : list event :=
  Sorting.sort_desc ev_timestamp
    (filter (fun e => has_type t e && in_window start stop e) (events s)).

(** [.limit(n)] on a query: [0] sets no limit. *)
Definition limit {A : Type} (n : nat) (l : list A) : list A :=
  match n with
  | O => l
  | S _ => firstn n l
  end.

Definition opt_field (k : string) (p : prop) : list (string * value) :=
  match p with
  | Some v => [(k, v)]
  | None => []
  end.

(** An event document in a response. *)
Definition event_json (e : event) : value :=
  JObj ([("_id", JNum (inject_Z (Z.of_nat (ev_id e))))]
        ++ opt_field "eventType" (ev_eventType e)
        ++ [("userId", ev_userId e); ("isAuthenticated", JBool (ev_isAuthenticated e))]
        ++ opt_field "sessionId" (ev_sessionId e)
        ++ opt_field "eventData" (ev_eventData e)
        ++ opt_field "userAgent" (ev_userAgent e)
        ++ opt_field "ipAddress" (ev_ipAddress e)
        ++ [("pageUrl", ev_pageUrl e); ("referrer", ev_referrer e);
            ("timestamp", JIso (ev_timestamp e)); ("__v", JNum 0)]).

Definition count_json (n : nat) : value := JNum (inject_Z (Z.of_nat n)).

Definition events_found (found : list event) : response :=
  Response 200 (JObj [("success", JBool true);
                      ("count", count_json (List.length found));
                      ("events", JArr (map event_json found))]).

(** [limit = 100] when the query string has none, [parseInt(limit)]
    otherwise. *)
Definition limit_or (default : nat) (limit_q : option nat) : nat :=
  match limit_q with
  | Some n => n
  | None => default
  end.

(** The events [getEventsByType] answers with. *)
Definition listed (t : string) (start stop : Z) (n : nat) (s : store) : list event :=
  limit n (findByTypeAndPeriod t start stop s).

(** [GET /events/:type]; the window starts seven days back by default.  A
    date that does not parse makes the query throw. *)
Definition getEventsByType (t : string) (startDate endDate : date_param)
    (limit_q : option nat) (s : store) : response :=
  match match startDate with
        | Absent => Some (clock s - seven_days)
        | Valid ms => Some ms
        | Invalid => None
        end,
        end_of endDate (clock s) with
  | Some start, Some stop =>
      if reachable s then events_found (listed t start stop (limit_or 100 limit_q) s)
      else server_error "Erro ao buscar eventos"
  | _, _ => server_error "Erro ao buscar eventos"
  end.

(** ** getEventCounts *)

(** The [eventType] of a stored document; the schema makes it a string. *)
Definition type_of (e : event) : option string :=
  match ev_eventType e with
  | Some (JStr t) => Some t
  | _ => None
  end.

Definition type_eqb (a b : option string) : bool :=
  match a, b with
  | Some x, Some y => String.eqb x y
  | None, None => true
  | _, _ => false
  end.

(** The documents that pass [$match: { timestamp: { $gte, $lte } }], by
    type. *)
Definition typed_in_window (start stop : Z) (s : store) : list (option string * unit) :=
  map (fun e => (type_of e, tt)) (filter (in_window start stop) (events s)).

(** [Event.countByType(start, end)]: [$match], [$group] by type with a
    count, [$sort] by decreasing count. *)
Definition countByType (start stop : Z) (s : store) : list (group (option string) unit) :=
  Sorting.sort_desc views (group_by type_eqb (typed_in_window start stop s)).

Definition type_count_json (g : group (option string) unit) : value :=
  JObj [("_id", match g_id g with Some t => JStr t | None => JNull end);
        ("count", count_json (g_count g))].

Definition counts_found (start stop : Z) (counts : list (group (option string) unit))
    : response :=
  Response 200 (JObj [("success", JBool true);
                      ("period", JObj [("start", JIso start); ("end", JIso stop)]);
                      ("counts", JArr (map type_count_json counts))]).

(** [GET /counts], thirty days back by default. *)
Definition getEventCounts (startDate endDate : date_param) (s : store) : response :=
  match start_of startDate (clock s), end_of endDate (clock s) with
  | Some start, Some stop =>
      if reachable s then counts_found start stop (countByType start stop s)
      else server_error "Erro ao contar eventos"
  | _, _ => server_error "Erro ao contar eventos"
  end.

(** ** getMostViewedProducts *)

Section MostViewed.

(** The values of [eventData.productId] as the database groups them: a type
    of keys with the database's equality, the key of an event (that of
    [null] when it has none), and the JSON of a key. *)
Variable key : Type.
Variable key_eqb : key -> key -> bool.
Variable productId_of : event -> key.
Variable key_json : key -> value.

(** [{ $first: '$eventData.productName' }] reads this off a document. *)
Definition productName_of (e : event) : value :=
  match ev_eventData e with
  | Some d => match field "productName" d with Some n => n | None => JNull end
  | None => JNull
  end.

(** The product views in the window, by product. *)
Definition viewed (start stop : Z) (s : store) : list (key * value) :=
  map (fun e => (productId_of e, productName_of e))
      (filter (fun e => has_type "product_view" e && in_window start stop e) (events s)).

(** [Event.findMostViewedProducts(limit, start, end)]: [$match], [$group]
    by product, [$sort] by decreasing views, [$limit].  A [$limit] that is
    not positive makes the pipeline fail. *)
Definition findMostViewedProducts (n : Z) (startDate endDate : option Z) (s : store)
    : option (list (group key value)) :=
  let start := match startDate with Some ms => ms | None => clock s - thirty_days end in
  let stop := match endDate with Some ms => ms | None => clock s end in
  if n <=? 0 then None
  else Some (firstn (Z.to_nat n)
               (Sorting.sort_desc views (group_by key_eqb (viewed start stop s)))).

Definition product_json (g : group key value) : value :=
  JObj [("_id", key_json (g_id g)); ("productName", g_first g);
        ("views", count_json (g_count g))].

Definition products_found (products : list (group key value)) : response :=
  Response 200 (JObj [("success", JBool true);
                      ("count", count_json (List.length products));
                      ("products", JArr (map product_json products))]).

(** [GET /most-viewed]: [limit = 10] by default, [parseInt(limit)]
    otherwise; the dates are those of the query string that parse. *)
Definition getMostViewedProducts (limit_q : option Z) (startDate endDate : option Z)
    (s : store) : response :=
  if reachable s then
    match findMostViewedProducts (match limit_q with Some n => n | None => 10 end)
            startDate endDate s with
    | Some products => products_found products
    | None => server_error "Erro ao buscar produtos mais visualizados"
    end
  else server_error "Erro ao buscar produtos mais visualizados".

End MostViewed.

End LogQueries.

(* ===================================================================== *)
(** * backend/api/controllers/statsController.js : trends and mock series *)
(* ===================================================================== *)

Module Trends.

Import StatsController.

Definition day_ms : Z := 24 * 60 * 60 * 1000.

(** The [switch (period)]: the number of days the window goes back. *)
Definition period_days (period : string) : Z :=
  if String.eqb period "7d" then 7
  else if String.eqb period "90d" then 90
  else if String.eqb period "1y" then 365
  else 30.

(** [Math.ceil(x / d)] for integers, [d] positive. *)
Definition ceil_div (x d : Z) : Z := - ((- x) / d).

(** [baseValue], [minVariation], [maxVariation] of a metric. *)
Record variation : Type := Variation { baseValue : Q; minVariation : Q; maxVariation : Q }.

Definition metric_variation (metric : option string) : variation :=
  match metric with
  | Some m =>
      if String.eqb m "sales" then Variation 1000 (-200) 300
      else if String.eqb m "visitors" then Variation 500 (-100) 150
      else if String.eqb m "conversion" then Variation 3 (- (1 # 2)) 1
      else if String.eqb m "customizations" then Variation 200 (-50) 80
      else Variation 100 (-20) 30
  | None => Variation 100 (-20) 30
  end.

Section Generate.

Context {R : Num.Rounding}.

(** [draw i] is [Math.floor(Math.random() * (maxVariation - minVariation + 1))]
    in the round [i]; [day_string start i] is the date part of the ISO
    string of [start] moved on by [i] days with [setDate]. *)
Variable draw : nat -> Z.
Variable day_string : Z -> Z -> string.

(** [x + y] *)
Definition add (x y : Num.num) : Num.num :=
  match x, y with
  | Num.NaN, _ | _, Num.NaN => Num.NaN
  | Num.Fin a, Num.Fin b => Num.Fin (Num.rnd (a + b))
  | Num.PosInf, Num.NegInf | Num.NegInf, Num.PosInf => Num.NaN
  | Num.PosInf, _ | _, Num.PosInf => Num.PosInf
  | Num.NegInf, _ | _, Num.NegInf => Num.NegInf
  end.

(** [x < 0] *)
Definition lt0 (x : Num.num) : bool :=
  match x with
  | Num.Fin q => Num.is_neg q
  | Num.NegInf => true
  | Num.PosInf | Num.NaN => false
  end.

(** One round of the loop: the new [currentValue]. *)
Definition next_value (v : variation) (days i : Z) (currentValue : Num.num) : Num.num :=
  let trendFactor := Num.div (Num.of_count i) (Num.of_count days) in
  let variation :=
    add (add (Num.of_count (draw (Z.to_nat i))) (Num.Fin (minVariation v)))
        (Num.mul (Num.Fin (maxVariation v)) trendFactor) in
  let currentValue := add currentValue variation in
  if lt0 currentValue then Num.Fin 0 else currentValue.

(** The loop from round [i] on, [n] rounds to go: the points pushed. *)
Fixpoint rounds (n : nat) (v : variation) (start days i : Z) (currentValue : Num.num)
    : list (string * Num.fixed2) :=
  match n with
  | O => []
  | S n' =>
      let currentValue := next_value v days i currentValue in
      (day_string start i, Num.toFixed2 currentValue)
        :: rounds n' v start days (i + 1) currentValue
  end.

Definition _generateTrendsData (metric : option string) (startDate endDate : Z)
    : list (string * Num.fixed2) :=
  let days := ceil_div (endDate - startDate) day_ms in
  let v := metric_variation metric in
  rounds (Z.to_nat days) v startDate days 0 (Num.Fin (baseValue v)).

Definition point_json (p : string * Num.fixed2) : value :=
  JObj [("date", JStr (fst p)); ("value", Num.json_of_fixed2 (snd p))].

(** [item => ({ date: item.date, value: item.amount })]; reading a property
    of [null] throws. *)
Definition sales_point (item : value) : option value :=
  match item with
  | JNull => None
  | JObj o =>
      Some (JObj (match get "date" o with Some d => [("date", d)] | None => [] end
                  ++ match get "amount" o with Some a => [("value", a)] | None => [] end))
  | _ => Some (JObj [])
  end.

Fixpoint sales_points (items : list value) : option (list value) :=
  match items with
  | [] => Some []
  | item :: rest =>
      match sales_point item, sales_points rest with
      | Some p, Some ps => Some (p :: ps)
      | _, _ => None
      end
  end.

Definition trends_ok (start stop : Z) (period : string) (metric : option string)
    (trendsData : list value) : response :=
  Response 200 (JObj ([("success", JBool true);
                       ("period", JObj [("start", JIso start); ("end", JIso stop);
                                        ("label", JStr period)])]
                      ++ match metric with Some m => [("metric", JStr m)] | None => [] end
                      ++ [("trendsData", JArr trendsData)])).

Definition trends_error : response := server_error "Erro ao buscar dados de tendências".

(** [mockData.dailySales] for the fixture's content: reading a property of
    [null] throws, a value that is no object has none. *)
Definition dailySales_of (content : value) : option prop :=
  match content with
  | JNull => None
  | JObj o => Some (get "dailySales" o)
  | _ => Some None
  end.

(** [GET /trends]; [period] is ['30d'] when the query string has none. *)
Definition getTrendsData (metric period_q : option string) (f : fixture) (now : Z)
    : response :=
  let period := match period_q with Some p => p | None => "30d" end in
  let endDate := now in
  let startDate := now - period_days period * day_ms in
  let generated := map point_json (_generateTrendsData metric startDate endDate) in
  match f with
  | NoFile => trends_ok startDate endDate period metric generated
  | Malformed => trends_error
  | Parsed mockData =>
      if match metric with Some m => String.eqb m "sales" | None => false end then
        match dailySales_of mockData with
        | None => trends_error
        | Some dailySales =>
            if truthy dailySales then
              match dailySales with
              | Some (JArr items) =>
                  match sales_points items with
                  | Some trendsData => trends_ok startDate endDate period metric trendsData
                  | None => trends_error
                  end
              | _ => trends_error
              end
            else trends_ok startDate endDate period metric generated
        end
      else trends_ok startDate endDate period metric generated
  end.

End Generate.

End Trends.

Module MockSeries.

Import Binary64.

(** [baseAmount] after the adjustment for the day of the week ([0] is
    Sunday): times 1.3 at weekends, times 0.7 on Mondays. *)
Definition adjusted (dayOfWeek : Z) (baseAmount : float) : float :=
  if (dayOfWeek =? 0) || (dayOfWeek =? 6) then (baseAmount * (of_int 13 / 10))%float
  else if dayOfWeek =? 1 then (baseAmount * (of_int 7 / 10))%float
  else baseAmount.

(** The [amount] of a day of [dailySales], for an integer [baseAmount]:
    [parseFloat(baseAmount.toFixed(2))]. *)
Definition amount (dayOfWeek baseAmount : Z) : float :=
  parseFloat_toFixed2 (adjusted dayOfWeek (of_int baseAmount)).

(** The hundredths the amount has when the arithmetic is exact. *)
Definition exact_cents (dayOfWeek baseAmount : Z) : Z :=
  if (dayOfWeek =? 0) || (dayOfWeek =? 6) then 130 * baseAmount
  else if dayOfWeek =? 1 then 70 * baseAmount
  else 100 * baseAmount.

(** The amount is the exact decimal: [toFixed] gives these hundredths, and
    so does the number parsed back. *)
Definition amount_exact (dayOfWeek baseAmount : Z) : bool :=
  match hundredths (adjusted dayOfWeek (of_int baseAmount)),
        hundredths (amount dayOfWeek baseAmount) with
  | Some n, Some m =>
      (n =? exact_cents dayOfWeek baseAmount) && (m =? exact_cents dayOfWeek baseAmount)
  | _, _ => false
  end.

(** The integers from [lo] on, [n] of them. *)
Definition from (lo : Z) (n : nat) : list Z := map (fun k => lo + Z.of_nat k) (seq 0 n).

(** The three kinds of day the adjustment tells apart: a day of the
    weekend, a Monday, any other day. *)
Definition kind (dayOfWeek : Z) : Z :=
  if (dayOfWeek =? 0) || (dayOfWeek =? 6) then 0
  else if dayOfWeek =? 1 then 1
  else 2.

(** [f] holds of every base amount from [lo] on, [n] of them, on each kind
    of day. *)
Definition all_amounts (lo : Z) (n : nat) (f : Z -> Z -> bool) : bool :=
  forallb (fun b => forallb (fun d => f d b) [0; 1; 2]) (from lo n).

(** One row of [popularCustomizations]. *)
Record customization : Type := Customization { c_type : string; c_value : string; c_count : Z }.

Definition customizationTypes : list (string * list string) :=
  [("Cor", ["Vermelho"; "Azul"; "Preto"; "Branco"; "Verde"]);
   ("Tamanho", ["P"; "M"; "G"; "GG"]);
   ("Material", ["Algodão"; "Poliéster"; "Couro"; "Sintético"]);
   ("Estampa", ["Lisa"; "Estampada"; "Listrada"; "Xadrez"])].

(** The two nested [forEach]: one row per type and value, in order, the
    row [i] with the count [draw i]. *)
Definition rows : list (string * string) :=
  flat_map (fun tv => map (fun v => (fst tv, v)) (snd tv)) customizationTypes.

Fixpoint with_counts (draw : nat -> Z) (i : nat) (l : list (string * string))
    : list customization :=
  match l with
  | [] => []
  | (t, v) :: rest => Customization t v (draw i) :: with_counts draw (S i) rest
  end.

Definition popularCustomizations (draw : nat -> Z) : list customization :=
  with_counts draw 0 rows.

(** [.sort((a, b) => b.count - a.count).slice(0, 10)] *)
Definition topCustomizations (draw : nat -> Z) : list customization :=
  firstn 10 (Sorting.sort_desc c_count (popularCustomizations draw)).

End MockSeries.

(* ===================================================================== *)
(** * backend/admin/controllers/productController.js : the other handlers *)
(* ===================================================================== *)

Module ProductCatalogue.

Import ProductController Aggregate.

Definition missing_fields : response :=
  Response 400 (JObj [("success", JBool false);
                      ("message", JStr "Campos obrigatórios não fornecidos")]).

Definition created (d : document) : response :=
  Response 201 (JObj [("success", JBool true);
                      ("message", JStr "Produto criado com sucesso");
                      ("product", JObj d)]).

(** [!name || !description || !price || !category] *)
Definition required_missing (body : list (string * value)) : bool :=
  negb (truthy (get "name" body)) || negb (truthy (get "description" body))
  || negb (truthy (get "price" body)) || negb (truthy (get "category" body)).

(** The [images] array: one path per uploaded file. *)
Definition uploaded (files : option (list string)) : list value :=
  match files with
  | Some fs => map (fun file => JStr (upload_path file)) fs
  | None => []
  end.

(** The [customizationOptions] of a new document.  Without options the
    handler passes an empty object, and the three arrays of the nested
    schema take their default; options that were given are cast by the
    nested schema. *)
Definition stored_options (s : store) (options : value) : option value :=
  match options with
  | JObj [] =>
      Some (JObj [("colors", JArr []); ("materials", JArr []); ("components", JArr [])])
  | _ => customization s options
  end.

Section Create.

Variable b : builtins.

(** [tags ? (Array.isArray(tags) ? tags : tags.split(',').map(...)) : []];
    a truthy value that is neither has no [split]. *)
Definition processedTags (body : list (string * value)) : option value :=
  if truthy (get "tags" body) then
    match get "tags" body with
    | Some (JArr items) => Some (JArr items)
    | Some (JStr s) => Some (JArr (map JStr (split_trim b s)))
    | _ => None
    end
  else Some (JArr []).

(** [parsedCustomizationOptions]; [JSON.parse] throws on a string that is
    not JSON. *)
Definition parsedCustomizationOptions (body : list (string * value)) : option value :=
  if truthy (get "customizationOptions" body) then
    match get "customizationOptions" body with
    | Some (JStr s) => json_parse b s
    | Some v => Some v
    | None => Some (JObj [])
    end
  else Some (JObj []).

(** [parseInt(stock) || 0]; [parseInt] of [undefined] is [NaN], and the
    built-in stands for [NaN] by [null]. *)
Definition stock_of_body (body : list (string * value)) : value :=
  match get "stock" body with
  | Some v => or_else (Some (parseInt b v)) (JNum 0)
  | None => JNum 0
  end.

(** [new Product({...})] after [save]: the thirteen fields the handler
    passes, [options] being the [customizationOptions] as the schema
    stores them, the defaults of the schema for the others, what the two
    [pre('save')] hooks set, and the version key. *)
Definition new_product (body : list (string * value)) (files : option (list string))
    (tags options : value) (id : string) (now : Z) : document :=
  [("_id", JStr id);
   ("name", or_else (get "name" body) JNull);
   ("description", or_else (get "description" body) JNull);
   ("price", match get "price" body with Some v => parseFloat b v | None => JNull end);
   ("category", or_else (get "category" body) JNull);
   ("subcategory", or_else (get "subcategory" body) (JStr ""));
   ("images", JArr (uploaded files));
   ("model3dUrl", or_else (get "model3dUrl" body) JNull);
   ("has3dModel", JBool (is_true (get "has3dModel" body)));
   ("customizationOptions", options);
   ("stock", stock_of_body body);
   ("isActive", JBool (is_true (get "isActive" body)));
   ("isFeatured", JBool (is_true (get "isFeatured" body)));
   ("tags", tags);
   ("ratings", JArr []);
   ("averageRating", JNum 0);
   ("createdAt", JIso now);
   ("updatedAt", JIso now);
   ("__v", JNum 0)].

(** [POST /api/admin/products].  [id] is the hex string of the ObjectId
    generated for the new document and [now] the time of the request. *)
Definition createProduct (body : list (string * value)) (files : option (list string))
    (id : string) (now : Z) (s : store) : response * store :=
  if required_missing body then (missing_fields, s)
  else
    match processedTags body, parsedCustomizationOptions body with
    | Some tags, Some parsed =>
        match stored_options s parsed with
        | Some options =>
            let d := new_product body files tags options id now in
            if reachable s && validates s d
            then (created d, with_products s (products s ++ [(id, d)]))
            else (server_error "Erro ao criar produto", s)
        | None => (server_error "Erro ao criar produto", s)
        end
    | _, _ => (server_error "Erro ao criar produto", s)
    end.

End Create.

(** [GET /api/admin/products/:id] *)
Definition getProductById (id : string) (s : store) : response :=
  if negb (reachable s) then server_error "Erro ao buscar produto"
  else
    match objectId s id with
    | None => server_error "Erro ao buscar produto"
    | Some oid =>
        match findById oid (products s) with
        | None => not_found
        | Some d => Response 200 (JObj [("success", JBool true); ("product", JObj d)])
        end
    end.

(** [Product.findByIdAndDelete(id)] *)
Fixpoint remove (id : string) (l : list (string * document)) : list (string * document) :=
  match l with
  | [] => []
  | (i, d) :: rest => if String.eqb i id then rest else (i, d) :: remove id rest
  end.

Definition deleted : response :=
  Response 200 (JObj [("success", JBool true);
                      ("message", JStr "Produto excluído com sucesso")]).

(** [DELETE /api/admin/products/:id] *)
Definition deleteProduct (id : string) (s : store) : response * store :=
  if negb (reachable s) then (server_error "Erro ao excluir produto", s)
  else
    match objectId s id with
    | None => (server_error "Erro ao excluir produto", s)
    | Some oid =>
        match findById oid (products s) with
        | None => (not_found, s)
        | Some _ => (deleted, with_products s (remove oid (products s)))
        end
    end.

(** ** getAllProducts *)


Section Listing.

(** [regexp term]: [new RegExp(term, 'i')] as a test on a document, true
    when one of [name], [description], [tags] matches; [None] when the term
    is no regular expression and the constructor throws.
    [sorted_by field asc l]: the documents [l] in the order of
    [.sort({ [field]: asc ? 1 : -1 })]. *)
Variable regexp : string -> option (document -> bool).
Variable sorted_by : string -> bool -> list (string * document) -> list (string * document).








End Listing.

(** ** getProductStats *)

(** [Product.countDocuments({ k: true })] *)
Definition count_flag (k : string) (s : store) : nat :=
  List.length (filter (fun p => match get k (snd p) with
                                | Some (JBool true) => true
                                | _ => false
                                end) (products s)).

Definition category_of (d : document) : option string :=
  match get "category" d with
  | Some (JStr c) => Some c
  | _ => None
  end.

(** [$group] by category with a count, [$sort] by decreasing count. *)
Definition categoryCounts (s : store) : list (group (option string) unit) :=
  Sorting.sort_desc views
    (group_by LogQueries.type_eqb (map (fun p => (category_of (snd p), tt)) (products s))).

(** [{ $sum: '$stock' }] adds the stocks that are numbers. *)
Definition totalStock (s : store) : Q :=
  fold_left (fun sum p => match get "stock" (snd p) with
                          | Some (JNum q) => (sum + q)%Q
                          | _ => sum
                          end) (products s) 0%Q.

Definition getProductStats (s : store) : response :=
  if negb (reachable s) then server_error "Erro ao buscar estatísticas de produtos"
  else
    Response 200 (JObj [("success", JBool true);
      ("stats", JObj [
         ("totalProducts", LogQueries.count_json (List.length (products s)));
         ("activeProducts", LogQueries.count_json (count_flag "isActive" s));
         ("featuredProducts", LogQueries.count_json (count_flag "isFeatured" s));
         ("products3D", LogQueries.count_json (count_flag "has3dModel" s));
         ("categoryCounts", JArr (map LogQueries.type_count_json (categoryCounts s)));
         ("totalStock", JNum (totalStock s))])]).

End ProductCatalogue.

(* ===================================================================== *)
(** * backend/models/productModel.js : the average rating *)
(* ===================================================================== *)

Module ProductModel.

Local Open Scope Q_scope.

(** The value of [parseFloat(x.toFixed(1))], in tenths. *)
Inductive fixed1 : Type := Tenths (n : Z) | NotFinite.

Definition toFixed1 (x : Num.num) : fixed1 :=
  match x with
  | Num.Fin q => if Num.is_neg q then Tenths (- Qfloor (- q * 10 + (1 # 2)))
                 else Tenths (Qfloor (q * 10 + (1 # 2)))
  | _ => NotFinite
  end.

Section Rating.

Context {R : Num.Rounding}.

(** [this.ratings.reduce((total, rating) => total + rating.rating, 0)] for
    the list of the [rating] numbers. *)
Definition rating_sum (ratings : list Q) : Q :=
  fold_left (fun total rating => Num.rnd (total + rating)) ratings 0.

(** The second [pre('save')] hook: the new [averageRating]. *)
Definition averageRating (ratings : list Q) : fixed1 :=
  match ratings with
  | [] => Tenths 0
  | _ :: _ =>
      toFixed1 (Num.div (Num.Fin (rating_sum ratings))
                        (Num.of_count (Z.of_nat (List.length ratings))))
  end.

End Rating.

End ProductModel.

(* ===================================================================== *)
(** * backend/admin/controllers/userController.js : accounts *)
(* ===================================================================== *)

Module UserAccounts.

Import UserController.

(** The document of an ObjectId. *)
Fixpoint findById (id : string) (l : list user) : option user :=
  match l with
  | [] => None
  | u :: rest => if String.eqb (u_id u) id then Some u else findById id rest
  end.

(** The document [id] replaced by [u]. *)
Fixpoint put (id : string) (u : user) (l : list user) : list user :=
  match l with
  | [] => []
  | x :: rest => if String.eqb (u_id x) id then u :: rest else x :: put id u rest
  end.

(** The validators of the schema: [name] and [email] required, [password]
    required with a [length] of at least six, [role] one of the enum. *)
Definition valid_role (r : string) : bool :=
  String.eqb r "user" || String.eqb r "admin" || String.eqb r "manager".

Definition valid_password (p : string) : bool := (6 <=? utf16_length p)%nat.

Definition valid_profile (u : user) : bool :=
  negb (str_empty (name u)) && negb (str_empty (email u)) && valid_role (role u).

(** The unique index on [email]: no other document has the email. *)
Definition email_free (id e : string) (l : list user) : bool :=
  forallb (fun x => String.eqb (u_id x) id || negb (String.eqb (email x) e)) l.

(** The body of [POST /register]; [rg_role] is [None] when the body has no
    role. *)
Record registration : Type := Registration {
  rg_name : string;
  rg_email : string;
  rg_password : string;
  rg_role : option string
}.

Definition email_in_use : response :=
  Response 400 (JObj [("success", JBool false); ("message", JStr "Este email já está em uso")]).

Definition registered (u : user) : response :=
  Response 201 (JObj [("success", JBool true);
                      ("message", JStr "Usuário registrado com sucesso");
                      ("user", toSafeObject u)]).

Definition user_not_found : response :=
  Response 404 (JObj [("success", JBool false); ("message", JStr "Usuário não encontrado")]).

Definition wrong_current_password : response :=
  Response 401 (JObj [("success", JBool false); ("message", JStr "Senha atual incorreta")]).

Definition password_changed : response :=
  Response 200 (JObj [("success", JBool true); ("message", JStr "Senha alterada com sucesso")]).

Definition user_updated (u : user) : response :=
  Response 200 (JObj [("success", JBool true);
                      ("message", JStr "Usuário atualizado com sucesso");
                      ("user", toSafeObject u)]).

Section Accounts.

(** [bcrypt.compare(candidate, hash)], and [bcrypt.hash(password, salt)]
    for the salt [bcrypt.genSalt(10)] gave. *)
Variable compare : string -> string -> bool.
Variable hash : string -> string -> string.

(** [role || 'user'] *)
Definition role_or_user (r : option string) : string :=
  match r with
  | Some r => if str_empty r then "user" else r
  | None => "user"
  end.

(** [new User({...})] as [save] stores it in the collection [s]: the
    email goes through its setters, [isActive] and [createdAt] take their
    defaults at the time [now] of the request, and the [pre('save')] hook
    replaces the password by its hash and sets [updatedAt] to the time
    [saved] at which it runs. *)
Definition new_user (s : store) (b : registration) (id salt : string) (now saved : Z)
    : user :=
  {| u_id := id; name := rg_name b; email := normalise s (rg_email b);
     password := hash salt (rg_password b);
     role := role_or_user (rg_role b); isActive := true;
     createdAt := now; updatedAt := saved |}.

(** [POST /register]; [id] is the hex string of the ObjectId of the new
    document. *)
Definition register (b : registration) (id salt : string) (now saved : Z) (s : store)
    : response * store :=
  if negb (reachable s) then (server_error "Erro ao registrar usuário", s)
  else
    match findOne (normalise s (rg_email b)) (users s) with
    | Some _ => (email_in_use, s)
    | None =>
        let u := new_user s b id salt now saved in
        if valid_profile u && valid_password (rg_password b)
        then (registered u, with_users s (users s ++ [u]))
        else (server_error "Erro ao registrar usuário", s)
    end.

(** [GET /profile] for the [id] of the token's payload. *)
Definition getProfile (id : string) (s : store) : response :=
  if negb (reachable s) then server_error "Erro ao buscar perfil"
  else
    match objectId s id with
    | None => server_error "Erro ao buscar perfil"
    | Some oid =>
        match findById oid (users s) with
        | None => user_not_found
        | Some u => Response 200 (JObj [("success", JBool true); ("user", toSafeObject u)])
        end
    end.

(** [GET /] *)
Definition getAllUsers (s : store) : response :=
  if negb (reachable s) then server_error "Erro ao listar usuários"
  else
    Response 200 (JObj [("success", JBool true);
                        ("count", JNum (inject_Z (Z.of_nat (List.length (users s)))));
                        ("users", JArr (map toSafeObject (users s)))]).

(** The body of [PUT /:id]: each field is [None] when the body does not
    have it. *)
Record changes : Type := Changes {
  ch_name : option string;
  ch_email : option string;
  ch_role : option string;
  ch_isActive : option bool
}.

(** [if (x) user.x = x]: an empty string is not written; [setter] is what
    the schema does to a value that is. *)
Definition written (setter : string -> string) (x : option string) (old : string) : string :=
  match x with
  | Some v => if str_empty v then old else setter v
  | None => old
  end.

(** The password is not assigned, so the hook leaves the document and its
    [updatedAt] alone. *)
Definition apply_changes (s : store) (c : changes) (u : user) : user :=
  {| u_id := u_id u;
     name := written (fun v => v) (ch_name c) (name u);
     email := written (normalise s) (ch_email c) (email u);
     password := password u;
     role := written (fun v => v) (ch_role c) (role u);
     isActive := match ch_isActive c with Some a => a | None => isActive u end;
     createdAt := createdAt u;
     updatedAt := updatedAt u |}.

(** What [save] checks of a changed document: the required paths, the
    role when it was changed, and the unique index when the email was. *)
Definition valid_update (u u' : user) (l : list user) : bool :=
  negb (str_empty (name u')) && negb (str_empty (email u'))
  && (String.eqb (role u') (role u) || valid_role (role u'))
  && (String.eqb (email u') (email u) || email_free (u_id u) (email u') l).

(** [PUT /:id]; [User.findById] throws on a parameter that is no ObjectId,
    and [save] fails on a role outside the enum and on an email another
    account has. *)
Definition updateUser (id : string) (c : changes) (s : store) : response * store :=
  if negb (reachable s) then (server_error "Erro ao atualizar usuário", s)
  else
    match objectId s id with
    | None => (server_error "Erro ao atualizar usuário", s)
    | Some oid =>
        match findById oid (users s) with
        | None => (user_not_found, s)
        | Some u =>
            let u' := apply_changes s c u in
            if valid_update u u' (users s)
            then (user_updated u', with_users s (put oid u' (users s)))
            else (server_error "Erro ao atualizar usuário", s)
        end
    end.

(** The document after the hook hashed a new password, at the time
    [saved]. *)
Definition rehashed (u : user) (newPassword salt : string) (saved : Z) : user :=
  {| u_id := u_id u; name := name u; email := email u;
     password := hash salt newPassword; role := role u; isActive := isActive u;
     createdAt := createdAt u; updatedAt := saved |}.

(** [POST /change-password] for the [id] of the token's payload.  An
    assignment that does not change the stored string modifies nothing;
    otherwise [save] validates the new password and the hook hashes it. *)
Definition changePassword (id : string) (currentPassword : option string)
    (newPassword salt : string) (saved : Z) (s : store) : response * store :=
  if negb (reachable s) then (server_error "Erro ao alterar senha", s)
  else
    match objectId s id with
    | None => (server_error "Erro ao alterar senha", s)
    | Some oid =>
        match findById oid (users s) with
        | None => (user_not_found, s)
        | Some u =>
            match comparePassword compare u currentPassword with
            | None => (server_error "Erro ao alterar senha", s)
            | Some false => (wrong_current_password, s)
            | Some true =>
                if String.eqb newPassword (password u) then (password_changed, s)
                else if valid_password newPassword
                then (password_changed,
                      with_users s (put oid (rehashed u newPassword salt saved) (users s)))
                else (server_error "Erro ao alterar senha", s)
            end
        end
    end.

End Accounts.

End UserAccounts.

(* ===================================================================== *)
(** * Sample requests and stores *)
(* ===================================================================== *)

Module Samples.

(** [String(n)] for the integers; the samples hold no other number where
    a string is expected. *)
Definition integer_text (q : Q) : string :=
  NilZero.string_of_int (Z.to_int (Qnum q / Zpos (Qden q))).

(** An empty event collection that accepts every document. *)
Definition empty_store : EventModel.store :=
  {| EventModel.events := []; EventModel.accepts := fun _ => true;
     EventModel.reachable := true; EventModel.clock := 0;
     EventModel.number_text := integer_text |}.

(** An empty event collection that cannot be reached. *)
Definition unreachable_store : EventModel.store :=
  {| EventModel.events := []; EventModel.accepts := fun _ => false;
     EventModel.reachable := false; EventModel.clock := 0;
     EventModel.number_text := integer_text |}.

(** A body whose three required fields are all present, the event type
    being the empty string. *)
Definition empty_type_request : LogController.request :=
  {| LogController.eventType := Some (JStr "");
     LogController.userId := Some (JStr "u1");
     LogController.sessionId := Some (JStr "s1");
     LogController.eventData := Some (JObj [("productId", JStr "p1")]);
     LogController.pageUrl := None; LogController.referrer := None;
     LogController.userAgentHeader := None; LogController.ip := None |}.

(** The ingestion example of the specification. *)
Definition purchase_request : LogController.request :=
  {| LogController.eventType := Some (JStr "purchase");
     LogController.userId := Some (JStr "u1");
     LogController.sessionId := Some (JStr "s1");
     LogController.eventData := Some (JObj [("productId", JStr "p1"); ("amount", JNum 100)]);
     LogController.pageUrl := None; LogController.referrer := None;
     LogController.userAgentHeader := None; LogController.ip := None |}.

(** The document [new Event] makes of it in the empty collection. *)
Definition purchase_event : EventModel.event :=
  {| EventModel.ev_id := 0; EventModel.ev_eventType := Some (JStr "purchase");
     EventModel.ev_userId := JStr "u1"; EventModel.ev_isAuthenticated := true;
     EventModel.ev_sessionId := Some (JStr "s1");
     EventModel.ev_eventData := Some (JObj [("productId", JStr "p1"); ("amount", JNum 100)]);
     EventModel.ev_userAgent := None; EventModel.ev_ipAddress := None;
     EventModel.ev_pageUrl := JStr ""; EventModel.ev_referrer := JStr "";
     EventModel.ev_timestamp := 0 |}.

(** A request from a client that sends its user id as a number, and event
    data that hold nothing. *)
Definition numeric_user_request : LogController.request :=
  {| LogController.eventType := Some (JStr "purchase");
     LogController.userId := Some (JNum 7);
     LogController.sessionId := Some (JStr "s1");
     LogController.eventData := Some (JObj [("options", JObj [])]);
     LogController.pageUrl := None; LogController.referrer := None;
     LogController.userAgentHeader := None; LogController.ip := None |}.

(** A client with one page view in its queue, and an error that is logged
    while the network is down. *)
Definition page_view : LoggerClient.entry :=
  {| LoggerClient.en_eventType := "page_view"; LoggerClient.en_sessionId := "sess_1";
     LoggerClient.en_userId := None; LoggerClient.en_timestamp := 1;
     LoggerClient.en_severity := "info";
     LoggerClient.en_data := JObj [("pageTitle", JStr "Home")];
     LoggerClient.en_url := "/"; LoggerClient.en_userAgent := "agent" |}.

Definition client_with_page_view : LoggerClient.world :=
  LoggerClient.with_queue (LoggerClient.create "/api/logs" "sess_1" false) [page_view].

Definition later : LoggerClient.ambient :=
  {| LoggerClient.at_time := 2; LoggerClient.href := "/"; LoggerClient.agent := "agent" |}.

Definition log_error : LoggerClient.action :=
  LoggerClient.Log "error" (JObj [("message", JStr "Falha")]) "error" later.

Definition log_cart : LoggerClient.action :=
  LoggerClient.Log "add_to_cart" (JObj [("productId", JStr "p1")]) "info" later.

Definition offline : LoggerClient.fetched := LoggerClient.NetworkError "offline".

(** Two product views and one customisation at times 1, 2 and 3. *)
Definition sample_event (n : nat) (t : string) (ts : Z) : EventModel.event :=
  {| EventModel.ev_id := n; EventModel.ev_eventType := Some (JStr t);
     EventModel.ev_userId := JStr "anonymous"; EventModel.ev_isAuthenticated := false;
     EventModel.ev_sessionId := Some (JStr "s1");
     EventModel.ev_eventData := Some (JObj [("productId", JStr "p1")]);
     EventModel.ev_userAgent := None; EventModel.ev_ipAddress := None;
     EventModel.ev_pageUrl := JStr ""; EventModel.ev_referrer := JStr "";
     EventModel.ev_timestamp := ts |}.

Definition funnel_store : EventModel.store :=
  {| EventModel.events := [sample_event 0 "product_view" 1;
                           sample_event 1 "product_view" 2;
                           sample_event 2 "product_customize" 3];
     EventModel.accepts := fun _ => true;
     EventModel.reachable := true; EventModel.clock := 10;
     EventModel.number_text := integer_text |}.

(** A dashboard fixture, the aggregates and the draws of a generated
    dashboard. *)
Definition dashboard_fixture : value :=
  JObj [("dailySales", JArr []); ("salesByCategory", JArr []); ("deviceUsage", JArr []);
        ("popularCustomizations", JArr []); ("metrics", JObj [])].

Definition no_aggregates : StatsController.aggregates :=
  {| StatsController.topProducts := []; StatsController.eventCounts := [] |}.

Definition smallest_draws : StatsController.generated :=
  {| StatsController.dailySales := JArr []; StatsController.dailyVisitors := JArr [];
     StatsController.salesByCategory := JArr [];
     StatsController.popularCustomizations := JArr [];
     StatsController.desktop := 0; StatsController.mobile := 0;
     StatsController.tablet := 0; StatsController.metrics := JObj [] |}.

(** The overview for the default window, with the fixture file in place and
    without it, computed without rounding error. *)
Definition from_fixture : response :=
  fst (StatsController.getOverviewStats (R := Num.exact) Absent Absent
         (StatsController.Parsed dashboard_fixture) funnel_store).

Definition from_store : response :=
  fst (StatsController.getOverviewStats (R := Num.exact) Absent Absent
         StatsController.NoFile funnel_store).

(** The ObjectIds of the samples: a string of twenty-four hex digits is
    one, and its hex string has the letters in lower case. *)
Definition is_hex (c : ascii) : bool :=
  let n := nat_of_ascii c in
  ((48 <=? n) && (n <=? 57) || (65 <=? n) && (n <=? 70) || (97 <=? n) && (n <=? 102))%nat.

Fixpoint all_hex (s : string) : bool :=
  match s with
  | EmptyString => true
  | String c rest => is_hex c && all_hex rest
  end.

Definition hex24 (i : string) : option string :=
  if (String.length i =? 24)%nat && all_hex i then Some (lowercase i) else None.

(** A product with one image, and three updates of it: one that uploads
    nothing, one that uploads two files and keeps the old image, one that
    uploads the same two files without keeping it. *)
Definition plain_builtins : ProductController.builtins :=
  {| ProductController.json_parse := fun _ => None;
     ProductController.parseFloat := fun v => v;
     ProductController.parseInt := fun v => v;
     ProductController.split_trim := fun s => [s] |}.

Definition shoe_id : string := "64f1a2b3c4d5e6f708192a3b".

Definition shoe : ProductController.document :=
  [("_id", JStr shoe_id); ("name", JStr "Tenis");
   ("description", JStr "Tenis de corrida"); ("category", JStr "Calcados");
   ("images", JArr [JStr "/uploads/products/old.png"]);
   ("tags", JArr [JStr "corrida"; JStr "leve"]);
   ("createdAt", JIso 1)].

(** The first tag is the one dotted key the sample schema knows; the
    samples give no customisation options. *)
Definition first_tag (deep : list (string * value)) (old : prop) : option value :=
  match deep, old with
  | [(_, v)], Some (JArr (_ :: rest)) => Some (JArr (v :: rest))
  | [(_, v)], _ => Some (JArr [v])
  | _, _ => None
  end.

Definition catalogue_of (l : list (string * ProductController.document))
    : ProductController.store :=
  {| ProductController.products := l;
     ProductController.reachable := true;
     ProductController.validates := fun _ => true;
     ProductController.objectId := hex24;
     ProductController.in_schema := String.eqb "tags.0";
     ProductController.write_inside := first_tag;
     ProductController.customization := fun _ => None |}.

Definition catalogue : ProductController.store := catalogue_of [(shoe_id, shoe)].

Definition rename_only : ProductController.request :=
  {| ProductController.id := shoe_id; ProductController.files := Some [];
     ProductController.updateData := [("name", JStr "Tenis Esportivo")] |}.

Definition two_uploads_kept : ProductController.request :=
  {| ProductController.id := shoe_id;
     ProductController.files := Some ["product-1.png"; "product-2.png"];
     ProductController.updateData := [("keepImages", JStr "true")] |}.

Definition two_uploads : ProductController.request :=
  {| ProductController.id := shoe_id;
     ProductController.files := Some ["product-1.png"; "product-2.png"];
     ProductController.updateData := [] |}.

(** An update that writes inside [tags] and nothing else. *)
Definition retag : ProductController.request :=
  {| ProductController.id := shoe_id; ProductController.files := None;
     ProductController.updateData := [("tags.0", JStr "trilha")] |}.

(** The email setters of the samples: the blanks at both ends go, and the
    letters [A] to [Z] become lower case. *)
Fixpoint drop_blanks (s : string) : string :=
  match s with
  | String " " rest => drop_blanks rest
  | _ => s
  end.

Fixpoint drop_last_blanks (s : string) : string :=
  match s with
  | EmptyString => EmptyString
  | String c rest =>
      match c, drop_last_blanks rest with
      | " "%char, EmptyString => EmptyString
      | _, kept => String c kept
      end
  end.

Definition trim_lower (s : string) : string :=
  lowercase (drop_last_blanks (drop_blanks s)).

(** One active administrator; a wrong password for her, a login for an
    email nobody has, and two logins that send no password. *)
Definition ana_id : string := "650000000000000000000001".
Definition bia_id : string := "650000000000000000000002".

Definition ana : UserController.user :=
  {| UserController.u_id := ana_id; UserController.name := "Ana";
     UserController.email := "ana@exemplo.com"; UserController.password := "hash-of-senha123";
     UserController.role := "admin"; UserController.isActive := true;
     UserController.createdAt := 1; UserController.updatedAt := 1 |}.

Definition accounts : UserController.store :=
  {| UserController.users := [ana]; UserController.reachable := true;
     UserController.normalise := trim_lower; UserController.objectId := hex24 |}.

Definition toy_compare (candidate hash : string) : bool :=
  String.eqb ("hash-of-" ++ candidate) hash.

Definition toy_sign (u : UserController.user) : string := "token-" ++ UserController.u_id u.





(** A verifier that knows two tokens, an administrator's and a customer's. *)
Definition sample_verify (token : string) : option Auth.claims :=
  if String.eqb token "admin-token" then Some {| Auth.role := Some "admin" |}
  else if String.eqb token "user-token" then Some {| Auth.role := Some "user" |}
  else None.

Definition admin_header : option string := Some "Bearer admin-token".

(** The product of an event, for events whose [productId] is a string. *)
Definition sample_productId (e : EventModel.event) : option string :=
  match EventModel.ev_eventData e with
  | Some d => match field "productId" d with Some (JStr p) => Some p | _ => None end
  | None => None
  end.

Definition sample_key_json (k : option string) : value :=
  match k with Some p => JStr p | None => JNull end.

(** The body of a request that creates a product, with the ObjectId it
    is given. *)
Definition boot_body : list (string * value) :=
  [("name", JStr "Bota"); ("description", JStr "Bota de couro");
   ("price", JStr "199.90"); ("category", JStr "Calcados")].

Definition boot_id : string := "64f1a2b3c4d5e6f708192a3c".

(** Six products, created one after the other. *)
Definition item_id (n : nat) : string :=
  "64f1a2b3c4d5e6f70819300" ++ NilZero.string_of_uint (Nat.to_uint n).

Definition item (n : nat) (name category : string) : string * ProductController.document :=
  (item_id n,
   [("_id", JStr (item_id n)); ("name", JStr name); ("description", JStr "");
    ("category", JStr category); ("stock", JNum 1); ("isActive", JBool true);
    ("tags", JArr []); ("createdAt", JIso (Z.of_nat n))]).

Definition shelf : ProductController.store :=
  catalogue_of [item 0 "Sapato" "Calcados"; item 1 "Bota" "Calcados";
                item 2 "Sandalia" "Calcados"; item 3 "Chinelo" "Calcados";
                item 4 "Camiseta" "Roupas"; item 5 "Jaqueta" "Roupas"].












(** A hash to go with [toy_compare], a registration and a deactivation. *)
Definition toy_hash (salt password : string) : string := "hash-of-" ++ password.

Definition bia : UserAccounts.registration :=
  {| UserAccounts.rg_name := "Bia"; UserAccounts.rg_email := " Bia@Exemplo.com";
     UserAccounts.rg_password := "segredo1"; UserAccounts.rg_role := None |}.

(** The same registration with a password of five characters, one of
    them of two bytes. *)
Definition bia_short : UserAccounts.registration :=
  {| UserAccounts.rg_name := "Bia"; UserAccounts.rg_email := "bia@exemplo.com";
     UserAccounts.rg_password := "senhã"; UserAccounts.rg_role := None |}.

Definition deactivate : UserAccounts.changes :=
  {| UserAccounts.ch_name := None; UserAccounts.ch_email := None;
     UserAccounts.ch_role := None; UserAccounts.ch_isActive := Some false |}.

End Samples.

(* ===================================================================== *)
(** * Properties *)
(* ===================================================================== *)

(** ** Objects used as maps *)

Lemma lookup_set_same {A : Type} (k : string) (v : A) (o : list (string * A)) :
  lookup k (set k v o) = Some v.
Proof.
  induction o as [| [k' v'] o IH]; simpl.
  - now rewrite String.eqb_refl.
  - destruct (String.eqb k k') eqn:E; simpl.
    + now rewrite String.eqb_refl.
    + now rewrite E.
Qed.

Lemma lookup_set_other {A : Type} (k k' : string) (v : A) (o : list (string * A)) :
  String.eqb k k' = false ->
  lookup k (set k' v o) = lookup k o.
Proof.
  intros Hne. induction o as [| [k0 v0] o IH]; simpl.
  - now rewrite Hne.
  - destruct (String.eqb k' k0) eqn:E; simpl.
    + apply String.eqb_eq in E. subst k0. now rewrite Hne.
    + destruct (String.eqb k k0); [reflexivity | exact IH].
Qed.

Lemma get_set_same (k : string) (v : value) (o : list (string * value)) :
  get k (set k v o) = Some v.
Proof. apply lookup_set_same. Qed.

Lemma get_set_other (k k' : string) (v : value) (o : list (string * value)) :
  String.eqb k k' = false -> get k (set k' v o) = get k o.
Proof. apply lookup_set_other. Qed.

(** ** Ingestion: [POST /api/logs/event] *)

Section Ingestion.

Import EventModel LogController Samples.

Lemma truthy_not_missing (p : prop) : truthy p = true -> missing p = false.
Proof. destruct p; [reflexivity | discriminate]. Qed.

Lemma missing_incomplete (r : request) : any_missing r = true -> incomplete r = true.
Proof.
  unfold any_missing, incomplete. intros H.
  destruct (eventType r), (sessionId r), (eventData r); simpl in *;
    try discriminate; rewrite ?orb_true_r; reflexivity.
Qed.

Lemma or_else_truthy (p : prop) (d : value) : truthy p = true -> Some (or_else p d) = p.
Proof. destruct p as [v |]; simpl; [intros -> | discriminate]. reflexivity. Qed.

Lemma or_else_falsy (p : prop) (d : value) : truthy p = false -> or_else p d = d.
Proof. destruct p as [v |]; simpl; [intros -> |]; reflexivity. Qed.

(** What [new Event] makes of the request, field by field. *)
Lemma new_event_fields (r : request) (s : store) (e : event) :
  new_event r s = Some e ->
  cast_path s (eventType r) = Some (ev_eventType e) /\
  cast_String s (or_else (userId r) (JStr "anonymous")) = Some (ev_userId e) /\
  cast_path s (sessionId r) = Some (ev_sessionId e) /\
  ev_isAuthenticated e = truthy (userId r) /\
  ev_eventData e = eventData r /\
  ev_id e = List.length (events s) /\
  ev_timestamp e = clock s.
Proof.
  unfold new_event.
  destruct (cast_path s (eventType r)) as [[type |] |]; try discriminate.
  destruct (cast_String s (or_else (userId r) (JStr "anonymous"))) as [user |];
    try discriminate.
  destruct (cast_path s (sessionId r)) as [[session |] |]; try discriminate.
  destruct (cast_path s (userAgentHeader r)) as [agent |]; try discriminate.
  destruct (cast_path s (ip r)) as [address |]; try discriminate.
  destruct (cast_String s (or_else (pageUrl r) (JStr ""))) as [page |]; try discriminate.
  destruct (cast_String s (or_else (referrer r) (JStr ""))) as [from |]; try discriminate.
  destruct (required_String type && required_String user && required_String session);
    [| discriminate].
  intros H. injection H as <-. repeat split.
Qed.

(** A truthy string is cast to itself and passes [required]. *)
Lemma textual_cast (s : store) (p : prop) :
  textual p = true -> truthy p = true ->
  exists v, p = Some v /\ cast_String s v = Some v /\ required_String v = true.
Proof.
  destruct p as [[| | | x | | |] |]; try discriminate; intros _ H; eexists;
    (split; [reflexivity | split; [reflexivity |]]).
  - exact H.
  - reflexivity.
Qed.

Lemma textual_or_else (s : store) (p : prop) (d : string) :
  textual p = true ->
  cast_String s (or_else p (JStr d)) = Some (or_else p (JStr d)) /\
  (str_empty d = false -> required_String (or_else p (JStr d)) = true).
Proof.
  destruct p as [[| | | x | | |] |]; try discriminate; intros _; cbn.
  - destruct (str_empty x) eqn:E; cbn; (split; [reflexivity |]).
    + intros ->. reflexivity.
    + intros _. now rewrite E.
  - split; reflexivity.
  - split; [reflexivity |]. intros ->. reflexivity.
Qed.

Lemma textual_path (s : store) (p : prop) : textual p = true -> cast_path s p = Some p.
Proof. destruct p as [[| | | x | | |] |]; try discriminate; reflexivity. Qed.

(** A request made of strings is always cast. *)
Lemma new_event_of_strings (r : request) (s : store) :
  incomplete r = false -> all_textual r = true -> new_event r s <> None.
Proof.
  unfold incomplete, all_textual. intros Hi Ht.
  apply orb_false_iff in Hi. destruct Hi as [Hi _].
  apply orb_false_iff in Hi. destruct Hi as [H1 H2].
  apply negb_false_iff in H1, H2.
  repeat (apply andb_true_iff in Ht; destruct Ht as [Ht ?]).
  destruct (textual_cast s (eventType r)) as (type & Et & Ct & Rt); [assumption .. |].
  destruct (textual_cast s (sessionId r)) as (session & Es & Cs & Rs); [assumption .. |].
  destruct (textual_or_else s (userId r) "anonymous") as [Cu Ru]; [assumption |].
  destruct (textual_or_else s (pageUrl r) "") as [Cp _]; [assumption |].
  destruct (textual_or_else s (referrer r) "") as [Cr _]; [assumption |].
  unfold new_event.
  rewrite Et, Es, Cu, Cp, Cr. cbn [cast_path option_map]. rewrite Ct, Cs.
  rewrite !textual_path by assumption. cbn [option_map].
  rewrite Rt, Rs, (Ru eq_refl). discriminate.
Qed.

(** C1, as stated, fails: no required field of [empty_type_request] is
    missing, yet the answer is 400 and nothing is persisted.  Nor is a
    complete request always answered 201: when the store rejects the save,
    the answer is 500 and nothing is persisted either. *)
Lemma logEvent_present_but_empty_is_rejected :
  (any_missing empty_type_request = false /\
   status (fst (logEvent empty_type_request empty_store)) = 400%nat /\
   events (snd (logEvent empty_type_request empty_store)) = []) /\
  (any_missing purchase_request = false /\
   status (fst (logEvent purchase_request unreachable_store)) = 500%nat /\
   events (snd (logEvent purchase_request unreachable_store)) = []).
Proof. repeat split. Qed.

(** The stored [userId] is not always the request's either: the schema
    declares the path a [String], so the number 7 is stored as its text;
    and an [eventData] that is an empty object is not stored at all. *)
Lemma logEvent_stores_what_the_schema_casts :
  userId numeric_user_request = Some (JNum 7) /\
  eventData numeric_user_request = Some (JObj [("options", JObj [])]) /\
  status (fst (logEvent numeric_user_request empty_store)) = 201%nat /\
  map ev_userId (events (snd (logEvent numeric_user_request empty_store))) = [JStr "7"] /\
  map ev_eventData (events (snd (logEvent numeric_user_request empty_store))) = [None].
Proof. repeat split. Qed.

(** C1, amended.  The handler tests the three required fields for
    truthiness: when one of them is falsy (absent, [null], [false], [0] or
    the empty string, so in particular when one is missing) the answer is
    400 with [success: false] and the collection is unchanged.  When all
    three are truthy, the schema casts the fields, which it always can when
    they are strings, and the store accepts the document, exactly one event
    is appended and the answer is 201.  Its [userId] is what the schema's
    [String] type makes of the request's when that is truthy (the request's
    own when it is a string) and ["anonymous"] otherwise; its
    [isAuthenticated] is the truthiness of the request's [userId]; its
    [eventType] and [sessionId] are those of the request as strings, and
    its [eventData] is the request's without its empty objects.  When a
    field cannot be cast or the store rejects the document, the answer is
    500 and the collection is unchanged. *)
Theorem logEvent_validates_then_persists_one (r : request) (s : store) :
  (truthy (eventType r) = false \/ truthy (sessionId r) = false
     \/ truthy (eventData r) = false ->
   status (fst (logEvent r s)) = 400%nat /\
   success_of (fst (logEvent r s)) = Some (JBool false) /\
   snd (logEvent r s) = s) /\
  (any_missing r = true -> status (fst (logEvent r s)) = 400%nat /\ snd (logEvent r s) = s) /\
  (truthy (eventType r) = true -> truthy (sessionId r) = true ->
   truthy (eventData r) = true ->
   (all_textual r = true -> new_event r s <> None) /\
   (forall e0, new_event r s = Some e0 -> accepts s e0 = true ->
    exists e,
      events (snd (logEvent r s)) = events s ++ [e] /\
      status (fst (logEvent r s)) = 201%nat /\
      ev_isAuthenticated e = truthy (userId r) /\
      cast_String s (or_else (userId r) (JStr "anonymous")) = Some (ev_userId e) /\
      (forall u, userId r = Some (JStr u) -> u <> "" -> ev_userId e = JStr u) /\
      (truthy (userId r) = false -> ev_userId e = JStr "anonymous") /\
      cast_path s (eventType r) = Some (ev_eventType e) /\
      cast_path s (sessionId r) = Some (ev_sessionId e) /\
      (forall t, eventType r = Some (JStr t) -> ev_eventType e = Some (JStr t)) /\
      (forall i, sessionId r = Some (JStr i) -> ev_sessionId e = Some (JStr i)) /\
      ev_eventData e = match eventData r with Some v => minimize v | None => None end) /\
   (new_event r s = None \/ (exists e0, new_event r s = Some e0 /\ accepts s e0 = false) ->
    status (fst (logEvent r s)) = 500%nat /\ snd (logEvent r s) = s)).
Proof.
  assert (Hbad : incomplete r = true ->
                 status (fst (logEvent r s)) = 400%nat /\
                 success_of (fst (logEvent r s)) = Some (JBool false) /\
                 snd (logEvent r s) = s).
  { intros Hi. unfold logEvent. rewrite Hi. repeat split. }
  split; [| split].
  - intros H. apply Hbad. unfold incomplete.
    destruct H as [H | [H | H]]; rewrite H; simpl; rewrite ?orb_true_r; reflexivity.
  - intros H. apply missing_incomplete in H. destruct (Hbad H) as (H1 & _ & H3). now split.
  - intros Ht Hs Hd.
    assert (Hi : incomplete r = false).
    { unfold incomplete. now rewrite Ht, Hs, Hd. }
    split; [| split].
    + now apply new_event_of_strings.
    + intros e0 He Hacc. exists (stored e0).
      unfold logEvent, save. rewrite Hi, He, Hacc.
      cbn [fst snd events with_events status created].
      destruct (new_event_fields r s e0 He) as (Htype & Huser & Hsession & Hauth & Hdata & _).
      cbn [stored ev_isAuthenticated ev_userId ev_eventType ev_sessionId ev_eventData].
      split; [reflexivity |]. split; [reflexivity |]. split; [exact Hauth |].
      split; [exact Huser |].
      split; [| split; [| split; [exact Htype | split; [exact Hsession |]]]].
      * intros u Hu Hne. rewrite Hu in Huser. cbn in Huser.
        destruct (str_empty u) eqn:E; [destruct u; [now contradiction Hne | discriminate] |].
        cbn in Huser. now injection Huser as <-.
      * intros Hfalsy. rewrite (or_else_falsy _ _ Hfalsy) in Huser. cbn in Huser.
        now injection Huser as <-.
      * split; [| split].
        -- intros t Heq. rewrite Heq in Htype. cbn in Htype. now injection Htype as <-.
        -- intros i Heq. rewrite Heq in Hsession. cbn in Hsession.
           now injection Hsession as <-.
        -- now rewrite Hdata.
    + unfold logEvent, save. rewrite Hi. intros [-> | (e0 & -> & ->)]; now split.
Qed.

Lemma logEvent_validates_then_persists_one_witness :
  (status (fst (logEvent empty_type_request empty_store)) = 400%nat /\
   success_of (fst (logEvent empty_type_request empty_store)) = Some (JBool false) /\
   snd (logEvent empty_type_request empty_store) = empty_store) /\
  exists e,
    events (snd (logEvent purchase_request empty_store)) = events empty_store ++ [e] /\
    status (fst (logEvent purchase_request empty_store)) = 201%nat /\
    ev_isAuthenticated e = true /\
    ev_userId e = JStr "u1" /\
    ev_eventType e = Some (JStr "purchase") /\
    ev_sessionId e = Some (JStr "s1").
Proof.
  split.
  - apply (proj1 (logEvent_validates_then_persists_one empty_type_request empty_store)).
    left. reflexivity.
  - destruct (proj2 (proj2 (logEvent_validates_then_persists_one purchase_request empty_store))
                eq_refl eq_refl eq_refl) as (_ & H & _).
    destruct (H purchase_event eq_refl eq_refl)
      as (e & H1 & H2 & H3 & _ & H5 & _ & _ & _ & H9 & H10 & _).
    exists e. split; [exact H1 |]. split; [exact H2 |]. split; [exact H3 |].
    split; [apply (H5 "u1"); [reflexivity | discriminate] |].
    split; [now apply H9 | now apply H10].
Defined.

End Ingestion.

(** ** Access to the log queries *)

Section Access.

Import Auth Routes.

Variable verify : string -> option claims.

(** [isAdmin] lets a request through only with a token that verifies and
    whose role is ["admin"]; it answers 401 or 403 otherwise. *)
Lemma isAdmin_next_is_admin (authorization : option string) (user : option claims) :
  isAdmin verify authorization = Next user ->
  exists token c,
    option_map (String.prefix "Bearer ") authorization = Some true /\
    verify token = Some c /\ role c = Some "admin" /\ user = Some c.
Proof.
  unfold isAdmin, isAuthenticated.
  destruct authorization as [h |]; [| discriminate].
  destruct (String.prefix "Bearer " h) eqn:Hp; simpl; [| discriminate].
  destruct (second_word h) as [token |]; [| discriminate].
  destruct (verify token) as [c |] eqn:Hv; [| discriminate].
  destruct (role c) as [r |] eqn:Hr; [| discriminate].
  destruct (String.eqb r "admin") eqn:Hadm; [| discriminate].
  apply String.eqb_eq in Hadm. subst r.
  intros H. injection H as <-. exists token, c.
  repeat split; try assumption. simpl. now rewrite Hp.
Qed.

Lemma isAdmin_rejects_with_401_or_403 (authorization : option string) (r : response) :
  isAdmin verify authorization = Respond r -> status r = 401%nat \/ status r = 403%nat.
Proof.
  unfold isAdmin, isAuthenticated.
  destruct authorization as [h |]; [| intros H; injection H as <-; now left].
  destruct (negb (String.prefix "Bearer " h)); [intros H; injection H as <-; now left |].
  destruct (second_word h) as [token |]; [| intros H; injection H as <-; now left].
  destruct (verify token) as [c |]; [| intros H; injection H as <-; now left].
  destruct (role c) as [ro |]; [| intros H; injection H as <-; now right].
  destruct (String.eqb ro "admin"); [discriminate | intros H; injection H as <-; now right].
Qed.

(** The sibling router does guard [/trends]: without a token the request
    ends at the middleware with 401. *)
Lemma statsRoutes_trends_requires_token :
  exists r, dispatch verify statsRoutes GET ["trends"] None = Rejected r /\ status r = 401%nat.
Proof. eexists. split; reflexivity. Qed.

(** No route of the log router has a middleware in front of its handler. *)
Lemma logRoutes_unguarded : forallb (fun r => match r_chain r with [] => true | _ => false end)
                                    logRoutes = true.
Proof. reflexivity. Qed.

(** A table without middlewares hands every request that one of its
    routes takes to a handler, with no user attached. *)
Lemma dispatch_unguarded (routes : list route) (m : method) (path : list string)
    (authorization : option string) :
  forallb (fun r => match r_chain r with [] => true | _ => false end) routes = true ->
  forallb (fun r => negb (matches (r_path r) path) || decoded (r_path r) path) routes = true ->
  existsb (fun r => handles (r_method r) m && matches (r_path r) path) routes = true ->
  exists h, dispatch verify routes m path authorization = Reached h None.
Proof.
  induction routes as [| r routes IH]; cbn [forallb existsb dispatch]; [discriminate |].
  intros Hchain Hdec Hsome.
  apply andb_true_iff in Hchain. destruct Hchain as [Hr Hrest].
  apply andb_true_iff in Hdec. destruct Hdec as [Hd Hdrest].
  destruct (matches (r_path r) path); cbn [negb orb] in Hd.
  - rewrite Hd. cbn [negb]. rewrite andb_true_r in Hsome.
    destruct (handles (r_method r) m); cbn [orb] in Hsome.
    + destruct (r_chain r); [| discriminate]. now eexists.
    + now apply IH.
  - rewrite andb_false_r in Hsome. now apply IH.
Qed.

(** A pattern without parameters has nothing to decode. *)
Lemma decoded_literal (pat : list segment) :
  forallb (fun g => match g with Lit _ => true | Param _ => false end) pat = true ->
  forall path, decoded pat path = true.
Proof.
  induction pat as [| [l | p] pat IH]; cbn [forallb decoded andb]; intros H path.
  - now destruct path.
  - destruct path; [reflexivity | now apply IH].
  - discriminate.
Qed.

(** A word that is one literal, up to case, is no other. *)
Lemma same_word_other (a b x : string) :
  same_word a x = true -> same_word b x = String.eqb (lowercase b) (lowercase a).
Proof.
  unfold same_word. intros H. apply String.eqb_eq in H. now rewrite H.
Qed.

Lemma events_is_no_other_query (path : list string) :
  matches [Lit "events"; Param "type"] path = true ->
  matches [Lit "counts"] path || matches [Lit "most-viewed"] path
  || matches [Lit "funnel"] path = false.
Proof.
  destruct path as [| x tail]; [discriminate |]. cbn [matches]. intros H.
  apply andb_true_iff in H. destruct H as [Hx _].
  now rewrite !(same_word_other "events" _ x Hx).
Qed.

(** Whatever the [Authorization] header, a request to one of the four
    query routes of the log router is never rejected; it enters the
    controller with no user attached. *)
Lemma logRoutes_query_never_rejected (path : list string) (authorization : option string) :
  query_route path = true ->
  exists h, dispatch verify logRoutes GET path authorization = Reached h None.
Proof.
  unfold query_route. intros H.
  apply dispatch_unguarded; [reflexivity | |].
  - cbn [logRoutes forallb r_path].
    rewrite !(decoded_literal [Lit _]) by reflexivity. rewrite !orb_true_r, andb_true_r.
    cbn [andb].
    destruct (matches [Lit "events"; Param "type"] path) eqn:Hm; [| reflexivity].
    destruct (decoded [Lit "events"; Param "type"] path) eqn:Hd; [reflexivity |].
    cbn [andb orb] in H.
    rewrite (events_is_no_other_query path Hm) in H. discriminate.
  - cbn [logRoutes existsb r_method r_path handles method_eqb andb orb].
    rewrite orb_false_r, !orb_assoc.
    destruct (matches [Lit "events"; Param "type"] path); [reflexivity |].
    exact H.
Qed.

End Access.

(** C3, at the failing input: with no [Authorization] header at all, each of
    the four query routes of the log router runs its controller method
    instead of answering 401. *)
Theorem logRoutes_queries_run_without_token (verify : string -> option Auth.claims) :
  Routes.dispatch verify Routes.logRoutes Routes.GET ["events"; "product_view"] None
    = Routes.Reached Routes.GetEventsByType None /\
  Routes.dispatch verify Routes.logRoutes Routes.GET ["counts"] None
    = Routes.Reached Routes.GetEventCounts None /\
  Routes.dispatch verify Routes.logRoutes Routes.GET ["most-viewed"] None
    = Routes.Reached Routes.GetMostViewedProducts None /\
  Routes.dispatch verify Routes.logRoutes Routes.GET ["funnel"] None
    = Routes.Reached Routes.GetFunnelData None.
Proof. repeat split. Qed.

(** ** Device usage in the generated dashboard data *)

Section DeviceUsage.

Import Binary64.

Lemma all_triples_spec (n1 n2 n3 : nat) (f : nat -> nat -> nat -> bool) :
  all_triples n1 n2 n3 f = true ->
  forall a b c, (a < n1)%nat -> (b < n2)%nat -> (c < n3)%nat -> f a b c = true.
Proof.
  unfold all_triples. intros H a b c Ha Hb Hc.
  rewrite forallb_forall in H. specialize (H a). rewrite in_seq in H.
  assert (H1 := H ltac:(lia)). clear H.
  rewrite forallb_forall in H1. specialize (H1 b). rewrite in_seq in H1.
  assert (H2 := H1 ltac:(lia)). clear H1.
  rewrite forallb_forall in H2. apply H2. rewrite in_seq. lia.
Qed.

Lemma all_draws_checked : all_triples 30 30 10 normalised = true.
Proof. vm_compute. reflexivity. Qed.

Lemma sums_to_100_spec (l : list (option Z)) :
  List.length l = 3%nat -> sums_to_100 l = true ->
  exists a b c, l = [Some a; Some b; Some c] /\ 9999 <= a + b + c <= 10001.
Proof.
  destruct l as [| x [| y [| z [| w l]]]]; try discriminate. intros _.
  unfold sums_to_100. destruct x as [a |], y as [b |], z as [c |]; simpl; try discriminate.
  intros H. apply andb_true_iff in H. destruct H as [Hlo Hhi].
  exists a, b, c. split; [reflexivity | lia].
Qed.

(** C7.  Whatever the three random draws (the integer parts lie below 30,
    30 and 10), each of the three percentages is a finite decimal with two
    digits, and together they sum to 100 up to one hundredth: 99.99, 100.00
    or 100.01.  Added up as doubles they are within 0.015 of 100. *)
Theorem deviceUsage_sums_to_100 (desktop mobile tablet : nat) :
  (desktop < 30)%nat -> (mobile < 30)%nat -> (tablet < 10)%nat ->
  (exists a b c,
     deviceUsage_hundredths desktop mobile tablet = [Some a; Some b; Some c] /\
     9999 <= a + b + c <= 10001) /\
  near_100 (totalPercentage (deviceUsage desktop mobile tablet)) = true.
Proof.
  intros Hd Hm Ht.
  pose proof (all_triples_spec 30 30 10 normalised all_draws_checked
                desktop mobile tablet Hd Hm Ht) as H.
  unfold normalised in H. apply andb_true_iff in H. destruct H as [Hdec Hdbl].
  split; [| exact Hdbl].
  apply sums_to_100_spec; [| exact Hdec].
  unfold deviceUsage_hundredths, deviceUsage. now rewrite !length_map.
Qed.

Lemma deviceUsage_sums_to_100_witness :
  (exists a b c,
     deviceUsage_hundredths 0 0 0 = [Some a; Some b; Some c] /\
     9999 <= a + b + c <= 10001) /\
  near_100 (totalPercentage (deviceUsage 0 0 0)) = true.
Proof. apply (deviceUsage_sums_to_100 0 0 0); lia. Defined.

(** The bound cannot be tightened to an exact 100: the smallest draws give
    46.15, 46.15 and 7.69. *)
Lemma deviceUsage_smallest_draws :
  deviceUsage_hundredths 0 0 0 = [Some 4615; Some 4615; Some 769].
Proof. vm_compute. reflexivity. Qed.

End DeviceUsage.

(** ** The logging client *)

Section Client.

Import LoggerClient Samples.

(** C10.  [flush] on an empty queue does nothing: the call has settled when
    it returns, resolved with [undefined]; nothing is handed to the network,
    the error handler is not called, and the client and everything around it
    are as before. *)
Theorem flush_on_empty_queue_is_noop (sync : bool) (beacon : option bool) (w : world) :
  eventQueue (self w) = [] ->
  flush sync beacon w = (w, Done (Resolved None)) /\
  requests (fst (flush sync beacon w)) = requests w /\
  inflight (fst (flush sync beacon w)) = inflight w /\
  handled (fst (flush sync beacon w)) = handled w /\
  self (fst (flush sync beacon w)) = self w.
Proof.
  intros Hq. assert (H : flush sync beacon w = (w, Done (Resolved None))).
  { unfold flush. now rewrite Hq. }
  rewrite H. repeat split.
Qed.

Lemma flush_on_empty_queue_is_noop_witness :
  flush true (Some true) (create "/api/logs" "sess_1" true)
    = (create "/api/logs" "sess_1" true, Done (Resolved None)) /\
  requests (fst (flush true (Some true) (create "/api/logs" "sess_1" true))) = [] /\
  inflight (fst (flush true (Some true) (create "/api/logs" "sess_1" true))) = [] /\
  handled (fst (flush true (Some true) (create "/api/logs" "sess_1" true))) = [] /\
  self (fst (flush true (Some true) (create "/api/logs" "sess_1" true)))
    = self (create "/api/logs" "sess_1" true).
Proof.
  apply (flush_on_empty_queue_is_noop true (Some true) (create "/api/logs" "sess_1" true)).
  reflexivity.
Defined.

(** What a suspended [flush] has done by the time it awaits. *)
Lemma flush_awaiting (sync : bool) (beacon : option bool) (w w1 : world) (id : nat) :
  flush sync beacon w = (w1, Awaiting id) ->
  id = next_id w /\
  eventQueue (self w1) = [] /\
  inflight w1 = inflight w ++ [(id, eventQueue (self w))] /\
  handled w1 = handled w /\
  sessionId (self w1) = sessionId (self w) /\
  userId (self w1) = userId (self w) /\
  requests w1 = requests w ++ [(batch_url w, eventQueue (self w))].
Proof.
  unfold flush. destruct (eventQueue (self w)) as [| e q] eqn:Hq; [discriminate |].
  destruct sync, beacon; try discriminate; intros H; injection H as <- <-;
    simpl; rewrite ?Hq; repeat split.
Qed.

Lemma log_line_frame (line : string) (w : world) :
  self (log_line line w) = self w /\ inflight (log_line line w) = inflight w /\
  handled (log_line line w) = handled w /\ requests (log_line line w) = requests w /\
  next_id (log_line line w) = next_id w.
Proof. unfold log_line. destruct (debug (self w)); repeat split. Qed.

(** Quiet actions only append to the queue. *)
Lemma run_quiet (actions : list action) : forall w,
  forallb quiet actions = true ->
  eventQueue (self (run actions w))
    = eventQueue (self w) ++ logged actions (sessionId (self w)) (userId (self w)) /\
  inflight (run actions w) = inflight w /\
  handled (run actions w) = handled w /\
  requests (run actions w) = requests w.
Proof.
  induction actions as [| a actions IH]; intros w Hq.
  - simpl. rewrite app_nil_r. repeat split.
  - simpl in Hq. apply andb_true_iff in Hq. destruct Hq as [Ha Hq].
    unfold run in *. cbn [fold_left].
    destruct (IH (step w a) Hq) as (Hqueue & Hin & Hh & Hr).
    rewrite Hqueue, Hin, Hh, Hr. clear IH Hqueue Hin Hh Hr.
    destruct a as [t d sev amb | u | | beacon | id r]; simpl in Ha; try discriminate.
    + cbn [step logged]. unfold logEvent.
      apply negb_true_iff in Ha. rewrite Ha.
      destruct (log_line_frame "Evento registrado:"
                  (with_queue w (eventQueue (self w) ++ [make_entry (self w) t d sev amb])))
        as (Hs & Hi & Hh & Hr & _).
      rewrite Hs, Hi, Hh, Hr. simpl. rewrite <- app_assoc. repeat split.
    + cbn [step logged]. unfold setUserId.
      destruct (log_line_frame "ID do usuário definido:" (with_userId w u))
        as (Hs & Hi & Hh & Hr & _).
      rewrite Hs, Hi, Hh, Hr. repeat split.
Qed.

Lemma find_batch_fresh (id : nat) (events : list entry) (l : list (nat * list entry)) :
  Forall (fun p => (fst p < id)%nat) l ->
  find_batch id (l ++ [(id, events)]) = Some events.
Proof.
  induction 1 as [| [i b] l Hlt _ IH]; simpl.
  - now rewrite Nat.eqb_refl.
  - simpl in Hlt. destruct (Nat.eqb_spec i id); [lia | exact IH].
Qed.

(** C2, as stated, fails.  The client holds one page view and the network
    is down.  [flush] takes the page view and awaits; meanwhile an error is
    logged, and [logEvent] flushes at once, so the error entry leaves the
    queue with a second request.  When the first request fails, the queue
    holds the page view alone, not the page view followed by the entry
    logged during the attempt; and once the second request has failed too,
    the two are in the queue in reverse order. *)
Lemma failed_flush_misses_entry_logged_as_error :
  exists w1 logged_during,
    flush false None client_with_page_view = (w1, Awaiting 0) /\
    logged_during = logged [log_error] "sess_1" None /\
    List.length logged_during = 1%nat /\
    snd (resume 0 offline (run [log_error] w1)) = Some (RejectedWith (FetchRejected "offline")) /\
    eventQueue (self (fst (resume 0 offline (run [log_error] w1)))) = [page_view] /\
    eventQueue (self (fst (resume 0 offline (run [log_error] w1))))
      <> eventQueue (self client_with_page_view) ++ logged_during /\
    eventQueue (self (run [log_error; Settle 0 offline; Settle 1 offline] w1))
      = logged_during ++ [page_view].
Proof.
  eexists. eexists. split; [reflexivity |]. split; [reflexivity |].
  repeat split. discriminate.
Qed.

(** C2, amended.  Take a [flush] that is suspended at its request, on a
    client whose request ids are in order.  If, until the request settles,
    the client only sees [setUserId] and [logEvent] calls of a severity
    other than ["error"] (so that no other [flush] starts or resumes in
    between), and the request then fails with a network error or a response
    that is not ok, then the queue is exactly the queue from before the call
    followed by the entries logged meanwhile, in order; the error handler
    has been called once more, with the error; and the promise rejects with
    that error. *)
Theorem failed_flush_requeues_in_order (sync : bool) (beacon : option bool)
    (w w1 : world) (id : nat) (during : list action) (r : fetched) (e : error) :
  well_formed w ->
  flush sync beacon w = (w1, Awaiting id) ->
  forallb quiet during = true ->
  failure r = Some e ->
  eventQueue (self (fst (resume id r (run during w1))))
    = eventQueue (self w) ++ logged during (sessionId (self w)) (userId (self w)) /\
  handled (fst (resume id r (run during w1))) = handled w ++ [e] /\
  snd (resume id r (run during w1)) = Some (RejectedWith e).
Proof.
  intros Hwf Hflush Hquiet Hfail.
  destruct (flush_awaiting _ _ _ _ _ Hflush) as (Hid & Hq1 & Hin1 & Hh1 & Hsid & Huid & _).
  destruct (run_quiet during w1 Hquiet) as (Hq2 & Hin2 & Hh2 & _).
  rewrite Hq1, Hsid, Huid in Hq2. simpl in Hq2.
  assert (Hfind : find_batch id (inflight (run during w1)) = Some (eventQueue (self w))).
  { rewrite Hin2, Hin1. apply find_batch_fresh. subst id. exact Hwf. }
  unfold resume. rewrite Hfind.
  destruct r as [reason | [|] code json]; simpl in Hfail; try discriminate;
    injection Hfail as <-; simpl; rewrite Hq2, Hh2, Hh1; repeat split.
Qed.

Lemma failed_flush_requeues_in_order_witness :
  eventQueue (self (fst (resume 0 offline
      (run [log_cart] (fst (flush false None client_with_page_view))))))
    = eventQueue (self client_with_page_view)
        ++ logged [log_cart] (sessionId (self client_with_page_view))
                  (userId (self client_with_page_view)) /\
  handled (fst (resume 0 offline
      (run [log_cart] (fst (flush false None client_with_page_view)))))
    = handled client_with_page_view ++ [FetchRejected "offline"] /\
  snd (resume 0 offline (run [log_cart] (fst (flush false None client_with_page_view))))
    = Some (RejectedWith (FetchRejected "offline")).
Proof.
  apply (failed_flush_requeues_in_order false None client_with_page_view
           (fst (flush false None client_with_page_view)) 0 [log_cart] offline
           (FetchRejected "offline")).
  - constructor.
  - reflexivity.
  - reflexivity.
  - reflexivity.
Defined.

(** Request ids stay in order along every run from a fresh client, so the
    first hypothesis of the theorem holds of every client there is. *)
Lemma well_formed_create (url sid : string) (dbg : bool) : well_formed (create url sid dbg).
Proof. constructor. Qed.

Lemma well_formed_frame (w w' : world) :
  inflight w' = inflight w -> next_id w' = next_id w -> well_formed w -> well_formed w'.
Proof. unfold well_formed. now intros -> ->. Qed.

Lemma well_formed_flush (sync : bool) (beacon : option bool) (w : world) :
  well_formed w -> well_formed (fst (flush sync beacon w)).
Proof.
  intros Hwf. unfold flush. destruct (eventQueue (self w)) as [| e q]; [exact Hwf |].
  destruct sync, beacon; try exact Hwf;
    unfold well_formed in *; cbn [fst start_fetch with_queue inflight next_id];
    (apply Forall_app; split;
     [ eapply Forall_impl; [| exact Hwf]; intros p Hp; cbn in Hp |- *; lia
     | constructor; [cbn; lia | constructor] ]).
Qed.

Lemma drop_batch_incl (id : nat) (l : list (nat * list entry)) :
  incl (drop_batch id l) l.
Proof.
  induction l as [| [i b0] l IH]; simpl; [apply incl_refl |].
  destruct (Nat.eqb i id).
  - apply incl_tl, incl_refl.
  - apply incl_cons; [now left | now apply incl_tl].
Qed.

Lemma well_formed_resume (id : nat) (r : fetched) (w : world) :
  well_formed w -> well_formed (fst (resume id r w)).
Proof.
  intros Hwf. unfold resume. destruct (find_batch id (inflight w)) as [events |]; [| exact Hwf].
  assert (Hdrop : Forall (fun p => (fst p < next_id w)%nat) (drop_batch id (inflight w))).
  { unfold well_formed in Hwf. rewrite Forall_forall in *.
    intros p Hp. apply Hwf. now apply (drop_batch_incl id (inflight w)). }
  destruct r as [reason | [|] code json]; try exact Hdrop.
  unfold log_line. cbn [fst self debug]. destruct (debug (self w)); exact Hdrop.
Qed.

Lemma well_formed_step (w : world) (a : action) : well_formed w -> well_formed (step w a).
Proof.
  intros Hwf. destruct a as [t d sev amb | u | | beacon | id r]; cbn [step].
  - unfold logEvent.
    assert (H1 : well_formed (log_line "Evento registrado:"
                   (with_queue w (eventQueue (self w) ++ [make_entry (self w) t d sev amb])))).
    { destruct (log_line_frame "Evento registrado:"
                  (with_queue w (eventQueue (self w) ++ [make_entry (self w) t d sev amb])))
        as (_ & Hi & _ & _ & Hn).
      eapply well_formed_frame; [exact Hi | exact Hn | exact Hwf]. }
    destruct (String.eqb sev "error"); [now apply well_formed_flush | exact H1].
  - unfold setUserId.
    destruct (log_line_frame "ID do usuário definido:" (with_userId w u))
      as (_ & Hi & _ & _ & Hn).
    eapply well_formed_frame; [exact Hi | exact Hn | exact Hwf].
  - now apply well_formed_flush.
  - now apply well_formed_flush.
  - now apply well_formed_resume.
Qed.

Lemma well_formed_run (actions : list action) : forall w,
  well_formed w -> well_formed (run actions w).
Proof.
  induction actions as [| a actions IH]; intros w Hwf; [exact Hwf |].
  apply IH. now apply well_formed_step.
Qed.

End Client.

(** ** Rates *)

Section Percentages.

Import Num.

Context {R : Rounding}.

Local Open Scope Q_scope.

Lemma rnd_0 : rnd 0 == 0.
Proof. apply (rnd_int 0). simpl. lia. Qed.

Lemma rnd_1 : rnd 1 == 1.
Proof. apply (rnd_int 1). simpl. lia. Qed.

Lemma rnd_100 : rnd 100 == 100.
Proof. apply (rnd_int 100). simpl. lia. Qed.

Lemma rnd_nonneg (x : Q) : 0 <= x -> 0 <= rnd x.
Proof. intros H. rewrite <- rnd_0. now apply rnd_mono. Qed.

Lemma rnd_between (x lo hi : Q) :
  rnd lo == lo -> rnd hi == hi -> lo <= x <= hi -> lo <= rnd x <= hi.
Proof.
  intros Hlo Hhi [H1 H2]. split.
  - rewrite <- Hlo. now apply rnd_mono.
  - rewrite <- Hhi. now apply rnd_mono.
Qed.

Lemma is_neg_false (q : Q) : 0 <= q -> is_neg q = false.
Proof.
  unfold is_neg, Qle. simpl. intros H. apply Z.ltb_ge. lia.
Qed.

Lemma is_zero_false (q : Q) : 0 < q -> is_zero q = false.
Proof.
  unfold is_zero, Qlt. simpl. intros H. apply Z.eqb_neq. lia.
Qed.

Lemma gt0_Fin (q : Q) : gt0 (Fin q) = true <-> 0 < q.
Proof.
  unfold gt0, Qlt. simpl. rewrite Z.ltb_lt. lia.
Qed.

Lemma round_half_up_percent (q : Q) :
  0 <= q <= 100 -> (0 <= round_half_up q <= 10000)%Z.
Proof.
  intros [Hlo Hhi]. unfold round_half_up. split.
  - change 0%Z with (Qfloor (1 # 2)). apply Qfloor_resp_le. lra.
  - change 10000%Z with (Qfloor (100 * 100 + (1 # 2))). apply Qfloor_resp_le. lra.
Qed.

Lemma toFixed2_percent (q : Q) : 0 <= q <= 100 -> percent (toFixed2 (Fin q)).
Proof.
  intros H. unfold toFixed2. rewrite is_neg_false by apply H.
  simpl. now apply round_half_up_percent.
Qed.

(** A guarded ratio of a part to a whole, times 100, is a percentage. *)
Lemma ratio_percent (part whole : Q) :
  0 <= part <= whole -> 0 < whole ->
  exists q, mul (div (Fin part) (Fin whole)) (Fin 100) = Fin q /\ 0 <= q <= 100.
Proof.
  intros [Hlo Hhi] Hpos. unfold div, mul. rewrite (is_zero_false whole Hpos).
  eexists. split; [reflexivity |].
  assert (Hr : 0 <= rnd (part / whole) <= 1).
  { apply rnd_between; [apply rnd_0 | apply rnd_1 |]. split.
    - apply Qle_shift_div_l; [exact Hpos | lra].
    - apply Qle_shift_div_r; [exact Hpos | lra]. }
  apply rnd_between; [apply rnd_0 | apply rnd_100 |].
  change (inject_Z 100) with 100. lra.
Qed.

Lemma of_count_nonneg (n : Z) : (0 <= n)%Z -> 0 <= rnd (inject_Z n).
Proof.
  intros H. apply rnd_nonneg. change 0 with (inject_Z 0). now rewrite <- Zle_Qle.
Qed.

Lemma of_count_mono (n m : Z) : (n <= m)%Z -> rnd (inject_Z n) <= rnd (inject_Z m).
Proof. intros H. apply rnd_mono. now rewrite <- Zle_Qle. Qed.

Lemma of_count_positive (n : Z) : (0 < n)%Z -> 0 < rnd (inject_Z n).
Proof.
  intros H. apply Qlt_le_trans with (y := 1); [reflexivity |].
  rewrite <- rnd_1. apply rnd_mono. change 1 with (inject_Z 1). rewrite <- Zle_Qle. lia.
Qed.

Lemma gt0_of_count (n : Z) : (0 <= n)%Z -> gt0 (of_count n) = negb (n =? 0)%Z.
Proof.
  intros H. unfold of_count. destruct (Z.eqb_spec n 0) as [-> | Hne]; cbn [negb].
  - apply not_true_is_false. intros Hgt. apply gt0_Fin in Hgt.
    change (inject_Z 0) with 0 in Hgt. rewrite rnd_0 in Hgt.
    exact (Qlt_irrefl 0 Hgt).
  - apply gt0_Fin. apply of_count_positive. lia.
Qed.

End Percentages.

Section OverviewRates.

Import Num StatsController.

Context {R : Rounding}.

Local Open Scope Q_scope.

Lemma toFixed2_zero : toFixed2 (Fin 0) = Hundredths 0.
Proof. reflexivity. Qed.

Lemma conversionRate_percent (productViews checkoutCompletes : Z) :
  (0 <= checkoutCompletes <= productViews)%Z ->
  percent (conversionRate productViews checkoutCompletes).
Proof.
  intros [Hc Hv]. unfold conversionRate.
  rewrite gt0_of_count by lia.
  destruct (Z.eqb_spec productViews 0) as [Hz | Hnz]; cbn [negb].
  - rewrite toFixed2_zero. simpl. lia.
  - unfold of_count.
    assert (Hpart : 0 <= rnd (inject_Z checkoutCompletes) <= rnd (inject_Z productViews)).
    { split; [now apply of_count_nonneg | now apply of_count_mono]. }
    assert (Hpos : 0 < rnd (inject_Z productViews)).
    { apply of_count_positive. lia. }
    destruct (ratio_percent _ _ Hpart Hpos) as (q & -> & Hq).
    now apply toFixed2_percent.
Qed.

Lemma cartAbandonmentRate_percent (cartAdds checkoutCompletes : Z) :
  (0 <= checkoutCompletes <= cartAdds)%Z ->
  percent (cartAbandonmentRate cartAdds checkoutCompletes).
Proof.
  intros [Hc Ha]. unfold cartAbandonmentRate.
  rewrite gt0_of_count by lia.
  destruct (Z.eqb_spec cartAdds 0) as [Hz | Hnz]; cbn [negb].
  - rewrite toFixed2_zero. simpl. lia.
  - unfold of_count, sub.
    pose proof (of_count_nonneg checkoutCompletes Hc) as Hc0.
    pose proof (of_count_mono checkoutCompletes cartAdds Ha) as Hca.
    assert (Hpart : 0 <= rnd (rnd (inject_Z cartAdds) - rnd (inject_Z checkoutCompletes))
                      <= rnd (inject_Z cartAdds)).
    { split.
      - apply rnd_nonneg. lra.
      - rewrite <- (rnd_idem (inject_Z cartAdds)) at 2. apply rnd_mono. lra. }
    assert (Hpos : 0 < rnd (inject_Z cartAdds)).
    { apply of_count_positive. lia. }
    destruct (ratio_percent _ _ Hpart Hpos) as (q & -> & Hq).
    now apply toFixed2_percent.
Qed.

(** C5.  For non-negative counts with [checkoutCompletes <= productViews]
    and [checkoutCompletes <= cartAdds], the reported [conversionRate] and
    [cartAbandonmentRate] both lie in the interval from 0 to 100; the first
    is 0 when there are no product views and the second is 0 when there are
    no cart additions. *)
Theorem overview_rates_between_0_and_100 (productViews cartAdds checkoutCompletes : Z) :
  (0 <= productViews)%Z -> (0 <= cartAdds)%Z -> (0 <= checkoutCompletes)%Z ->
  (checkoutCompletes <= productViews)%Z -> (checkoutCompletes <= cartAdds)%Z ->
  percent (conversionRate productViews checkoutCompletes) /\
  percent (cartAbandonmentRate cartAdds checkoutCompletes) /\
  (productViews = 0%Z -> conversionRate productViews checkoutCompletes = Hundredths 0) /\
  (cartAdds = 0%Z -> cartAbandonmentRate cartAdds checkoutCompletes = Hundredths 0).
Proof.
  intros Hv Ha Hc Hcv Hca. split; [| split; [| split]].
  - apply conversionRate_percent. lia.
  - apply cartAbandonmentRate_percent. lia.
  - intros ->. unfold conversionRate. rewrite gt0_of_count by lia. reflexivity.
  - intros ->. unfold cartAbandonmentRate. rewrite gt0_of_count by lia. reflexivity.
Qed.

End OverviewRates.

(** The fixture counts, computed live without rounding error: 22.22 and
    66.67. *)
Lemma overview_rates_between_0_and_100_witness :
  Num.percent (StatsController.conversionRate (R := Num.exact) 450 100) /\
  Num.percent (StatsController.cartAbandonmentRate (R := Num.exact) 300 100) /\
  (450 = 0 -> StatsController.conversionRate (R := Num.exact) 450 100 = Num.Hundredths 0) /\
  (300 = 0 -> StatsController.cartAbandonmentRate (R := Num.exact) 300 100 = Num.Hundredths 0).
Proof.
  apply (overview_rates_between_0_and_100 (R := Num.exact) 450 300 100); lia.
Defined.

Lemma overview_rates_of_fixture_counts :
  StatsController.conversionRate (R := Num.exact) 450 100 = Num.Hundredths 2222 /\
  StatsController.cartAbandonmentRate (R := Num.exact) 300 100 = Num.Hundredths 6667.
Proof. repeat split. Qed.

(** ** The conversion funnel *)

Section Funnel.

Import Num EventModel LogController.

Context {R : Rounding}.

Ltac in_list := cbn [In]; repeat (first [left; reflexivity | right]).

Lemma countDocuments_reachable (stage : string) (start stop : Z) (s : store) :
  reachable s = true ->
  countDocuments (Some stage) start stop s = Some (count_of stage start stop s).
Proof. intros H. unfold countDocuments, count_of. now rewrite H. Qed.

Lemma count_of_nonneg (stage : string) (start stop : Z) (s : store) :
  0 <= count_of stage start stop s.
Proof. unfold count_of. lia. Qed.

(** The rate of one pair, by the count of the earlier stage. *)
Lemma stage_rate_guarded (funnelData : list (string * Z)) (cur next : string) (n m : Z) :
  lookup cur funnelData = Some n -> lookup next funnelData = Some m -> 0 <= n ->
  stage_rate funnelData cur next =
    if n =? 0 then Hundredths 0
    else toFixed2 (mul (div (of_count m) (of_count n)) (Fin 100)).
Proof.
  intros Hn Hm Hpos. unfold stage_rate, read. rewrite Hn, Hm.
  rewrite gt0_of_count by exact Hpos.
  destruct (n =? 0); reflexivity.
Qed.

(** A rate computed from a positive count is a finite number. *)
Lemma guarded_rate_finite (n m : Z) :
  0 < n -> exists k, toFixed2 (mul (div (of_count m) (of_count n)) (Fin 100)) = Hundredths k.
Proof.
  intros Hn. unfold of_count, div, mul.
  rewrite (is_zero_false _ (of_count_positive n Hn)).
  unfold toFixed2. destruct (is_neg _); eexists; reflexivity.
Qed.

(** Without the guard the same expression is not a number when the earlier
    count is 0. *)
Lemma unguarded_rate_of_empty_stage :
  toFixed2 (mul (div (Fin 0) (Fin 0)) (Fin 100)) = FNaN /\
  toFixed2 (mul (div (Fin 5) (Fin 0)) (Fin 100)) = FPosInf.
Proof. repeat split. Qed.

Lemma reported_rate (funnelData : list (string * Z)) (rates : list (string * fixed2))
    (cur next : string) (n m : Z) :
  lookup cur funnelData = Some n -> lookup next funnelData = Some m -> 0 <= n ->
  lookup (rate_key cur next) rates = Some (stage_rate funnelData cur next) ->
  exists k,
    lookup (rate_key cur next) rates = Some (Hundredths k) /\
    Hundredths k =
      if n =? 0 then Hundredths 0
      else toFixed2 (mul (div (of_count m) (of_count n)) (Fin 100)).
Proof.
  intros Hn Hm Hpos Hrate.
  rewrite (stage_rate_guarded funnelData cur next n m Hn Hm Hpos) in Hrate.
  rewrite Hrate. destruct (Z.eqb_spec n 0) as [Hz | Hnz].
  - exists 0. split; reflexivity.
  - destruct (guarded_rate_finite n m) as (k & Hk); [lia |].
    exists k. rewrite Hk. split; reflexivity.
Qed.

(** The two objects, pair by pair. *)
Lemma funnel_objects (start stop : Z) (s : store) (i : nat) :
  reachable s = true -> (i < 4)%nat ->
  exists funnelData conversionRates k,
    funnel start stop s = Some (funnelData, conversionRates) /\
    lookup (nth i funnelStages "") funnelData
      = Some (count_of (nth i funnelStages "") start stop s) /\
    lookup (nth (S i) funnelStages "") funnelData
      = Some (count_of (nth (S i) funnelStages "") start stop s) /\
    lookup (rate_key (nth i funnelStages "") (nth (S i) funnelStages "")) conversionRates
      = Some (Hundredths k) /\
    Hundredths k =
      if count_of (nth i funnelStages "") start stop s =? 0 then Hundredths 0
      else toFixed2 (mul (div (of_count (count_of (nth (S i) funnelStages "") start stop s))
                              (of_count (count_of (nth i funnelStages "") start stop s)))
                         (Fin 100)).
Proof.
  intros Hup Hi.
  assert (Hfunnel : exists funnelData,
            funnel start stop s
              = Some (funnelData, conversion_loop funnelStages funnelData []) /\
            forall stage, In stage funnelStages ->
              lookup stage funnelData = Some (count_of stage start stop s)).
  { unfold funnel. cbn [funnelStages count_stages].
    rewrite !(countDocuments_reachable _ start stop s Hup).
    eexists. split; [reflexivity |].
    intros stage Hin. cbn [In] in Hin.
    repeat (destruct Hin as [<- | Hin]; [reflexivity |]). contradiction. }
  destruct Hfunnel as (funnelData & Hf & Hlook).
  exists funnelData, (conversion_loop funnelStages funnelData []).
  assert (Hpair : forall cur next,
            In cur funnelStages -> In next funnelStages ->
            lookup (rate_key cur next) (conversion_loop funnelStages funnelData [])
              = Some (stage_rate funnelData cur next) ->
            exists k,
              lookup cur funnelData = Some (count_of cur start stop s) /\
              lookup next funnelData = Some (count_of next start stop s) /\
              lookup (rate_key cur next) (conversion_loop funnelStages funnelData [])
                = Some (Hundredths k) /\
              Hundredths k =
                if count_of cur start stop s =? 0 then Hundredths 0
                else toFixed2 (mul (div (of_count (count_of next start stop s))
                                        (of_count (count_of cur start stop s)))
                                   (Fin 100))).
  { intros cur next Hc Hn Hrate.
    destruct (reported_rate funnelData _ cur next _ _ (Hlook cur Hc) (Hlook next Hn)
                (count_of_nonneg cur start stop s) Hrate) as (k & Hk1 & Hk2).
    exists k. auto. }
  assert (Hcases : (i = 0 \/ i = 1 \/ i = 2 \/ i = 3)%nat) by lia.
  destruct Hcases as [-> | [-> | [-> | ->]]]; cbn [nth funnelStages];
    (edestruct Hpair as (k & Hk);
     [ | | | exists k; split; [exact Hf | exact Hk] ];
     [ in_list | in_list | reflexivity ]).
Qed.

(** C6.  When the window is well formed and the count queries go through,
    the handler answers 200 and reports, for each of the four adjacent pairs
    of the stage list, under the key [<earlier>_to_<later>], the number 0
    when the earlier stage counts no event, and otherwise
    [laterCount / earlierCount * 100] rounded to two decimals; in both cases
    a finite number. *)
Theorem funnel_rate_of_adjacent_stages (startDate endDate : date_param) (start stop : Z)
    (s : store) (i : nat) :
  reachable s = true ->
  start_of startDate (clock s) = Some start ->
  end_of endDate (clock s) = Some stop ->
  (i < 4)%nat ->
  exists funnelData conversionRates k,
    getFunnelData startDate endDate s
      = Response 200 (JObj [("success", JBool true);
                            ("period", JObj [("start", JIso start); ("end", JIso stop)]);
                            ("funnelData", json_of_counts funnelData);
                            ("conversionRates", json_of_rates conversionRates)]) /\
    lookup (nth i funnelStages "") funnelData
      = Some (count_of (nth i funnelStages "") start stop s) /\
    lookup (nth (S i) funnelStages "") funnelData
      = Some (count_of (nth (S i) funnelStages "") start stop s) /\
    lookup (rate_key (nth i funnelStages "") (nth (S i) funnelStages "")) conversionRates
      = Some (Hundredths k) /\
    Hundredths k =
      if count_of (nth i funnelStages "") start stop s =? 0 then Hundredths 0
      else toFixed2 (mul (div (of_count (count_of (nth (S i) funnelStages "") start stop s))
                              (of_count (count_of (nth i funnelStages "") start stop s)))
                         (Fin 100)).
Proof.
  intros Hup Hstart Hstop Hi.
  destruct (funnel_objects start stop s i Hup Hi)
    as (funnelData & conversionRates & k & Hf & Hrest).
  exists funnelData, conversionRates, k. split; [| exact Hrest].
  unfold getFunnelData. now rewrite Hstart, Hstop, Hf.
Qed.

End Funnel.

Section FunnelSample.

Import Num EventModel LogController Samples.

Lemma funnel_rate_of_adjacent_stages_witness :
  exists funnelData conversionRates k,
    getFunnelData (R := exact) (Valid 0) Absent funnel_store
      = Response 200 (JObj [("success", JBool true);
                            ("period", JObj [("start", JIso 0); ("end", JIso 10)]);
                            ("funnelData", json_of_counts funnelData);
                            ("conversionRates", json_of_rates conversionRates)]) /\
    lookup (nth 0 funnelStages "") funnelData
      = Some (count_of (nth 0 funnelStages "") 0 10 funnel_store) /\
    lookup (nth 1 funnelStages "") funnelData
      = Some (count_of (nth 1 funnelStages "") 0 10 funnel_store) /\
    lookup (rate_key (nth 0 funnelStages "") (nth 1 funnelStages "")) conversionRates
      = Some (Hundredths k) /\
    Hundredths k =
      if count_of (nth 0 funnelStages "") 0 10 funnel_store =? 0 then Hundredths 0
      else toFixed2
             (mul (R := exact)
                (div (R := exact)
                   (of_count (R := exact) (count_of (nth 1 funnelStages "") 0 10 funnel_store))
                   (of_count (R := exact) (count_of (nth 0 funnelStages "") 0 10 funnel_store)))
                (Fin 100)).
Proof.
  apply (funnel_rate_of_adjacent_stages (R := exact) (Valid 0) Absent 0 10 funnel_store 0);
    [reflexivity | reflexivity | reflexivity | lia].
Defined.

(** On the sample store half of the views lead to a customisation, and no
    customisation leads on: 50 and 0. *)
Lemma funnel_rates_of_sample_store :
  option_map snd (funnel (R := exact) 0 10 funnel_store)
    = Some [("product_view_to_product_customize", Hundredths 5000);
            ("product_customize_to_cart_add", Hundredths 0);
            ("cart_add_to_checkout_start", Hundredths 0);
            ("checkout_start_to_checkout_complete", Hundredths 0)].
Proof. reflexivity. Qed.

End FunnelSample.

(** ** Mock data in the statistics responses *)

Section MockData.

Import Num EventModel StatsController Samples.

Context {R : Rounding}.

Lemma shape_fixed2 (x : fixed2) : shape (json_of_fixed2 x) = SLeaf.
Proof. destruct x; reflexivity. Qed.

Lemma live_stats_shape (a b c d e f : Z) :
  shape (live_stats a b c d e f) = shape overviewStats.
Proof. unfold live_stats. cbn [shape]. now rewrite !shape_fixed2. Qed.

Lemma live_overview_reachable (start stop : Z) (s : store) :
  reachable s = true ->
  exists a b c d e f, live_overview start stop s = Some (live_stats a b c d e f).
Proof.
  intros Hup. unfold live_overview, countDocuments. rewrite Hup.
  do 6 eexists. reflexivity.
Qed.

(** C4, amended.  No response of the statistics service says that its data
    was substituted.  When the window is well formed and the store
    answers, the overview built from the fixture constants and the one
    computed from the store are both 200 responses with [success: true]
    and the same members, [success], [period] and [stats] with the same
    eight members, and the handler writes nothing on the console for
    either.  The dashboard response is [success: true] with
    [dashboardData] and nothing else: the fixture content as it is, or an
    object with the nine members of [dashboard_members], the same whether
    the store queries went through or were replaced by empty lists.  The
    one notice of the substitution is the first line the dashboard handler
    writes on the server's console. *)
Theorem mock_responses_have_the_shape_of_live_ones
    (startDate endDate : date_param) (content : value)
    (agg : option aggregates) (g : generated) (s : store) :
  reachable s = true ->
  start_of startDate (clock s) <> None ->
  end_of endDate (clock s) <> None ->
  (~ flagged (fst (getOverviewStats startDate endDate (Parsed content) s))
             (fst (getOverviewStats startDate endDate NoFile s)) /\
   (exists start stop stats,
      getOverviewStats startDate endDate (Parsed content) s
        = (overview_ok start stop overviewStats, []) /\
      getOverviewStats startDate endDate NoFile s = (overview_ok start stop stats, []) /\
      shape stats = shape overviewStats)) /\
  getDashboardData (Parsed content) agg g s
    = (Response 200 (JObj [("success", JBool true); ("dashboardData", content)]),
       [Log using_fixture]) /\
  (exists generatedData errors,
     getDashboardData NoFile agg g s
       = (Response 200 (JObj [("success", JBool true);
                              ("dashboardData", JObj generatedData)]),
          Log generating :: errors) /\
     keys generatedData = dashboard_members /\
     (forall text, ~ In (Log text) errors)) /\
  (forall a, ~ flagged (fst (getDashboardData NoFile None g s))
                       (fst (getDashboardData NoFile (Some a) g s))).
Proof.
  intros Hup Hstart Hstop. split; [| split; [| split]].
  - unfold getOverviewStats.
    destruct (start_of startDate (clock s)) as [start |]; [| contradiction].
    destruct (end_of endDate (clock s)) as [stop |]; [| contradiction].
    destruct (live_overview_reachable start stop s Hup) as (a & b & c & d & e & f & ->).
    split.
    + unfold flagged. intros [H | H]; apply H; [reflexivity |].
      unfold overview_ok. cbn [fst body shape]. now rewrite live_stats_shape.
    + exists start, stop, (live_stats a b c d e f).
      split; [reflexivity | split; [reflexivity | apply live_stats_shape]].
  - reflexivity.
  - unfold getDashboardData, _getRealStats.
    destruct agg as [a |]; eexists; eexists; (split; [reflexivity |]); split;
      try reflexivity.
    + intros text [].
    + intros text [H | []]. discriminate.
  - intros a. unfold flagged. intros [H | H]; apply H; reflexivity.
Qed.

End MockData.

Section MockDataSample.

Import StatsController Samples.

Lemma mock_responses_have_the_shape_of_live_ones_witness :
  ~ flagged from_fixture from_store /\
  getDashboardData (Parsed dashboard_fixture) (Some no_aggregates) smallest_draws funnel_store
    = (Response 200 (JObj [("success", JBool true); ("dashboardData", dashboard_fixture)]),
       [Log using_fixture]) /\
  exists generatedData,
    getDashboardData NoFile (Some no_aggregates) smallest_draws funnel_store
      = (Response 200 (JObj [("success", JBool true);
                             ("dashboardData", JObj generatedData)]),
         [Log generating]) /\
    keys generatedData = dashboard_members.
Proof.
  destruct (mock_responses_have_the_shape_of_live_ones (R := Num.exact) Absent Absent
              dashboard_fixture (Some no_aggregates) smallest_draws funnel_store)
    as ((H1 & _) & H2 & (data & errors & H3 & H4 & _) & _);
    [reflexivity | discriminate | discriminate |].
  split; [exact H1 |]. split; [exact H2 |].
  exists data. split; [| exact H4].
  rewrite H3. injection H3 as _ <-. reflexivity.
Defined.

(** C4, as stated, fails.  With the fixture file in place the overview
    holds the fixture constants, and yet the response has the status and
    the members of the one computed from the store: nothing in it says that
    the data was substituted, and nothing was written on the console. *)
Lemma overview_from_fixture_is_not_flagged :
  getOverviewStats (R := Num.exact) Absent Absent (Parsed dashboard_fixture) funnel_store
    = (Response 200
         (JObj [("success", JBool true);
                ("period", JObj [("start", JIso (10 - thirty_days)); ("end", JIso 10)]);
                ("stats", overviewStats)]), []) /\
  getOverviewStats (R := Num.exact) Absent Absent NoFile funnel_store
    = (Response 200
         (JObj [("success", JBool true);
                ("period", JObj [("start", JIso (10 - thirty_days)); ("end", JIso 10)]);
                ("stats", live_stats (R := Num.exact) 3 2 1 0 0 0)]), []) /\
  ~ flagged from_fixture from_store.
Proof.
  split; [reflexivity | split; [reflexivity |]].
  unfold flagged. intros [H | H]; apply H; reflexivity.
Qed.

End MockDataSample.

(** ** Product images on update *)

Section ProductImages.

Import ProductController Samples.

Variable b : builtins.

Lemma findById_replace (id : string) (d d0 : document) (l : list (string * document)) :
  findById id l = Some d0 -> findById id (replace id d l) = Some d.
Proof.
  induction l as [| [i d'] l IH]; simpl; [discriminate |].
  destruct (String.eqb i id) eqn:E; simpl; rewrite E; [reflexivity | exact IH].
Qed.

(** One path of [$set] leaves the other members of the document alone. *)
Lemma apply_path_other (s : store) (u : list (string * value)) (p k : string)
    (d d' : document) :
  apply_path s u p d = Some d' -> String.eqb k p = false -> get k d' = get k d.
Proof.
  unfold apply_path. intros H Hne.
  destruct (get p u) as [v |], (inside s p u) as [| x deep]; try discriminate.
  - injection H as <-. now apply get_set_other.
  - now injection H as <-.
  - destruct (write_inside s (x :: deep) (get p d)) as [v |]; [| discriminate].
    injection H as <-. now apply get_set_other.
Qed.

(** A value that [updateData] has for a path is the value of the document
    after an update that went through. *)
Lemma apply_path_written (s : store) (u : list (string * value)) (k : string) (v : value)
    (d d' : document) :
  apply_path s u k d = Some d' -> get k u = Some v -> get k d' = Some v.
Proof.
  unfold apply_path. intros H Hu. rewrite Hu in H.
  destruct (inside s k u); [| discriminate]. injection H as <-. apply get_set_same.
Qed.

Lemma apply_paths_written (s : store) (u : list (string * value)) (k : string) (v : value)
    (paths : list string) :
  get k u = Some v ->
  forall d d', apply_paths s paths u d = Some d' ->
  In k paths \/ get k d = Some v -> get k d' = Some v.
Proof.
  intros Hu. induction paths as [| p paths IH]; cbn [apply_paths]; intros d d' H Hk.
  - injection H as <-. destruct Hk as [[] | Hk]. exact Hk.
  - destruct (apply_path s u p d) as [d1 |] eqn:H1; [| discriminate].
    apply (IH d1 d' H).
    destruct (String.eqb_spec k p) as [-> | Hne].
    + right. now apply (apply_path_written s u p v d).
    + destruct Hk as [[Heq | Hin] | Hd]; [congruence | now left |].
      right. rewrite (apply_path_other s u p k d d1 H1); [exact Hd | now apply String.eqb_neq].
Qed.

Lemma images_after_set (s : store) (oid : string) (u : list (string * value))
    (d d' : document) (items : list value) :
  apply_set s oid u d = Some d' ->
  get "images" u = Some (JArr items) -> images_of d' = items.
Proof.
  unfold apply_set. destruct (same_id s oid u); [| discriminate]. intros H Hu.
  unfold images_of.
  rewrite (apply_paths_written s u "images" (JArr items) schema_paths Hu d d' H);
    [reflexivity |].
  left. cbn. tauto.
Qed.

(** The steps after the images leave [updateData.images] alone. *)
Lemma set_keeps_images (k : string) (v : value) (u : list (string * value)) :
  String.eqb "images" k = false ->
  get "images" (set k v u) = get "images" u.
Proof. apply get_set_other. Qed.

Lemma process_flag_keeps_images (k : string) (u : list (string * value)) :
  String.eqb "images" k = false -> get "images" (process_flag k u) = get "images" u.
Proof.
  intros H. unfold process_flag. destruct (get k u); [now apply set_keeps_images | reflexivity].
Qed.

Lemma process_number_keeps_images (k : string) (parse : value -> value)
    (u : list (string * value)) :
  String.eqb "images" k = false -> get "images" (process_number k parse u) = get "images" u.
Proof.
  intros H. unfold process_number. destruct (get k u); [now apply set_keeps_images | reflexivity].
Qed.

Lemma normalise_keeps_images (u u' : list (string * value)) :
  normalise b u = Some u' -> get "images" u' = get "images" u.
Proof.
  unfold normalise.
  destruct (process_tags b u) as [u1 |] eqn:H1; [| discriminate].
  destruct (process_options b u1) as [u2 |] eqn:H2; [| discriminate].
  intros H. injection H as <-.
  rewrite !process_number_keeps_images, !process_flag_keeps_images by reflexivity.
  assert (E2 : get "images" u2 = get "images" u1).
  { unfold process_options in H2.
    destruct (get "customizationOptions" u1) as [[| | | s | | |] |];
      try (injection H2 as <-; reflexivity).
    destruct (str_empty s); [injection H2 as <-; reflexivity |].
    destruct (json_parse b s); [injection H2 as <- | discriminate].
    now apply set_keeps_images. }
  assert (E1 : get "images" u1 = get "images" u).
  { unfold process_tags in H1.
    destruct (truthy (get "tags" u)); [| injection H1 as <-; reflexivity].
    destruct (get "tags" u) as [[| | | s | | |] |]; try discriminate.
    - injection H1 as <-. now apply set_keeps_images.
    - injection H1 as <-. reflexivity. }
  now rewrite E2, E1.
Qed.

(** C8.  When an update that uploads [n >= 1] files goes through, the
    stored [images] array is the prior array followed by the [n] new
    upload paths, in upload order, if [keepImages] is [true] or ["true"],
    and exactly the [n] new upload paths otherwise.  [oid] is the ObjectId
    of the route parameter, [product] the document it names. *)
Theorem update_stores_uploaded_images (r : request) (s : store) (oid : string)
    (product : document) (file : string) (more : list string) :
  objectId s (id r) = Some oid ->
  findById oid (products s) = Some product ->
  files r = Some (file :: more) ->
  status (fst (updateProduct b r s)) = 200%nat ->
  stored_images oid (snd (updateProduct b r s)) =
    Some ((if is_true (get "keepImages" (updateData r)) then images_of product else [])
          ++ map (fun f => JStr (upload_path f)) (file :: more)).
Proof.
  intros Hid Hfind Hfiles Hok. unfold updateProduct in *.
  destruct (reachable s); cbn [negb] in *; [| discriminate].
  rewrite Hid, Hfind, Hfiles in *.
  destruct (normalise b (process_images (Some (file :: more)) product (updateData r)))
    as [u |] eqn:Hnorm; [| discriminate].
  destruct (apply_set s oid u product) as [d |] eqn:Hset; [| discriminate].
  destruct (validates s d); [| discriminate].
  cbn [snd]. unfold stored_images. cbn [products with_products].
  rewrite (findById_replace oid d product (products s) Hfind).
  f_equal. apply (images_after_set s oid u product d _ Hset).
  rewrite (normalise_keeps_images _ u Hnorm). unfold process_images.
  destruct (is_true (get "keepImages" (updateData r))); apply get_set_same.
Qed.

End ProductImages.

Section ProductImagesSample.

Import ProductController Samples.

Lemma update_stores_uploaded_images_witness :
  stored_images shoe_id (snd (updateProduct plain_builtins two_uploads_kept catalogue)) =
    Some ((if is_true (get "keepImages" (updateData two_uploads_kept))
           then images_of shoe else [])
          ++ map (fun f => JStr (upload_path f)) ["product-1.png"; "product-2.png"]).
Proof.
  apply (update_stores_uploaded_images plain_builtins two_uploads_kept catalogue shoe_id shoe
           "product-1.png" ["product-2.png"]); reflexivity.
Defined.

(** The example of the specification: one prior image, two uploads kept. *)
Lemma update_keeping_images_example :
  stored_images shoe_id (snd (updateProduct plain_builtins two_uploads_kept catalogue)) =
    Some [JStr "/uploads/products/old.png"; JStr "/uploads/products/product-1.png";
          JStr "/uploads/products/product-2.png"].
Proof. reflexivity. Qed.

(** Without [keepImages] the two uploads replace the prior image. *)
Lemma update_replacing_images_example :
  stored_images shoe_id (snd (updateProduct plain_builtins two_uploads catalogue)) =
    Some [JStr "/uploads/products/product-1.png"; JStr "/uploads/products/product-2.png"].
Proof. reflexivity. Qed.

(** The claim is about updates that upload files.  One that uploads none
    does not compute the array: the stored images stay. *)
Lemma update_without_upload_keeps_images :
  files rename_only = Some [] /\
  status (fst (updateProduct plain_builtins rename_only catalogue)) = 200%nat /\
  stored_images shoe_id (snd (updateProduct plain_builtins rename_only catalogue))
    = Some [JStr "/uploads/products/old.png"].
Proof. repeat split. Qed.

End ProductImagesSample.

(** ** Login *)

Section LoginResponses.

Import UserController Samples.

Variable compare : string -> string -> bool.
Variable sign : user -> string.


End LoginResponses.

Section LoginSample.

Import UserController Samples.


(** The right password does log in, so the sample account is live, also
    when the email comes in capitals. *)
Lemma login_right_password_example :
  status (login toy_compare toy_sign
            {| cr_email := "Ana@Exemplo.COM"; cr_password := Some "senha123" |} accounts)
    = 200%nat.
Proof. reflexivity. Qed.


End LoginSample.

(** ** The logging client: sending, dropping, keeping *)

Section ClientDelivery.

Import LoggerClient ClientMethods.


(** X2.  A request that comes back ok takes its batch with it: if nothing but
    quiet actions happen while [flush] awaits, the queue afterwards holds
    exactly the entries logged meanwhile, the batch is no longer in flight,
    and the error handler has not been called. *)
Theorem acknowledged_flush_keeps_only_later_entries (sync : bool) (beacon : option bool)
    (w w1 : world) (id : nat) (during : list action) (code : nat) (json : option value) :
  well_formed w ->
  flush sync beacon w = (w1, Awaiting id) ->
  forallb quiet during = true ->
  eventQueue (self (fst (resume id (HttpResponse true code json) (run during w1))))
    = logged during (sessionId (self w)) (userId (self w)) /\
  inflight (fst (resume id (HttpResponse true code json) (run during w1))) = inflight w /\
  handled (fst (resume id (HttpResponse true code json) (run during w1))) = handled w /\
  requests (fst (resume id (HttpResponse true code json) (run during w1)))
    = requests w ++ [(batch_url w, eventQueue (self w))] /\
  snd (resume id (HttpResponse true code json) (run during w1))
    = Some (match json with
            | Some v => Resolved (Some v)
            | None => RejectedWith BodyUnreadable
            end).
Proof.
  intros Hwf Hflush Hquiet.
  destruct (flush_awaiting _ _ _ _ _ Hflush) as (Hid & Hq1 & Hin1 & Hh1 & Hsid & Huid & Hr1).
  destruct (run_quiet during w1 Hquiet) as (Hq2 & Hin2 & Hh2 & Hr2).
  rewrite Hq1, Hsid, Huid in Hq2. simpl in Hq2.
  assert (Hfind : find_batch id (inflight (run during w1)) = Some (eventQueue (self w))).
  { rewrite Hin2, Hin1. apply find_batch_fresh. subst id. exact Hwf. }
  assert (Hdrop : drop_batch id (inflight (run during w1)) = inflight w).
  { rewrite Hin2, Hin1. subst id. clear - Hwf. unfold well_formed in Hwf.
    induction Hwf as [| [i b0] l Hlt _ IH]; simpl.
    - now rewrite Nat.eqb_refl.
    - simpl in Hlt. destruct (Nat.eqb_spec i (next_id w)); [lia | now rewrite IH]. }
  unfold resume. rewrite Hfind, Hdrop.
  destruct (log_line_frame (sent_line (eventQueue (self w)))
              {| self := self (run during w1); inflight := inflight w;
                 next_id := next_id (run during w1); requests := requests (run during w1);
                 handled := handled (run during w1); console := console (run during w1) |})
    as (Hs & Hi & Hh & Hr & _).
  cbn [fst snd]. rewrite Hs, Hi, Hh, Hr. cbn [self inflight handled requests].
  rewrite Hq2, Hh2, Hh1, Hr2, Hr1. repeat split.
Qed.


End ClientDelivery.

Section ClientDeliverySamples.

Import LoggerClient ClientMethods Samples.


Lemma acknowledged_flush_keeps_only_later_entries_witness :
  eventQueue (self (fst (resume 0 (HttpResponse true 200 (Some (JObj [])))
      (run [log_cart] (fst (flush false None client_with_page_view))))))
    = logged [log_cart] (sessionId (self client_with_page_view))
             (userId (self client_with_page_view)) /\
  handled (fst (resume 0 (HttpResponse true 200 (Some (JObj [])))
      (run [log_cart] (fst (flush false None client_with_page_view)))))
    = handled client_with_page_view.
Proof.
  destruct (acknowledged_flush_keeps_only_later_entries false None client_with_page_view
              (fst (flush false None client_with_page_view)) 0 [log_cart] 200
              (Some (JObj []))) as (Hq & _ & Hh & _).
  - constructor.
  - reflexivity.
  - reflexivity.
  - split; [exact Hq | exact Hh].
Defined.


End ClientDeliverySamples.

Section ClientConservation.

Import LoggerClient ClientMethods.

Lemma held_log_line (line : string) (w : world) : held (log_line line w) = held w.
Proof. unfold held, log_line. now destruct (debug (self w)). Qed.

Lemma batches_without (id : nat) (batch : list entry) (l : list (nat * list entry)) :
  find_batch id l = Some batch ->
  Permutation (concat (map snd l)) (batch ++ concat (map snd (drop_batch id l))).
Proof.
  induction l as [| [i b0] l IH]; simpl; [discriminate |].
  destruct (Nat.eqb i id).
  - intros H. injection H as <-. apply Permutation_refl.
  - intros H. simpl. rewrite app_assoc.
    eapply perm_trans; [apply Permutation_app_head, (IH H) |].
    rewrite !app_assoc. apply Permutation_app_tail, Permutation_app_comm.
Qed.

(** What [flush] does to the entries held: it moves the queue into a batch
    in flight, or hands it to [sendBeacon]. *)
Lemma held_flush (sync : bool) (beacon : option bool) (w : world) :
  Permutation
    (held (fst (flush sync beacon w))
       ++ match sync, beacon with true, Some _ => eventQueue (self w) | _, _ => [] end)
    (held w).
Proof.
  unfold flush. destruct (eventQueue (self w)) as [| e q] eqn:E.
  - cbn [fst]. destruct sync, beacon; rewrite app_nil_r; apply Permutation_refl.
  - assert (Hfetch : Permutation
              (concat (map snd (inflight w ++ [(next_id w, e :: q)])) ++ [])
              ((e :: q) ++ concat (map snd (inflight w)))).
    { rewrite app_nil_r, map_app, concat_app. cbn [map snd concat]. rewrite app_nil_r.
      apply Permutation_app_comm. }
    unfold held. rewrite E.
    destruct sync, beacon; cbn; try exact Hfetch.
    apply (Permutation_app_comm (concat (map snd (inflight w))) (e :: q)).
Qed.

Lemma held_step (w : world) (a : action) :
  Permutation (held (step w a) ++ departed w a)
              (held w ++ logged [a] (sessionId (self w)) (userId (self w))).
Proof.
  destruct a as [t d sev amb | u | | beacon | id r]; cbn [step departed logged].
  - rewrite app_nil_r. unfold logEvent.
    set (e := make_entry (self w) t d sev amb).
    assert (Hpush : Permutation
              (held (log_line "Evento registrado:" (with_queue w (eventQueue (self w) ++ [e]))))
              (held w ++ [e])).
    { rewrite held_log_line. unfold held. cbn [self with_queue eventQueue inflight].
      rewrite <- !app_assoc. apply Permutation_app_head, Permutation_app_comm. }
    destruct (String.eqb sev "error"); [| exact Hpush].
    eapply perm_trans; [| exact Hpush].
    pose proof (held_flush false None
      (log_line "Evento registrado:" (with_queue w (eventQueue (self w) ++ [e])))) as H.
    cbn iota in H. now rewrite app_nil_r in H.
  - rewrite !app_nil_r. unfold setUserId. rewrite held_log_line. apply Permutation_refl.
  - rewrite !app_nil_r. pose proof (held_flush false None w) as H.
    cbn iota in H. now rewrite app_nil_r in H.
  - rewrite app_nil_r. pose proof (held_flush true beacon w) as H.
    destruct beacon; [exact H |]. exact H.
  - rewrite app_nil_r. unfold resume.
    destruct (find_batch id (inflight w)) as [batch |] eqn:Hfind.
    + pose proof (batches_without id batch (inflight w) Hfind) as Hb.
      destruct r as [reason | [|] code json]; cbn [fst].
      * rewrite app_nil_r. unfold requeue, held.
        cbn [fst self with_queue eventQueue inflight].
        rewrite <- app_assoc.
        eapply perm_trans; [apply Permutation_app_comm |].
        rewrite <- app_assoc.
        apply Permutation_app_head.
        eapply perm_trans; [apply Permutation_app_comm |]. now apply Permutation_sym.
      * rewrite held_log_line. unfold held. cbn [self inflight].
        rewrite <- app_assoc. apply Permutation_app_head.
        eapply perm_trans; [apply Permutation_app_comm |]. now apply Permutation_sym.
      * rewrite app_nil_r. unfold requeue, held.
        cbn [fst self with_queue eventQueue inflight].
        rewrite <- app_assoc.
        eapply perm_trans; [apply Permutation_app_comm |].
        rewrite <- app_assoc.
        apply Permutation_app_head.
        eapply perm_trans; [apply Permutation_app_comm |]. now apply Permutation_sym.
    + cbn [fst]. destruct r as [reason | [|] code json]; rewrite app_nil_r; apply Permutation_refl.
Qed.

Lemma step_identity (w : world) (a : action) :
  sessionId (self (step w a)) = sessionId (self w) /\
  userId (self (step w a)) = match a with SetUser u => u | _ => userId (self w) end.
Proof.
  assert (Hflush : forall sync beacon w0,
            sessionId (self (fst (flush sync beacon w0))) = sessionId (self w0) /\
            userId (self (fst (flush sync beacon w0))) = userId (self w0)).
  { intros sync beacon w0. unfold flush. destruct (eventQueue (self w0)); [now split |].
    destruct sync, beacon; now split. }
  destruct a as [t d sev amb | u | | beacon | id r]; cbn [step].
  - unfold logEvent.
    destruct (log_line_frame "Evento registrado:"
                (with_queue w (eventQueue (self w) ++ [make_entry (self w) t d sev amb])))
      as (Hs & _).
    destruct (String.eqb sev "error").
    + destruct (Hflush false None
                  (log_line "Evento registrado:"
                     (with_queue w (eventQueue (self w) ++ [make_entry (self w) t d sev amb]))))
        as [H1 H2].
      rewrite H1, H2, Hs. now split.
    + rewrite Hs. now split.
  - unfold setUserId.
    destruct (log_line_frame "ID do usuário definido:" (with_userId w u)) as (Hs & _).
    rewrite Hs. now split.
  - apply Hflush.
  - apply Hflush.
  - unfold resume. destruct (find_batch id (inflight w)) as [events |]; [| now split].
    destruct r as [reason | [|] code json]; cbn [fst]; try (now split).
    destruct (log_line_frame (sent_line events)
                {| self := self w; inflight := drop_batch id (inflight w);
                   next_id := next_id w; requests := requests w;
                   handled := handled w; console := console w |}) as (Hs & _).
    rewrite Hs. now split.
Qed.

(** X4.  No entry is lost and none is duplicated, whatever happens to the
    client: along any sequence of [logEvent] and [setUserId] calls, timer
    and unload flushes and settling requests, the entries in the queue and
    in the batches in flight, together with those handed to [sendBeacon] or
    acknowledged by the server, are exactly the entries held at the start
    and those logged since, each as often as it was logged. *)
Theorem client_neither_loses_nor_duplicates (actions : list action) : forall w : world,
  Permutation (held (run actions w) ++ departed_during actions w)
              (held w ++ logged actions (sessionId (self w)) (userId (self w))).
Proof.
  induction actions as [| a rest IH]; intros w.
  - cbn. apply Permutation_refl.
  - change (run (a :: rest) w) with (run rest (step w a)).
    cbn [departed_during].
    destruct (step_identity w a) as [Hsid Huid].
    specialize (IH (step w a)). rewrite Hsid, Huid in IH.
    pose proof (held_step w a) as Hstep.
    assert (Hsplit : logged (a :: rest) (sessionId (self w)) (userId (self w))
              = logged [a] (sessionId (self w)) (userId (self w))
                  ++ logged rest (sessionId (self w))
                       match a with SetUser u => u | _ => userId (self w) end).
    { destruct a; reflexivity. }
    rewrite Hsplit.
    eapply perm_trans; [apply Permutation_app_swap_app |].
    eapply perm_trans; [apply Permutation_app_head, IH |].
    eapply perm_trans; [apply Permutation_app_swap_app |].
    rewrite !app_assoc. apply Permutation_app_tail. exact Hstep.
Qed.

End ClientConservation.

(** ** Who reaches which handler *)

Section Guards.

Import Auth Routes AdminRoutes.

Variable verify : string -> option claims.

(** X5.  [isAdmin] has three outcomes: it answers 401 exactly as
    [isAuthenticated] does when the token is missing or does not verify; it
    answers 403 when the token verifies and its role is not ["admin"]; and
    otherwise it calls [next] with the verified payload as [req.user]. *)
Theorem isAdmin_three_outcomes (authorization : option string) :
  (exists r, isAuthenticated verify authorization = Respond r /\
             isAdmin verify authorization = Respond r /\ status r = 401%nat) \/
  (exists c, isAuthenticated verify authorization = Next (Some c) /\
             role c <> Some "admin" /\
             isAdmin verify authorization = Respond forbidden /\
             status forbidden = 403%nat) \/
  (exists c, isAuthenticated verify authorization = Next (Some c) /\
             role c = Some "admin" /\
             isAdmin verify authorization = Next (Some c)).
Proof.
  unfold isAdmin.
  destruct (isAuthenticated verify authorization) as [r | user] eqn:Hauth.
  - left. exists r. repeat split.
    unfold isAuthenticated in Hauth.
    destruct authorization as [h |]; [| injection Hauth as <-; reflexivity].
    destruct (negb (String.prefix "Bearer " h)); [injection Hauth as <-; reflexivity |].
    destruct (second_word h) as [token |]; [| injection Hauth as <-; reflexivity].
    destruct (verify token); [discriminate | injection Hauth as <-; reflexivity].
  - assert (Hsome : exists c, user = Some c).
    { unfold isAuthenticated in Hauth.
      destruct authorization as [h |]; [| discriminate].
      destruct (negb (String.prefix "Bearer " h)); [discriminate |].
      destruct (second_word h) as [token |]; [| discriminate].
      destruct (verify token) as [c |]; [| discriminate].
      injection Hauth as <-. now exists c. }
    destruct Hsome as (c & ->).
    destruct (role c) as [r |] eqn:Hrole.
    + destruct (String.eqb_spec r "admin") as [-> | Hne].
      * right. right. exists c. repeat split; try reflexivity. exact Hrole.
      * right. left. exists c. repeat split; try reflexivity.
        rewrite Hrole. intros H. injection H as ->. now apply Hne.
    + right. left. exists c. repeat split; try reflexivity. rewrite Hrole. discriminate.
Qed.

Lemma second_word_of_bearer (token : string) :
  no_space token = true -> second_word ("Bearer " ++ token)%string = Some token.
Proof.
  intros H. unfold second_word. cbn. f_equal.
  induction token as [| c token IH]; [reflexivity |].
  cbn in H |- *. apply andb_true_iff in H. destruct H as [Hc Ht].
  apply negb_true_iff in Hc. rewrite Hc. now rewrite IH.
Qed.

(** X6.  The token handed to [jwt.verify] is what follows ["Bearer "]: for a
    token without a space, [isAuthenticated] passes the request on with the
    verified payload, and answers 401 when the token does not verify. *)
Theorem isAuthenticated_verifies_bearer_token (token : string) :
  no_space token = true ->
  isAuthenticated verify (Some ("Bearer " ++ token)%string) =
    match verify token with
    | Some c => Next (Some c)
    | None => Respond (unauthorized "Acesso não autorizado. Token inválido ou expirado.")
    end.
Proof.
  intros H. unfold isAuthenticated.
  rewrite (second_word_of_bearer token H).
  change (String.prefix "Bearer " ("Bearer " ++ token)%string) with (String.prefix "" token).
  destruct token; reflexivity.
Qed.

Lemma isAdmin_next (authorization : option string) (user : option claims) :
  isAdmin verify authorization = Next user ->
  isAuthenticated verify authorization = Next user /\ is_admin user.
Proof.
  unfold isAdmin.
  destruct (isAuthenticated verify authorization) as [r | [c |]]; try discriminate.
  destruct (role c) as [r |] eqn:Hrole; [| discriminate].
  destruct (String.eqb_spec r "admin") as [-> | Hne]; [| discriminate].
  intros H. injection H as <-. split; [reflexivity |]. now exists c.
Qed.

(** X7.  Of the statistics routes only [/trends] is behind [isAdmin]: its
    handler runs for a verified admin token and for nothing else, while
    [/overview] and [/dashboard] run for every caller. *)
Theorem statsRoutes_guard_trends_only (authorization : option string) :
  (forall h user,
     Routes.dispatch verify statsRoutes GET ["trends"] authorization = Reached h user ->
     h = GetTrendsData /\ is_admin user) /\
  Routes.dispatch verify statsRoutes GET ["overview"] authorization
    = Reached GetOverviewStats None /\
  Routes.dispatch verify statsRoutes GET ["dashboard"] authorization
    = Reached GetDashboardData None.
Proof.
  split; [| split; reflexivity].
  intros h user. cbn.
  destruct (isAdmin verify authorization) as [r | u] eqn:Hadm; [discriminate |].
  intros H. injection H as <- <-. split; [reflexivity |].
  now apply (isAdmin_next authorization u).
Qed.

End Guards.

Section GuardSamples.

Import Auth Routes AdminRoutes Samples.

Lemma isAuthenticated_verifies_bearer_token_witness :
  isAuthenticated sample_verify (Some "Bearer user-token")
    = Next (Some {| role := Some "user" |}).
Proof.
  apply (isAuthenticated_verifies_bearer_token sample_verify "user-token"). reflexivity.
Defined.

Lemma statsRoutes_guard_trends_only_witness :
  is_admin (Some {| role := Some "admin" |}).
Proof.
  destruct (statsRoutes_guard_trends_only sample_verify admin_header) as [H _].
  apply (H GetTrendsData (Some {| role := Some "admin" |})). reflexivity.
Defined.

End GuardSamples.

Section AdminGuards.

Import Auth Routes AdminRoutes.

Variable verify : string -> option claims.

(** A request that a table answers goes through the chain of one of its
    routes. *)
Lemma dispatch_route (routes : list route) (m : method) (path : list string)
    (authorization : option string) (upload : bool) (res : result) :
  AdminRoutes.dispatch verify routes m path authorization upload = res ->
  res <> Unmatched -> res <> Stopped internal_error [] ->
  exists r, In r routes /\
    run_chain verify (r_chain r) authorization upload None [] (r_handler r) = res.
Proof.
  induction routes as [| r routes IH]; cbn [AdminRoutes.dispatch].
  - intros <- H. now contradiction H.
  - assert (Hrest : AdminRoutes.dispatch verify routes m path authorization upload = res ->
              res <> Unmatched -> res <> Stopped internal_error [] ->
              exists r', In r' (r :: routes) /\
                run_chain verify (r_chain r') authorization upload None [] (r_handler r')
                = res).
    { intros H Hne Herr. destruct (IH H Hne Herr) as (r' & Hin & Hr').
      exists r'. split; [now right | exact Hr']. }
    destruct (matches (r_path r) path); [| exact Hrest].
    destruct (decoded (r_path r) path); cbn [negb].
    + destruct (handles (r_method r) m); [| exact Hrest].
      intros H _ _. exists r. split; [now left | exact H].
    + intros <- _ Herr. now contradiction Herr.
Qed.

Lemma guarded_admin_only (m : method) (p : list segment) (h : handler) :
  public h = false -> guarded verify (Route m p [IsAdmin] h).
Proof.
  intros Hpub authorization upload res. cbn.
  destruct (isAdmin verify authorization) as [r | u] eqn:Hadm; intros <-; cbn.
  - split; [discriminate |]. intros [H | []]. discriminate.
  - split; [| intros [H | []]; discriminate].
    intros h' user ran H. injection H as <- <- <-.
    destruct (isAdmin_next verify authorization u Hadm) as [Hauth (c & -> & Hrole)].
    split; [reflexivity |]. split.
    + intros _. exists c. now split.
    + intros _ _. now exists c.
Qed.

Lemma guarded_admin_upload (m : method) (p : list segment) (h : handler) :
  public h = false -> guarded verify (Route m p [IsAdmin; UploadImages] h).
Proof.
  intros Hpub authorization upload res. cbn.
  destruct (isAdmin verify authorization) as [r | u] eqn:Hadm.
  - intros <-. cbn. split; [discriminate |]. intros [H | []]. discriminate.
  - destruct upload; intros <-; cbn.
    + split; [| intros _; now exists u].
      intros h' user ran H. injection H as <- <- <-.
      destruct (isAdmin_next verify authorization u Hadm) as [Hauth (c & -> & Hrole)].
      split; [reflexivity |]. split.
      * intros _. exists c. now split.
      * intros _ _. now exists c.
    + split; [discriminate | intros _; now exists u].
Qed.

Lemma guarded_authenticated (m : method) (p : list segment) (h : handler) :
  for_any_user h = true -> guarded verify (Route m p [IsAuthenticated] h).
Proof.
  intros Hany authorization upload res. cbn.
  destruct (isAuthenticated verify authorization) as [r | u] eqn:Hauth; intros <-; cbn.
  - split; [discriminate |]. intros [H | []]. discriminate.
  - split; [| intros [H | []]; discriminate].
    intros h' user ran H. injection H as <- <- <-.
    split; [reflexivity |]. split.
    + intros _. unfold isAuthenticated in Hauth.
      destruct authorization as [hd |]; [| discriminate].
      destruct (negb (String.prefix "Bearer " hd)); [discriminate |].
      destruct (second_word hd) as [token |]; [| discriminate].
      destruct (verify token) as [c |]; [| discriminate].
      injection Hauth as <-. exists c. now split.
    + intros _ Hno. rewrite Hany in Hno. discriminate.
Qed.

Lemma guarded_public (m : method) (p : list segment) (h : handler) :
  public h = true -> guarded verify (Route m p [] h).
Proof.
  intros Hpub authorization upload res. cbn. intros <-. cbn. split; [| intros []].
  intros h' user ran H. injection H as <- <- <-.
  split; [reflexivity |]. rewrite Hpub. split; discriminate.
Qed.

Lemma all_admin_routes_guarded (r : route) :
  In r (adminIndex ++ userRoutes ++ productRoutes ++ adminPages) -> guarded verify r.
Proof.
  cbn [adminIndex userRoutes productRoutes adminPages app In].
  intros H.
  repeat (destruct H as [<- | H];
          [ first [ now apply guarded_admin_only
                  | now apply guarded_admin_upload
                  | now apply guarded_authenticated
                  | now apply guarded_public ] | ]).
  contradiction.
Qed.

(** Whatever the admin router answers comes from one of its routes. *)
Lemma adminRoutes_route (m : method) (path : list string) (authorization : option string)
    (upload : bool) (res : result) :
  adminRoutes verify m path authorization upload = res ->
  res <> Unmatched -> res <> Stopped internal_error [] ->
  exists r, In r (adminIndex ++ userRoutes ++ productRoutes ++ adminPages) /\
    run_chain verify (r_chain r) authorization upload None [] (r_handler r) = res.
Proof.
  unfold adminRoutes, or_next, mounted. intros H Hne Herr.
  assert (Hsub : forall routes rest,
            AdminRoutes.dispatch verify routes m rest authorization upload = res ->
            incl routes (adminIndex ++ userRoutes ++ productRoutes ++ adminPages) ->
            exists r, In r (adminIndex ++ userRoutes ++ productRoutes ++ adminPages) /\
              run_chain verify (r_chain r) authorization upload None [] (r_handler r) = res).
  { intros routes rest Hd Hincl.
    destruct (dispatch_route routes m rest authorization upload res Hd Hne Herr)
      as (r0 & Hin & Hr).
    exists r0. split; [now apply Hincl | exact Hr]. }
  assert (Ii : incl adminIndex (adminIndex ++ userRoutes ++ productRoutes ++ adminPages)).
  { intros x Hx. apply in_or_app. now left. }
  assert (Iu : incl userRoutes (adminIndex ++ userRoutes ++ productRoutes ++ adminPages)).
  { intros x Hx. apply in_or_app. right. apply in_or_app. now left. }
  assert (Ip : incl productRoutes (adminIndex ++ userRoutes ++ productRoutes ++ adminPages)).
  { intros x Hx. apply in_or_app. right. apply in_or_app. right. apply in_or_app. now left. }
  assert (Ia : incl adminPages (adminIndex ++ userRoutes ++ productRoutes ++ adminPages)).
  { intros x Hx. apply in_or_app. right. apply in_or_app. right. apply in_or_app. now right. }
  destruct (AdminRoutes.dispatch verify adminIndex m path authorization upload) eqn:H0;
    [apply (Hsub adminIndex path); [now rewrite H0 | exact Ii] ..|].
  assert (Hmount : forall prefix routes,
            incl routes (adminIndex ++ userRoutes ++ productRoutes ++ adminPages) ->
            match below [prefix] path with
            | Some rest => AdminRoutes.dispatch verify routes m rest authorization upload
            | None => Unmatched
            end = res ->
            exists r, In r (adminIndex ++ userRoutes ++ productRoutes ++ adminPages) /\
              run_chain verify (r_chain r) authorization upload None [] (r_handler r)
              = res).
  { intros prefix routes Hincl Hm.
    destruct (below [prefix] path) as [rest |]; [now apply (Hsub routes rest) |].
    now contradiction Hne. }
  destruct (match below ["users"] path with
            | Some rest => AdminRoutes.dispatch verify userRoutes m rest authorization upload
            | None => Unmatched
            end) eqn:Hu;
    [apply (Hmount "users" userRoutes Iu); now rewrite Hu ..|].
  destruct (match below ["products"] path with
            | Some rest => AdminRoutes.dispatch verify productRoutes m rest
                             authorization upload
            | None => Unmatched
            end) eqn:Hp;
    [apply (Hmount "products" productRoutes Ip); now rewrite Hp ..|].
  now apply (Hsub adminPages path).
Qed.

(** X8.  Under [/api/admin] only [login] runs without a token.  Every other
    handler runs with the verified payload of the request's bearer token as
    [req.user], and, [profile] and [change-password] apart, only when that
    payload has the role ["admin"]. *)
Theorem admin_handlers_need_a_token (m : method) (path : list string)
    (authorization : option string) (upload : bool) (h : handler)
    (user : option claims) (ran : list mw) :
  adminRoutes verify m path authorization upload = Entered h user ran ->
  public h = false ->
  (exists c, isAuthenticated verify authorization = Next (Some c) /\ user = Some c) /\
  (for_any_user h = false -> is_admin user).
Proof.
  intros H Hpub.
  destruct (adminRoutes_route m path authorization upload _ H) as (r & Hin & Hr);
    [discriminate | discriminate |].
  destruct (all_admin_routes_guarded r Hin authorization upload _ Hr) as [Hent _].
  destruct (Hent h user ran eq_refl) as (_ & Htok & Hadm).
  split; [now apply Htok | now apply Hadm].
Qed.

(** X9.  Multer runs after [isAdmin] on every route that has it: a request under
    [/api/admin] whose files reach the upload middleware carries a verified
    admin token, whether the request then enters the handler or not. *)
Theorem uploads_only_from_admins (m : method) (path : list string)
    (authorization : option string) (upload : bool) :
  In UploadImages (ran_of (adminRoutes verify m path authorization upload)) ->
  exists user, isAdmin verify authorization = Next user /\ is_admin user.
Proof.
  intros H.
  destruct (adminRoutes verify m path authorization upload) as [r ran | h u ran |] eqn:E;
    [| | destruct H].
  - destruct (adminRoutes_route m path authorization upload _ E) as (r0 & Hin & Hr);
      [discriminate | intros Heq; injection Heq as _ ->; destruct H |].
    destruct (all_admin_routes_guarded r0 Hin authorization upload _ Hr) as [_ Hup].
    destruct (Hup H) as (user & Hadm). exists user. split; [exact Hadm |].
    now apply (isAdmin_next verify authorization user).
  - destruct (adminRoutes_route m path authorization upload _ E) as (r0 & Hin & Hr);
      [discriminate | discriminate |].
    destruct (all_admin_routes_guarded r0 Hin authorization upload _ Hr) as [_ Hup].
    destruct (Hup H) as (user & Hadm). exists user. split; [exact Hadm |].
    now apply (isAdmin_next verify authorization user).
Qed.

(** A path below [/api/logs] is below neither of the other two mounts, and
    it is not the root. *)
Lemma below_logs_only (path rest : list string) :
  below ["api"; "logs"] path = Some rest ->
  below ["api"; "stats"] path = None /\ below ["api"; "admin"] path = None /\
  matches [] path = false.
Proof.
  destruct path as [| a [| l tail]]; cbn [below]; try discriminate.
  - destruct (same_word "api" a); discriminate.
  - destruct (same_word "api" a); [| discriminate].
    destruct (same_word "logs" l) eqn:Hl; [| discriminate]. intros _.
    rewrite (same_word_other "logs" "stats" l Hl), (same_word_other "logs" "admin" l Hl).
    repeat split.
Qed.

(** A table without middlewares ends a request at the first route whose
    path matches and whose parameters cannot be decoded; otherwise it
    enters the handler of the first route that takes the request, or lets
    the request pass. *)
Lemma dispatch_unguarded_cases (routes : list Routes.route) (m : method)
    (rest : list string) (authorization : option string) :
  (forall r, In r routes -> Routes.r_chain r = []) ->
  (exists r, In r routes /\ Routes.matches (Routes.r_path r) rest = true /\
             decoded (Routes.r_path r) rest = false /\
             Routes.dispatch verify routes m rest authorization = Rejected internal_error) \/
  (exists r, In r routes /\ handles (Routes.r_method r) m = true /\
             Routes.matches (Routes.r_path r) rest = true /\
             decoded (Routes.r_path r) rest = true /\
             Routes.dispatch verify routes m rest authorization
               = Reached (Routes.r_handler r) None) \/
  ((forall r, In r routes ->
      handles (Routes.r_method r) m && Routes.matches (Routes.r_path r) rest = false) /\
   Routes.dispatch verify routes m rest authorization = NotFound).
Proof.
  induction routes as [| r routes IH]; intros Hchain; cbn [Routes.dispatch].
  - right. right. split; [intros r [] | reflexivity].
  - assert (Hrest : handles (Routes.r_method r) m && Routes.matches (Routes.r_path r) rest
                    = false ->
              (exists r', In r' (r :: routes) /\
                 Routes.matches (Routes.r_path r') rest = true /\
                 decoded (Routes.r_path r') rest = false /\
                 Routes.dispatch verify routes m rest authorization
                 = Rejected internal_error) \/
              (exists r', In r' (r :: routes) /\ handles (Routes.r_method r') m = true /\
                 Routes.matches (Routes.r_path r') rest = true /\
                 decoded (Routes.r_path r') rest = true /\
                 Routes.dispatch verify routes m rest authorization
                 = Reached (Routes.r_handler r') None) \/
              ((forall r', In r' (r :: routes) ->
                  handles (Routes.r_method r') m
                  && Routes.matches (Routes.r_path r') rest = false) /\
               Routes.dispatch verify routes m rest authorization = NotFound)).
    { intros E.
      destruct IH as [(r' & Hin & H1 & H2 & H3) | [(r' & Hin & H1 & H2 & H3 & H4) | [Hnone Hd]]].
      - intros r' Hr'. apply Hchain. now right.
      - left. exists r'. split; [now right |]. now repeat split.
      - right. left. exists r'. split; [now right |]. now repeat split.
      - right. right. split; [| exact Hd].
        intros r' [<- | Hr']; [exact E | now apply Hnone]. }
    destruct (Routes.matches (Routes.r_path r) rest) eqn:Hp;
      [| apply Hrest; now rewrite andb_false_r].
    destruct (decoded (Routes.r_path r) rest) eqn:Hdec; cbn [negb].
    + destruct (handles (Routes.r_method r) m) eqn:Hm; [| now apply Hrest].
      right. left. exists r. split; [now left |]. repeat split; try assumption.
      now rewrite (Hchain r (or_introl eq_refl)).
    + left. exists r. split; [now left |]. now repeat split.
Qed.

Lemma logRoutes_chains (r : Routes.route) : In r logRoutes -> Routes.r_chain r = [].
Proof. intros Hr. repeat (destruct Hr as [<- | Hr]; [reflexivity |]). destruct Hr. Qed.

(** No route of the log router has the path [/batch]. *)
Lemma batch_is_no_log_route (rest : list string) (r : Routes.route) :
  Routes.matches [Lit "batch"] rest = true -> In r logRoutes ->
  Routes.matches (Routes.r_path r) rest = false.
Proof.
  intros Hb Hr.
  destruct rest as [| x tail]; [discriminate |]. cbn [Routes.matches] in Hb.
  apply andb_true_iff in Hb. destruct Hb as [Hx _].
  repeat (destruct Hr as [<- | Hr];
          [cbn [Routes.matches Routes.r_path];
           rewrite (same_word_other "batch" _ x Hx); reflexivity |]).
  destruct Hr.
Qed.

(** X10.  Under [/api/logs], in whatever case the address is written, the
    application serves the five routes of the log router and nothing else.
    An OPTIONS request is answered by [cors], and a request whose body
    cannot be parsed by the error middleware, as is one whose path matches
    a route with a parameter that cannot be decoded; any other request
    either is taken by one of the five routes, a HEAD request by a route
    for GET, and enters its handler without any middleware having looked
    at it, or it falls through the three mounted routers to the final
    middleware, which answers 404.  The last is what happens to
    [/api/logs/batch], the address the logging client posts its batches
    to. *)
Theorem log_api_serves_its_five_routes_only (m : method) (path rest : list string)
    (authorization : option string) (parsed upload : bool) :
  below ["api"; "logs"] path = Some rest ->
  (m = OPTIONS -> app verify m path authorization parsed upload = Preflight) /\
  (m <> OPTIONS -> parsed = false ->
   app verify m path authorization parsed upload = BodyRejected internal_error) /\
  (m <> OPTIONS -> parsed = true ->
   (exists r, In r logRoutes /\ Routes.matches (Routes.r_path r) rest = true /\
              decoded (Routes.r_path r) rest = false /\
              app verify m path authorization parsed upload
                = ByLogs (Rejected internal_error)) \/
   (exists r, In r logRoutes /\ handles (Routes.r_method r) m = true /\
              Routes.matches (Routes.r_path r) rest = true /\
              decoded (Routes.r_path r) rest = true /\
              app verify m path authorization parsed upload
                = ByLogs (Reached (Routes.r_handler r) None)) \/
   ((forall r, In r logRoutes ->
       handles (Routes.r_method r) m && Routes.matches (Routes.r_path r) rest = false) /\
    app verify m path authorization parsed upload = NoRoute route_not_found)) /\
  (m <> OPTIONS -> parsed = true -> Routes.matches [Lit "batch"] rest = true ->
   app verify m path authorization parsed upload = NoRoute route_not_found /\
   status route_not_found = 404%nat).
Proof.
  intros Hbelow.
  destruct (below_logs_only path rest Hbelow) as (Hstats & Hadmin & Hroot).
  assert (Happ : m <> OPTIONS ->
            app verify m path authorization true upload
            = match Routes.dispatch verify logRoutes m rest authorization with
              | NotFound => NoRoute route_not_found
              | d => ByLogs d
              end).
  { intros Hm. unfold app. rewrite Hbelow, Hstats, Hadmin, Hroot, andb_false_r.
    cbn [negb].
    destruct m; try (now contradiction Hm);
      now destruct (Routes.dispatch verify logRoutes _ rest authorization). }
  split; [intros ->; reflexivity |]. split; [| split].
  - intros Hm ->. destruct m; try reflexivity. now contradiction Hm.
  - intros Hm ->. rewrite (Happ Hm).
    destruct (dispatch_unguarded_cases logRoutes m rest authorization logRoutes_chains)
      as [(r & Hin & H1 & H2 & H3) | [(r & Hin & H1 & H2 & H3 & H4) | [Hnone Hd]]].
    + left. exists r. rewrite H3. now repeat split.
    + right. left. exists r. rewrite H4. now repeat split.
    + right. right. split; [exact Hnone |]. now rewrite Hd.
  - intros Hm -> Hbatch. split; [| reflexivity]. rewrite (Happ Hm).
    destruct (dispatch_unguarded_cases logRoutes m rest authorization logRoutes_chains)
      as [(r & Hin & H2 & _) | [(r & Hin & _ & H2 & _) | [_ Hd]]].
    + rewrite (batch_is_no_log_route rest r Hbatch Hin) in H2. discriminate.
    + rewrite (batch_is_no_log_route rest r Hbatch Hin) in H2. discriminate.
    + now rewrite Hd.
Qed.

End AdminGuards.

Section AdminGuardSamples.

Import Auth Routes AdminRoutes Samples.

Lemma admin_handlers_need_a_token_witness :
  (exists c, isAuthenticated sample_verify admin_header = Next (Some c) /\
             Some {| role := Some "admin" |} = Some c) /\
  (for_any_user UpdateProduct = false -> is_admin (Some {| role := Some "admin" |})).
Proof.
  apply (admin_handlers_need_a_token sample_verify PUT ["products"; shoe_id] admin_header true
           UpdateProduct (Some {| role := Some "admin" |}) [IsAdmin; UploadImages]);
    reflexivity.
Defined.

Lemma uploads_only_from_admins_witness :
  exists user, isAdmin sample_verify admin_header = Next user /\ is_admin user.
Proof.
  apply (uploads_only_from_admins sample_verify POST ["products"] admin_header false).
  cbn. right. left. reflexivity.
Defined.

(** [GET /API/Logs/COUNTS/] enters [getEventCounts], a HEAD request too,
    and a POST to [/api/logs/batch] is answered 404. *)
Lemma log_api_serves_its_five_routes_only_witness :
  app sample_verify GET ["API"; "Logs"; "COUNTS"; ""] None true true
    = ByLogs (Reached GetEventCounts None) /\
  app sample_verify HEAD ["api"; "logs"; "counts"] None true true
    = ByLogs (Reached GetEventCounts None) /\
  app sample_verify POST ["api"; "logs"; "batch"] None true true
    = NoRoute route_not_found.
Proof.
  split; [reflexivity | split; [reflexivity |]].
  destruct (log_api_serves_its_five_routes_only sample_verify POST ["api"; "logs"; "batch"]
              ["batch"] None true true eq_refl) as (_ & _ & _ & H).
  destruct H as [H _]; [discriminate | reflexivity | reflexivity | exact H].
Defined.

(** What [decodeURIComponent] takes and what it throws on: an escape cut
    short or not in hex, a sequence cut short, an overlong form, a
    surrogate. *)
Lemma decodable_examples :
  map decodable ["product_view"; "caf%C3%A9"; "%F0%9F%98%80"; "%"; "%zz"; "%C3"; "%C0%80";
                 "%ED%A0%80"]
  = [true; true; true; false; false; false; false; false].
Proof. reflexivity. Qed.

(** A request for the events of a type that cannot be decoded ends at the
    error middleware, whatever its method; the handler is not entered. *)
Lemma undecodable_type_is_an_error :
  app sample_verify GET ["api"; "logs"; "events"; "%E0%A4%A"] None true true
    = ByLogs (Rejected internal_error) /\
  app sample_verify POST ["api"; "logs"; "events"; "%E0%A4%A"] None true true
    = ByLogs (Rejected internal_error) /\
  status internal_error = 500%nat.
Proof. repeat split. Qed.

End AdminGuardSamples.

(** ** Sorting and grouping *)

Section ListFacts.

Variable A : Type.

Lemma skipn_incl (n : nat) (l : list A) (b : A) : In b (skipn n l) -> In b l.
Proof.
  revert l. induction n as [| n IH]; intros [| y l]; cbn; try tauto.
  intros H. right. now apply IH.
Qed.

Lemma firstn_incl (n : nat) (l : list A) (a : A) : In a (firstn n l) -> In a l.
Proof.
  revert l. induction n as [| n IH]; intros [| y l]; cbn; try tauto.
  intros [<- | H]; [now left | right; now apply IH].
Qed.

End ListFacts.

Section SortingFacts.

Import Sorting.

Variable A : Type.
Variable measure : A -> Z.

Lemma insert_desc_perm (x : A) (l : list A) : Permutation (insert_desc measure x l) (x :: l).
Proof.
  induction l as [| y l IH]; cbn; [reflexivity |].
  destruct (measure y <=? measure x); [reflexivity |].
  rewrite IH. apply perm_swap.
Qed.

Lemma sort_desc_perm (l : list A) : Permutation (sort_desc measure l) l.
Proof.
  induction l as [| x l IH]; cbn; [reflexivity |].
  rewrite insert_desc_perm. now constructor.
Qed.

Lemma sort_desc_length (l : list A) : List.length (sort_desc measure l) = List.length l.
Proof. apply Permutation_length, sort_desc_perm. Qed.

Lemma sort_desc_In (x : A) (l : list A) : In x (sort_desc measure l) <-> In x l.
Proof.
  split; apply Permutation_in; [apply sort_desc_perm | symmetry; apply sort_desc_perm].
Qed.

Lemma insert_desc_descending (x : A) (l : list A) :
  descending measure l -> descending measure (insert_desc measure x l).
Proof.
  unfold descending. induction 1 as [| y l Hl IH Hy]; cbn.
  - constructor; constructor.
  - destruct (Z.leb_spec (measure y) (measure x)) as [Hle | Hgt].
    + constructor; [now constructor |].
      constructor; [exact Hle |].
      eapply Forall_impl; [| exact Hy]. cbn. intros a Ha. lia.
    + constructor; [exact IH |].
      eapply Permutation_Forall; [symmetry; apply insert_desc_perm |].
      constructor; [lia | exact Hy].
Qed.

Lemma sort_desc_descending (l : list A) : descending measure (sort_desc measure l).
Proof.
  induction l as [| x l IH]; cbn; [constructor | now apply insert_desc_descending].
Qed.

(** In a descending list nothing after the first [n] elements is larger
    than one of them. *)
Lemma descending_firstn_skipn (n : nat) (l : list A) (a b : A) :
  descending measure l -> In a (firstn n l) -> In b (skipn n l) -> measure b <= measure a.
Proof.
  unfold descending. intros Hl. revert n.
  induction Hl as [| y l Hl IH Hy]; intros [| n]; cbn; try tauto.
  intros [<- | Ha] Hb.
  - rewrite Forall_forall in Hy. apply Hy. now apply (skipn_incl _ n).
  - now apply (IH n).
Qed.

Lemma descending_firstn (n : nat) (l : list A) :
  descending measure l -> descending measure (firstn n l).
Proof.
  unfold descending. intros H. revert n.
  induction H as [| x l Hl IH Hx]; intros [| n]; cbn; try constructor.
  - apply IH.
  - rewrite Forall_forall in *. intros y Hy. apply Hx. now apply (firstn_incl _ n).
Qed.

End SortingFacts.

Section GroupingFacts.

Import Aggregate.

Variables K A : Type.
Variable eqb : K -> K -> bool.
Hypothesis eqb_spec : forall a b : K, eqb a b = true <-> a = b.

Lemma eqb_refl (k : K) : eqb k k = true.
Proof. now apply eqb_spec. Qed.

Lemma occurrences_app (k : K) (l1 l2 : list (K * A)) :
  occurrences eqb k (l1 ++ l2) = (occurrences eqb k l1 + occurrences eqb k l2)%nat.
Proof. unfold occurrences. now rewrite filter_app, length_app. Qed.

Lemma enter_ids (k : K) (a : A) (groups : list (group K A)) (k' : K) :
  In k' (map g_id (enter eqb k a groups)) <-> In k' (map g_id groups) \/ k' = k.
Proof.
  induction groups as [| g rest IH]; cbn.
  - intuition.
  - destruct (eqb (g_id g) k) eqn:E; cbn.
    + apply eqb_spec in E. intuition congruence.
    + rewrite IH. tauto.
Qed.

Lemma enter_NoDup (k : K) (a : A) (groups : list (group K A)) :
  NoDup (map g_id groups) -> NoDup (map g_id (enter eqb k a groups)).
Proof.
  induction groups as [| g rest IH]; cbn; intros H.
  - constructor; [intros [] | constructor].
  - inversion H as [| x l Hnin Hnd]; subst.
    destruct (eqb (g_id g) k) eqn:E; cbn.
    + now constructor.
    + constructor; [| now apply IH].
      rewrite enter_ids. intros [Hin | Heq]; [now apply Hnin |].
      apply eqb_spec in Heq. congruence.
Qed.

Lemma enter_total (k : K) (a : A) (groups : list (group K A)) :
  total (enter eqb k a groups) = S (total groups).
Proof.
  unfold total. induction groups as [| g rest IH]; cbn; [reflexivity |].
  destruct (eqb (g_id g) k); cbn; [reflexivity | rewrite IH; lia].
Qed.

Lemma enter_In (k : K) (a : A) (groups : list (group K A)) (g : group K A) :
  NoDup (map g_id groups) ->
  In g (enter eqb k a groups) ->
  (In g groups /\ g_id g <> k) \/
  (g_id g = k /\
   ((exists g0, In g0 groups /\ g_id g0 = k /\ g_count g = S (g_count g0)) \/
    (~ In k (map g_id groups) /\ g_count g = 1%nat))).
Proof.
  induction groups as [| g1 rest IH]; cbn; intros Hnd Hin.
  - destruct Hin as [<- | []]. right. cbn. split; [reflexivity |]. right. tauto.
  - inversion Hnd as [| x l Hnin Hnd']; subst.
    destruct (eqb (g_id g1) k) eqn:E.
    + apply eqb_spec in E. destruct Hin as [<- | Hin].
      * right. cbn. split; [exact E |]. left. exists g1. tauto.
      * left. split; [now right |]. intros Heq. apply Hnin. rewrite E, <- Heq.
        now apply in_map.
    + assert (Hne : g_id g1 <> k).
      { intros Heq. apply eqb_spec in Heq. congruence. }
      destruct Hin as [<- | Hin].
      * left. split; [now left | exact Hne].
      * destruct (IH Hnd' Hin) as [[H1 H2] | [H1 [(g0 & H2 & H3 & H4) | [H2 H3]]]].
        -- left. split; [now right | exact H2].
        -- right. split; [exact H1 |]. left. exists g0. tauto.
        -- right. split; [exact H1 |]. right. split; [| exact H3].
           intros [Heq | Hin']; [now apply Hne | now apply H2].
Qed.

Lemma enter_has (k : K) (a : A) (groups : list (group K A)) :
  exists g, In g (enter eqb k a groups) /\ g_id g = k.
Proof.
  induction groups as [| g1 rest IH]; cbn.
  - eexists. split; [now left | reflexivity].
  - destruct (eqb (g_id g1) k) eqn:E.
    + apply eqb_spec in E. eexists. split; [now left | exact E].
    + destruct IH as (g & Hin & Hid). exists g. split; [now right | exact Hid].
Qed.

Lemma enter_keeps (k : K) (a : A) (groups : list (group K A)) (g : group K A) :
  In g groups -> exists g', In g' (enter eqb k a groups) /\ g_id g' = g_id g.
Proof.
  induction groups as [| g1 rest IH]; cbn; [tauto |].
  intros [<- | Hin].
  - destruct (eqb (g_id g1) k); eexists; (split; [now left | reflexivity]).
  - destruct (eqb (g_id g1) k).
    + exists g. split; [now right | reflexivity].
    + destruct (IH Hin) as (g' & Hin' & Hid). exists g'. split; [now right | exact Hid].
Qed.

Lemma occurrences_one (k : K) (d : K * A) :
  occurrences eqb k [d] = if eqb (fst d) k then 1%nat else 0%nat.
Proof. unfold occurrences. cbn. now destruct (eqb (fst d) k). Qed.

Lemma occurrences_absent (k : K) (seen : list (K * A)) (groups : list (group K A)) :
  grouped eqb seen groups -> ~ In k (map g_id groups) -> occurrences eqb k seen = 0%nat.
Proof.
  intros (_ & _ & Hall & _) Hnin. unfold occurrences.
  induction seen as [| d seen IH]; cbn; [reflexivity |].
  destruct (eqb (fst d) k) eqn:E.
  - exfalso. apply eqb_spec in E. destruct (Hall d (or_introl eq_refl)) as (g & Hin & Hid).
    apply Hnin. rewrite <- E, <- Hid. now apply in_map.
  - apply IH. intros d' Hd'. apply Hall. now right.
Qed.

Lemma grouped_enter (seen : list (K * A)) (groups : list (group K A)) (d : K * A) :
  grouped eqb seen groups -> grouped eqb (seen ++ [d]) (enter eqb (fst d) (snd d) groups).
Proof.
  intros Hg. pose proof Hg as (Hnd & Hcount & Hall & Htot).
  split; [now apply enter_NoDup |]. split; [| split].
  - intros g Hin. rewrite occurrences_app, occurrences_one.
    destruct (enter_In _ _ _ _ Hnd Hin) as [[H1 H2] | [H1 [(g0 & H2 & H3 & H4) | [H2 H3]]]].
    + destruct (Hcount g H1) as [Hpos Heq].
      destruct (eqb (fst d) (g_id g)) eqn:E.
      * apply eqb_spec in E. congruence.
      * split; [exact Hpos | lia].
    + destruct (Hcount g0 H2) as [Hpos Heq].
      rewrite H1, eqb_refl. rewrite H3 in Heq. split; lia.
    + rewrite H1, eqb_refl. rewrite (occurrences_absent _ _ _ Hg H2). split; lia.
  - intros d' Hd'. apply in_app_or in Hd'. destruct Hd' as [Hd' | [<- | []]].
    + destruct (Hall d' Hd') as (g & Hin & Hid).
      destruct (enter_keeps (fst d) (snd d) groups g Hin) as (g' & Hin' & Hid').
      exists g'. split; [exact Hin' | congruence].
    + apply enter_has.
  - rewrite enter_total, length_app. cbn. lia.
Qed.

Lemma grouped_fold (docs seen : list (K * A)) (groups : list (group K A)) :
  grouped eqb seen groups ->
  grouped eqb (seen ++ docs) (fold_left (fun gs d => enter eqb (fst d) (snd d) gs) docs groups).
Proof.
  revert seen groups. induction docs as [| d docs IH]; intros seen groups Hg; cbn.
  - now rewrite app_nil_r.
  - replace (seen ++ d :: docs) with ((seen ++ [d]) ++ docs) by now rewrite <- app_assoc.
    apply IH. now apply grouped_enter.
Qed.

(** [$group] partitions the documents by key. *)
Lemma group_by_grouped (docs : list (K * A)) : grouped eqb docs (group_by eqb docs).
Proof.
  apply (grouped_fold docs [] []).
  split; [constructor |]. split; [intros g [] |]. split; [intros d [] | reflexivity].
Qed.

Lemma total_perm (l1 l2 : list (group K A)) : Permutation l1 l2 -> total l1 = total l2.
Proof.
  unfold total. induction 1; cbn; lia.
Qed.

(** Sorting the groups keeps the partition. *)
Lemma grouped_sorted (docs : list (K * A)) :
  grouped eqb docs (Sorting.sort_desc views (group_by eqb docs)).
Proof.
  destruct (group_by_grouped docs) as (Hnd & Hcount & Hall & Htot).
  pose proof (sort_desc_perm _ views (group_by eqb docs)) as Hperm.
  split; [| split; [| split]].
  - apply (Permutation_NoDup (l := map g_id (group_by eqb docs))); [| exact Hnd].
    apply Permutation_map. now symmetry.
  - intros g Hin. apply Hcount. now apply (sort_desc_In _ views).
  - intros d Hd. destruct (Hall d Hd) as (g & Hin & Hid). exists g.
    split; [now apply (sort_desc_In _ views) | exact Hid].
  - rewrite <- Htot. now apply total_perm.
Qed.

End GroupingFacts.

(** ** The query handlers of the log controller *)

Section LogQueryFacts.

Import EventModel LogController LogQueries Aggregate Sorting.

Lemma type_eqb_spec (a b : option string) : type_eqb a b = true <-> a = b.
Proof.
  destruct a as [x |], b as [y |]; cbn; try (split; [discriminate | congruence]).
  - rewrite String.eqb_eq. split; congruence.
  - tauto.
Qed.

Lemma type_eqb_has_type (t : string) (e : event) :
  type_eqb (type_of e) (Some t) = has_type t e.
Proof.
  unfold type_of, has_type. destruct (ev_eventType e) as [[| | | t' | | |] |]; cbn;
    try reflexivity.
  apply String.eqb_sym.
Qed.

(** The documents [countByType] puts in the group of [t] are those the
    funnel counts for the stage [t]. *)
Lemma occurrences_count_of (t : string) (start stop : Z) (s : store) :
  Z.of_nat (occurrences type_eqb (Some t) (typed_in_window start stop s))
    = count_of t start stop s.
Proof.
  unfold occurrences, typed_in_window, count_of. f_equal.
  induction (events s) as [| e l IH]; cbn; [reflexivity |].
  destruct (in_window start stop e) eqn:Hw; cbn.
  - rewrite type_eqb_has_type, andb_true_r. destruct (has_type t e); cbn; now rewrite IH.
  - now rewrite andb_false_r.
Qed.

(** X11.  An event that [POST /event] stored is counted from then on: for every
    window that contains the time of the request, the count of the event's
    type goes up by one, the counts of the other types stay, and the total
    of the overview goes up by one. *)
Theorem logged_event_is_counted (r : request) (s s' : store) (resp : response)
    (t : string) (start stop : Z) :
  logEvent r s = (resp, s') ->
  status resp = 201%nat ->
  eventType r = Some (JStr t) ->
  start <= clock s <= stop ->
  (forall stage, count_of stage start stop s'
                 = count_of stage start stop s + (if String.eqb stage t then 1 else 0)) /\
  countDocuments None start stop s'
    = option_map (fun n => n + 1) (countDocuments None start stop s).
Proof.
  unfold logEvent. intros H Hst Ht Hw.
  destruct (incomplete r); [injection H as <- <-; discriminate |].
  destruct (new_event r s) as [e |] eqn:He; [| injection H as <- <-; discriminate].
  unfold save in H. destruct (accepts s e) eqn:Hacc;
    [| injection H as <- <-; discriminate].
  injection H as _ <-.
  destruct (new_event_fields r s e He) as (Htype & _ & _ & _ & _ & _ & Htime).
  rewrite Ht in Htype. cbn in Htype. injection Htype as Htype.
  assert (Hin : in_window start stop (stored e) = true).
  { unfold in_window. cbn [stored ev_timestamp]. rewrite Htime.
    apply andb_true_iff. split; apply Z.leb_le; lia. }
  split.
  - intros stage. unfold count_of. cbn [events with_events].
    rewrite filter_app, length_app, Nat2Z.inj_add. f_equal.
    cbn [filter]. rewrite Hin, andb_true_r.
    unfold has_type. cbn [stored ev_eventType]. rewrite <- Htype.
    now destruct (String.eqb stage t).
  - unfold countDocuments. cbn [reachable events with_events].
    destruct (reachable s); [| reflexivity]. cbn [option_map]. f_equal.
    rewrite filter_app, length_app, Nat2Z.inj_add. f_equal.
    cbn [filter]. now rewrite Hin.
Qed.

(** X12.  [GET /counts] partitions the events of the window by type: every type
    that occurs has exactly one entry, whose count is the number the funnel
    reports for that type; the counts add up to the number of events in the
    window; and the entries come by decreasing count. *)
Theorem getEventCounts_partitions_window (startDate endDate : date_param) (s : store)
    (start stop : Z) :
  reachable s = true ->
  start_of startDate (clock s) = Some start ->
  end_of endDate (clock s) = Some stop ->
  getEventCounts startDate endDate s = counts_found start stop (countByType start stop s) /\
  NoDup (map g_id (countByType start stop s)) /\
  (forall g, In g (countByType start stop s) ->
     (0 < g_count g)%nat /\
     forall t, g_id g = Some t -> Z.of_nat (g_count g) = count_of t start stop s) /\
  (forall t, 0 < count_of t start stop s ->
     exists g, In g (countByType start stop s) /\ g_id g = Some t) /\
  countDocuments None start stop s = Some (Z.of_nat (total (countByType start stop s))) /\
  descending views (countByType start stop s).
Proof.
  intros Hr Hs He.
  destruct (grouped_sorted _ _ type_eqb type_eqb_spec (typed_in_window start stop s))
    as (Hnd & Hcount & Hall & Htot).
  fold (countByType start stop s) in Hnd, Hcount, Hall, Htot.
  split; [| split; [exact Hnd | split; [| split; [| split]]]].
  - unfold getEventCounts. now rewrite Hs, He, Hr.
  - intros g Hin. destruct (Hcount g Hin) as [Hpos Heq]. split; [exact Hpos |].
    intros t Hid. rewrite Heq, Hid. apply occurrences_count_of.
  - intros t Hpos. rewrite <- occurrences_count_of in Hpos.
    unfold occurrences in Hpos.
    destruct (filter (fun d => type_eqb (fst d) (Some t)) (typed_in_window start stop s))
      as [| d l] eqn:E; [cbn in Hpos; lia |].
    assert (Hd : In d (filter (fun d => type_eqb (fst d) (Some t))
                              (typed_in_window start stop s))).
    { rewrite E. now left. }
    apply filter_In in Hd. destruct Hd as [Hd Hk]. apply type_eqb_spec in Hk.
    destruct (Hall d Hd) as (g & Hin & Hid). exists g. split; [exact Hin | congruence].
  - unfold countDocuments. rewrite Hr, Htot. unfold typed_in_window.
    rewrite length_map. reflexivity.
  - apply sort_desc_descending.
Qed.

(** X13.  [GET /events/:type] answers with the newest events of the type in the
    window: all of them when there are no more than the limit, and
    otherwise as many as the limit, none of them older than an event of
    that type and window which is left out. *)
Theorem getEventsByType_lists_the_newest (t : string) (startDate endDate : date_param)
    (limit_q : option nat) (s : store) (start stop : Z) :
  reachable s = true ->
  match startDate with
  | Absent => Some (clock s - seven_days) | Valid ms => Some ms | Invalid => None
  end = Some start ->
  end_of endDate (clock s) = Some stop ->
  (0 < limit_or 100 limit_q)%nat ->
  let found := listed t start stop (limit_or 100 limit_q) s in
  getEventsByType t startDate endDate limit_q s = events_found found /\
  List.length found
    = Nat.min (limit_or 100 limit_q) (Z.to_nat (count_of t start stop s)) /\
  descending ev_timestamp found /\
  exists rest,
    Permutation (found ++ rest)
      (filter (fun e => has_type t e && in_window start stop e) (events s)) /\
    forall a b, In a found -> In b rest -> ev_timestamp b <= ev_timestamp a.
Proof.
  intros Hr Hs He Hn found.
  set (all := findByTypeAndPeriod t start stop s).
  assert (Hfound : found = firstn (limit_or 100 limit_q) all).
  { unfold found, listed, limit. fold all.
    destruct (limit_or 100 limit_q); [lia | reflexivity]. }
  assert (Hdesc : descending ev_timestamp all) by apply sort_desc_descending.
  split; [| split; [| split]].
  - unfold getEventsByType. now rewrite Hs, He, Hr.
  - rewrite Hfound, length_firstn. unfold all, findByTypeAndPeriod.
    rewrite sort_desc_length. unfold count_of. now rewrite Nat2Z.id.
  - rewrite Hfound. now apply descending_firstn.
  - exists (skipn (limit_or 100 limit_q) all). split.
    + rewrite Hfound, firstn_skipn. apply sort_desc_perm.
    + intros a b Ha Hb. rewrite Hfound in Ha.
      now apply (descending_firstn_skipn _ ev_timestamp (limit_or 100 limit_q) all).
Qed.

End LogQueryFacts.

Section MostViewedFacts.

Import EventModel LogController LogQueries Aggregate Sorting.

Variable key : Type.
Variable key_eqb : key -> key -> bool.
Variable productId_of : event -> key.
Variable key_json : key -> value.
Hypothesis key_eqb_spec : forall a b : key, key_eqb a b = true <-> a = b.

(** X14.  [GET /most-viewed] lists the products with the most views in the
    window: at most [limit] of them, each once, with the number of its
    product views, by decreasing views, and no product that is left out has
    more views than one that is listed.  A limit that is not positive is
    answered with 500. *)
Theorem getMostViewedProducts_lists_the_top (limit_q : option Z) (startDate endDate : option Z)
    (s : store) :
  reachable s = true ->
  let n := match limit_q with Some n => n | None => 10 end in
  let start := match startDate with Some ms => ms | None => clock s - thirty_days end in
  let stop := match endDate with Some ms => ms | None => clock s end in
  let views_of k := occurrences key_eqb k (viewed key productId_of start stop s) in
  (n <= 0 ->
   status (getMostViewedProducts key key_eqb productId_of key_json limit_q startDate endDate s)
     = 500%nat) /\
  (0 < n ->
   exists products,
     getMostViewedProducts key key_eqb productId_of key_json limit_q startDate endDate s
       = products_found key key_json products /\
     Z.of_nat (List.length products) <= n /\
     NoDup (map g_id products) /\
     (forall g, In g products -> (0 < g_count g)%nat /\ g_count g = views_of (g_id g)) /\
     descending views products /\
     (forall k, ~ In k (map g_id products) ->
        forall g, In g products -> (views_of k <= g_count g)%nat)).
Proof.
  intros Hr n start stop views_of.
  unfold getMostViewedProducts, findMostViewedProducts. rewrite Hr.
  fold n start stop.
  split; intros Hn.
  - destruct (Z.leb_spec n 0); [reflexivity | lia].
  - destruct (Z.leb_spec n 0) as [| _]; [lia |].
    set (all := sort_desc views (group_by key_eqb (viewed key productId_of start stop s))).
    destruct (grouped_sorted _ _ key_eqb key_eqb_spec (viewed key productId_of start stop s))
      as (Hnd & Hcount & Hall & Htot).
    fold all in Hnd, Hcount, Hall, Htot.
    assert (Hdesc : descending views all) by apply sort_desc_descending.
    exists (firstn (Z.to_nat n) all).
    split; [reflexivity |]. split; [| split; [| split; [| split]]].
    + rewrite length_firstn. lia.
    + rewrite <- (firstn_skipn (Z.to_nat n) all), map_app in Hnd.
      now apply NoDup_app_remove_r in Hnd.
    + intros g Hin. apply Hcount. now apply (firstn_incl _ (Z.to_nat n)).
    + now apply descending_firstn.
    + intros k Hk g Hg.
      destruct (views_of k) as [| v] eqn:Hv; [lia |].
      assert (Hex : exists g', In g' all /\ g_id g' = k).
      { unfold views_of, occurrences in Hv.
        destruct (filter (fun d => key_eqb (fst d) k) (viewed key productId_of start stop s))
          as [| d l] eqn:E; [discriminate |].
        assert (Hd : In d (filter (fun d => key_eqb (fst d) k)
                                  (viewed key productId_of start stop s))).
        { rewrite E. now left. }
        apply filter_In in Hd. destruct Hd as [Hd Hdk]. apply key_eqb_spec in Hdk.
        destruct (Hall d Hd) as (g' & Hin & Hid). exists g'. split; [exact Hin | congruence]. }
      destruct Hex as (g' & Hin' & Hid').
      rewrite <- (firstn_skipn (Z.to_nat n) all) in Hin'.
      apply in_app_or in Hin'. destruct Hin' as [Hin' | Hin'].
      * exfalso. apply Hk. rewrite <- Hid'. now apply in_map.
      * pose proof (descending_firstn_skipn _ views (Z.to_nat n) all g g' Hdesc Hg Hin')
          as Hle.
        destruct (Hcount g' (skipn_incl _ _ _ _ Hin')) as [_ Heq].
        rewrite Hid' in Heq. fold (views_of k) in Heq. unfold views in Hle. lia.
Qed.

End MostViewedFacts.

Section LogQuerySamples.

Import EventModel LogController LogQueries Aggregate Sorting Samples.

Lemma logged_event_is_counted_witness :
  count_of "purchase" 0 0 (snd (logEvent purchase_request empty_store))
    = count_of "purchase" 0 0 empty_store + 1.
Proof.
  destruct (logged_event_is_counted purchase_request empty_store
              (snd (logEvent purchase_request empty_store))
              (fst (logEvent purchase_request empty_store)) "purchase" 0 0) as [H _].
  - reflexivity.
  - reflexivity.
  - reflexivity.
  - cbn. lia.
  - exact (H "purchase").
Defined.

Lemma getEventCounts_partitions_window_witness :
  countDocuments None (10 - thirty_days) 10 funnel_store
    = Some (Z.of_nat (total (countByType (10 - thirty_days) 10 funnel_store))).
Proof.
  destruct (getEventCounts_partitions_window Absent Absent funnel_store
              (10 - thirty_days) 10) as (_ & _ & _ & _ & H & _).
  - reflexivity.
  - reflexivity.
  - reflexivity.
  - exact H.
Defined.

Lemma getEventsByType_lists_the_newest_witness :
  getEventsByType "product_view" Absent Absent (Some 1%nat) funnel_store
    = events_found (listed "product_view" (10 - seven_days) 10 1 funnel_store) /\
  List.length (listed "product_view" (10 - seven_days) 10 1 funnel_store) = 1%nat.
Proof.
  destruct (getEventsByType_lists_the_newest "product_view" Absent Absent (Some 1%nat)
              funnel_store (10 - seven_days) 10) as (H1 & H2 & _).
  - reflexivity.
  - reflexivity.
  - reflexivity.
  - cbn. lia.
  - split; [exact H1 | exact H2].
Defined.

Lemma getMostViewedProducts_lists_the_top_witness :
  exists products,
    getMostViewedProducts (option string) type_eqb sample_productId sample_key_json
      None None None funnel_store
      = products_found (option string) sample_key_json products /\
    Z.of_nat (List.length products) <= 10.
Proof.
  destruct (getMostViewedProducts_lists_the_top (option string) type_eqb sample_productId
              sample_key_json type_eqb_spec None None None funnel_store) as [_ H].
  - reflexivity.
  - destruct H as (products & H1 & H2 & _); [lia |].
    exists products. split; [exact H1 | exact H2].
Defined.

End LogQuerySamples.

(** ** The helper methods of the logging client *)

Section ClientHelpers.

Import LoggerClient ClientMethods.

(** [{ ...a, ...b }]: a key of [b] wins. *)
Lemma lookup_assign (k : string) (b : list (string * value)) :
  NoDup (keys b) ->
  forall a, lookup k (StatsController.assign a b)
            = match lookup k b with Some v => Some v | None => lookup k a end.
Proof.
  unfold keys. induction b as [| [k' v'] b IH]; cbn; intros Hnd a; [reflexivity |].
  inversion Hnd as [| x l Hnin Hnd']; subst. rewrite (IH Hnd').
  destruct (String.eqb_spec k k') as [-> | Hne].
  - assert (Hnone : lookup k' b = None).
    { clear - Hnin. induction b as [| [k0 v0] b IH]; cbn; [reflexivity |].
      destruct (String.eqb_spec k' k0) as [-> | Hne]; [exfalso; apply Hnin; now left |].
      apply IH. intros H. apply Hnin. now right. }
    rewrite Hnone. apply lookup_set_same.
  - destruct (lookup k b); [reflexivity |]. apply lookup_set_other.
    now apply String.eqb_neq.
Qed.

Lemma held_logEvent (t : string) (d : value) (sev : string) (a : ambient) (w : world) :
  Permutation (held (logEvent t d sev a w)) (held w ++ [make_entry (self w) t d sev a]).
Proof.
  pose proof (held_step w (Log t d sev a)) as H. cbn [step departed] in H.
  now rewrite app_nil_r in H.
Qed.

(** X15.  Each helper method leaves the client with exactly one more entry,
    stamped with the client's session and user and with the time of the
    call; whatever the caller passes in [additionalData] (or
    [errorDetails]) ends up in the entry's data, also under the name of one
    of the method's own arguments; and only [logError] logs with severity
    ["error"]. *)
Theorem helper_adds_one_entry (c : call) (a : ambient) (w : world) :
  NoDup (keys (additional c)) ->
  exists e,
    Permutation (held (perform c a w)) (held w ++ [e]) /\
    en_sessionId e = sessionId (self w) /\
    en_userId e = userId (self w) /\
    en_timestamp e = at_time a /\
    (forall k v, get k (additional c) = Some v -> field k (en_data e) = Some v) /\
    (en_severity e = "error" <-> exists m d, c = Error m d).
Proof.
  intros Hnd.
  assert (Hdata : forall named k v, get k (additional c) = Some v ->
            field k (with_additional named (additional c)) = Some v).
  { intros named k v Hk. unfold with_additional, field, get.
    rewrite (lookup_assign k (additional c) Hnd). unfold get in Hk. now rewrite Hk. }
  destruct c; cbn [additional] in Hdata;
    (eexists; split; [apply held_logEvent |]);
    cbn [make_entry en_sessionId en_userId en_timestamp en_data en_severity];
    (split; [reflexivity |]); (split; [reflexivity |]); (split; [reflexivity |]);
    (split; [intros k v Hk; now apply Hdata |]);
    (split; [try discriminate; intros _; eauto | intros (m & d & H); try discriminate; reflexivity]).
Qed.

(** X16.  Of the eight helper methods only [logProductView] produces an event
    type that the conversion funnel of the log controller counts. *)
Theorem only_product_views_reach_the_funnel (c : call) (a : ambient) (w : world) :
  exists e,
    Permutation (held (perform c a w)) (held w ++ [e]) /\
    (In (en_eventType e) LogController.funnelStages <->
     exists i n d, c = ProductView i n d).
Proof.
  destruct c; (eexists; split; [apply held_logEvent |]);
    cbn [make_entry en_eventType LogController.funnelStages In];
    (split;
     [ intros H; repeat (destruct H as [H | H]; [try discriminate H |]);
       try contradiction; eauto
     | intros (i & n & d & H); try discriminate H; now left ]).
Qed.

End ClientHelpers.

Section ClientHelperSamples.

Import LoggerClient ClientMethods Samples.

Lemma helper_adds_one_entry_witness :
  exists e,
    Permutation
      (held (perform (ProductView (JStr "p1") (JStr "Tenis") [("productId", JStr "p2")])
                     later client_with_page_view))
      (held client_with_page_view ++ [e]) /\
    field "productId" (en_data e) = Some (JStr "p2").
Proof.
  destruct (helper_adds_one_entry
              (ProductView (JStr "p1") (JStr "Tenis") [("productId", JStr "p2")])
              later client_with_page_view) as (e & H1 & _ & _ & _ & H2 & _).
  - repeat constructor. intros [].
  - exists e. split; [exact H1 |]. apply H2. reflexivity.
Defined.

End ClientHelperSamples.

(** ** Trends *)

Section TrendFacts.

Import Num StatsController Trends.

Context {R : Rounding}.
Variable draw : nat -> Z.
Variable day_string : Z -> Z -> string.

Local Open Scope Q_scope.

Lemma ceil_div_days (k : Z) : ceil_div (k * day_ms) day_ms = k.
Proof.
  unfold ceil_div. replace (- (k * day_ms))%Z with ((- k) * day_ms)%Z by ring.
  rewrite Z.div_mul; [lia | discriminate].
Qed.

Lemma period_days_cases (period : string) :
  period_days period = 7%Z \/ period_days period = 30%Z \/
  period_days period = 90%Z \/ period_days period = 365%Z.
Proof.
  unfold period_days.
  destruct (String.eqb period "7d"); [now left |].
  destruct (String.eqb period "90d"); [right; right; now left |].
  destruct (String.eqb period "1y"); [right; right; now right |].
  right. now left.
Qed.

(** Whatever the draw, the value after a round is a finite number that is
    not negative. *)
Lemma next_value_nonneg (v : variation) (days i : Z) (q : Q) :
  (0 < days)%Z ->
  exists q', next_value draw v days i (Fin q) = Fin q' /\ is_neg q' = false.
Proof.
  intros Hdays. unfold next_value, of_count, div.
  rewrite (is_zero_false _ (of_count_positive days Hdays)).
  cbn [mul add].
  match goal with
  | |- context [lt0 (Fin ?x)] => destruct (lt0 (Fin x)) eqn:E; [| exists x; split; [reflexivity | exact E]]
  end.
  exists 0. split; reflexivity.
Qed.

Lemma toFixed2_nonneg (q : Q) :
  is_neg q = false -> exists n, toFixed2 (Fin q) = Hundredths n /\ (0 <= n)%Z.
Proof.
  intros H. unfold toFixed2. rewrite H. eexists. split; [reflexivity |].
  unfold round_half_up. change 0%Z with (Qfloor (1 # 2)). apply Qfloor_resp_le.
  unfold is_neg in H. apply Z.ltb_ge in H.
  assert (0 <= q) by (unfold Qle; cbn; lia). lra.
Qed.

Lemma rounds_points (n : nat) (v : variation) (start days i : Z) (q : Q) :
  (0 < days)%Z ->
  List.length (rounds draw day_string n v start days i (Fin q)) = n /\
  map fst (rounds draw day_string n v start days i (Fin q))
    = map (fun k => day_string start (i + Z.of_nat k)%Z) (seq 0 n) /\
  Forall (fun p => exists c, snd p = Hundredths c /\ (0 <= c)%Z)
         (rounds draw day_string n v start days i (Fin q)).
Proof.
  intros Hdays. revert i q. induction n as [| n IH]; intros i q; cbn [rounds].
  - repeat split. constructor.
  - destruct (next_value_nonneg v days i q Hdays) as (q' & Hq' & Hneg). rewrite Hq'.
    destruct (IH (i + 1)%Z q') as (Hlen & Hdates & Hvals).
    split; [| split].
    + cbn. now rewrite Hlen.
    + cbn [map seq fst]. f_equal; [f_equal; cbn; lia |].
      rewrite Hdates, <- seq_shift, map_map. apply map_ext. intros k. f_equal. lia.
    + constructor; [| exact Hvals]. cbn [snd]. now apply toFixed2_nonneg.
Qed.

(** X17.  Without the fixture file [GET /trends] answers with one generated point
    per day of the period, 7, 30, 90 or 365 of them (30 for a period it
    does not know), dated day by day from the start of the window, and
    every value is a finite number that is not negative. *)
Theorem generated_trends_cover_the_period (metric period_q : option string) (now : Z) :
  let period := match period_q with Some p => p | None => "30d" end in
  let start := (now - period_days period * day_ms)%Z in
  let series := _generateTrendsData draw day_string metric start now in
  getTrendsData draw day_string metric period_q NoFile now
    = trends_ok start now period metric (map point_json series) /\
  Z.of_nat (List.length series) = period_days period /\
  (period_days period = 7 \/ period_days period = 30 \/
   period_days period = 90 \/ period_days period = 365)%Z /\
  map fst series
    = map (fun k => day_string start (Z.of_nat k)) (seq 0 (Z.to_nat (period_days period))) /\
  Forall (fun p => exists c, snd p = Hundredths c /\ (0 <= c)%Z) series.
Proof.
  intros period start series.
  assert (Hpos : (0 < period_days period)%Z).
  { destruct (period_days_cases period) as [H | [H | [H | H]]]; rewrite H; reflexivity. }
  assert (Hdays : ceil_div (now - start) day_ms = period_days period).
  { unfold start. replace (now - (now - period_days period * day_ms))%Z
      with (period_days period * day_ms)%Z by ring. apply ceil_div_days. }
  unfold series, _generateTrendsData. rewrite Hdays.
  destruct (rounds_points (Z.to_nat (period_days period)) (metric_variation metric) start
              (period_days period) 0 (baseValue (metric_variation metric)) Hpos)
    as (Hlen & Hdates & Hvals).
  split; [| split; [| split; [| split]]].
  - unfold getTrendsData. fold period. fold start. unfold _generateTrendsData.
    now rewrite Hdays.
  - rewrite Hlen. lia.
  - apply period_days_cases.
  - exact Hdates.
  - exact Hvals.
Qed.

(** X18.  With the fixture file in place and the metric ['sales'], the series is
    the fixture's [dailySales], point for point, whatever the period asked
    for: the window of the response changes with the period, the data do
    not. *)
Theorem fixture_sales_ignore_the_period (period_q : option string) (now : Z)
    (o : list (string * value)) (items trendsData : list value) :
  get "dailySales" o = Some (JArr items) ->
  sales_points items = Some trendsData ->
  let period := match period_q with Some p => p | None => "30d" end in
  getTrendsData draw day_string (Some "sales") period_q (Parsed (JObj o)) now
    = trends_ok (now - period_days period * day_ms)%Z now period (Some "sales") trendsData /\
  List.length trendsData = List.length items.
Proof.
  intros Hget Hpoints period. split.
  - unfold getTrendsData. fold period. cbn [String.eqb dailySales_of].
    change (String.eqb "sales" "sales") with true. cbn iota.
    rewrite Hget. cbn [truthy]. now rewrite Hpoints.
  - clear - Hpoints. revert trendsData Hpoints.
    induction items as [| item rest IH]; cbn; intros trendsData H.
    + now injection H as <-.
    + destruct (sales_point item); [| discriminate].
      destruct (sales_points rest) as [ps |]; [| discriminate].
      injection H as <-. cbn. now rewrite (IH ps).
Qed.

End TrendFacts.

Section TrendSamples.

Import Num StatsController Trends Samples.

Lemma fixture_sales_ignore_the_period_witness :
  getTrendsData (R := exact) (fun _ => 0) (fun _ _ => "2024-01-01") (Some "sales") (Some "7d")
      (Parsed (JObj [("dailySales",
                      JArr [JObj [("date", JStr "2024-01-01"); ("amount", JNum 650)]])])) 0
    = trends_ok (0 - 7 * day_ms) 0 "7d" (Some "sales")
        [JObj [("date", JStr "2024-01-01"); ("value", JNum 650)]].
Proof.
  apply (fixture_sales_ignore_the_period (R := exact) (fun _ => 0)
           (fun _ _ => "2024-01-01") (Some "7d") 0
           [("dailySales", JArr [JObj [("date", JStr "2024-01-01"); ("amount", JNum 650)]])]
           [JObj [("date", JStr "2024-01-01"); ("amount", JNum 650)]]
           [JObj [("date", JStr "2024-01-01"); ("value", JNum 650)]]); reflexivity.
Defined.

End TrendSamples.

(** ** The generated series of the dashboard *)

Section MockSeriesFacts.

Import Binary64 MockSeries Sorting.

Lemma from_In (lo : Z) (n : nat) (b : Z) :
  lo <= b < lo + Z.of_nat n -> In b (from lo n).
Proof.
  intros H. unfold from. apply in_map_iff. exists (Z.to_nat (b - lo)).
  split; [lia |]. apply in_seq. lia.
Qed.

Lemma all_amounts_spec (lo : Z) (n : nat) (f : Z -> Z -> bool) :
  all_amounts lo n f = true ->
  forall d b, lo <= b < lo + Z.of_nat n -> f (kind d) b = true.
Proof.
  unfold all_amounts. intros H d b Hb.
  rewrite forallb_forall in H. specialize (H b (from_In lo n b Hb)).
  rewrite forallb_forall in H. apply H. unfold kind.
  destruct ((d =? 0) || (d =? 6)); [now left |].
  destruct (d =? 1); [right; now left | right; right; now left].
Qed.

(** The adjustment depends on the kind of day only. *)
Lemma amount_exact_kind (dayOfWeek baseAmount : Z) :
  amount_exact dayOfWeek baseAmount = amount_exact (kind dayOfWeek) baseAmount.
Proof.
  unfold amount_exact, amount, adjusted, exact_cents, kind.
  destruct ((dayOfWeek =? 0) || (dayOfWeek =? 6)); [reflexivity |].
  destruct (dayOfWeek =? 1); reflexivity.
Qed.

Lemma all_amounts_checked : all_amounts 500 (Z.to_nat 4500) amount_exact = true.
Proof. vm_compute. reflexivity. Qed.

(** X19.  The daily amounts are exact to the cent.  For every integer base
    amount the generator can draw (500 to 4999) and every day of the week,
    the reported amount is the decimal with 130, 70 or 100 hundredths per
    unit of the base amount, before and after it is parsed back: the
    rounding error of the multiplication by 1.3 or 0.7 never reaches the
    second decimal. *)
Theorem dailySales_amounts_are_exact (dayOfWeek baseAmount : Z) :
  500 <= baseAmount <= 4999 ->
  hundredths (adjusted dayOfWeek (of_int baseAmount))
    = Some (exact_cents dayOfWeek baseAmount) /\
  hundredths (amount dayOfWeek baseAmount) = Some (exact_cents dayOfWeek baseAmount) /\
  35000 <= exact_cents dayOfWeek baseAmount <= 649870.
Proof.
  intros Hb.
  assert (H : amount_exact dayOfWeek baseAmount = true).
  { rewrite amount_exact_kind.
    apply (all_amounts_spec 500 (Z.to_nat 4500) amount_exact all_amounts_checked). lia. }
  unfold amount_exact in H.
  destruct (hundredths (adjusted dayOfWeek (of_int baseAmount))) as [n |]; [| discriminate].
  destruct (hundredths (amount dayOfWeek baseAmount)) as [m |]; [| discriminate].
  apply andb_true_iff in H. destruct H as [Hn Hm].
  apply Z.eqb_eq in Hn. apply Z.eqb_eq in Hm. subst n m.
  split; [reflexivity |]. split; [reflexivity |].
  - unfold exact_cents.
    destruct ((dayOfWeek =? 0) || (dayOfWeek =? 6)); [lia |].
    destruct (dayOfWeek =? 1); lia.
Qed.

Lemma with_counts_length (draw : nat -> Z) (l : list (string * string)) (i : nat) :
  List.length (with_counts draw i l) = List.length l.
Proof.
  revert i. induction l as [| [t v] l IH]; intros i; cbn; [reflexivity | now rewrite IH].
Qed.

(** X20.  Of the seventeen rows the generator draws counts for, the dashboard
    keeps the ten with the largest counts, by decreasing count: no row that
    is left out has a larger count than one that is kept. *)
Theorem topCustomizations_keeps_the_ten_largest (draw : nat -> Z) :
  List.length (topCustomizations draw) = 10%nat /\
  descending c_count (topCustomizations draw) /\
  exists rest,
    List.length rest = 7%nat /\
    Permutation (topCustomizations draw ++ rest) (popularCustomizations draw) /\
    forall a b, In a (topCustomizations draw) -> In b rest -> c_count b <= c_count a.
Proof.
  assert (Hlen : List.length (sort_desc c_count (popularCustomizations draw)) = 17%nat).
  { rewrite sort_desc_length. unfold popularCustomizations. now rewrite with_counts_length. }
  unfold topCustomizations. split; [| split].
  - rewrite length_firstn, Hlen. reflexivity.
  - apply descending_firstn, sort_desc_descending.
  - exists (skipn 10 (sort_desc c_count (popularCustomizations draw))).
    split; [| split].
    + rewrite length_skipn, Hlen. reflexivity.
    + rewrite firstn_skipn. apply sort_desc_perm.
    + intros a b Ha Hb.
      apply (descending_firstn_skipn _ c_count 10
               (sort_desc c_count (popularCustomizations draw)) a b);
        [apply sort_desc_descending | exact Ha | exact Hb].
Qed.

End MockSeriesFacts.

Section MockSeriesSamples.

Import Binary64 MockSeries.

Lemma dailySales_amounts_are_exact_witness :
  hundredths (adjusted 6 (of_int 4999)) = Some 649870.
Proof.
  destruct (dailySales_amounts_are_exact 6 4999) as [H _]; [lia | exact H].
Defined.

End MockSeriesSamples.

(** ** The product catalogue *)

Section CatalogueFacts.

Import ProductController ProductCatalogue.

Variable b : builtins.

Lemma findById_app_fresh (id : string) (d : document) (l : list (string * document)) :
  findById id l = None -> findById id (l ++ [(id, d)]) = Some d.
Proof.
  induction l as [| [i d0] l IH]; cbn.
  - now rewrite String.eqb_refl.
  - destruct (String.eqb i id); [discriminate | exact IH].
Qed.

Lemma findById_app_other (id id' : string) (d : document) (l : list (string * document)) :
  id' <> id -> findById id' (l ++ [(id, d)]) = findById id' l.
Proof.
  intros Hne. induction l as [| [i d0] l IH]; cbn.
  - destruct (String.eqb_spec id id'); [congruence | reflexivity].
  - destruct (String.eqb i id'); [reflexivity | exact IH].
Qed.

(** X21.  A product that [POST /api/admin/products] answers 201 for can be read
    back under its id, and under every route parameter that is cast to it:
    the stored document has the uploaded files as its images, is active
    only if the body says so, and has the three empty arrays of the schema
    as its [customizationOptions] when the body gives none; the other
    products are as they were, and the catalogue has one product more.  A
    request without one of the four required fields gets 400, and whenever
    the answer is not 201 the catalogue is unchanged. *)
Theorem createProduct_then_getProductById (body : list (string * value))
    (files : option (list string)) (id : string) (now : Z) (s s' : store)
    (resp : response) :
  findById id (products s) = None ->
  createProduct b body files id now s = (resp, s') ->
  (required_missing body = true -> resp = missing_fields /\ s' = s) /\
  (status resp <> 201%nat -> s' = s) /\
  (status resp = 201%nat ->
   exists d,
     resp = created d /\
     (forall param, objectId s param = Some id ->
        getProductById param s'
          = Response 200 (JObj [("success", JBool true); ("product", JObj d)])) /\
     images_of d = uploaded files /\
     get "isActive" d = Some (JBool (is_true (get "isActive" body))) /\
     (get "customizationOptions" body = None ->
      get "customizationOptions" d
        = Some (JObj [("colors", JArr []); ("materials", JArr []);
                      ("components", JArr [])])) /\
     (forall id', id' <> id -> findById id' (products s') = findById id' (products s)) /\
     List.length (products s') = S (List.length (products s))).
Proof.
  intros Hfresh H. unfold createProduct in H.
  destruct (required_missing body) eqn:Hreq.
  { injection H as <- <-. split; [now split |]. split; [reflexivity | discriminate]. }
  split; [discriminate |].
  destruct (processedTags b body) as [tags |];
    [| injection H as <- <-; split; [reflexivity | discriminate]].
  destruct (parsedCustomizationOptions b body) as [parsed |] eqn:Hparsed;
    [| injection H as <- <-; split; [reflexivity | discriminate]].
  destruct (stored_options s parsed) as [options |] eqn:Hoptions;
    [| injection H as <- <-; split; [reflexivity | discriminate]].
  destruct (reachable s && validates s (new_product b body files tags options id now)) eqn:Hok;
    [| injection H as <- <-; split; [reflexivity | discriminate]].
  injection H as <- <-. split; [intros Hne; now contradiction Hne |].
  intros _. apply andb_true_iff in Hok. destruct Hok as [Hr _].
  exists (new_product b body files tags options id now).
  split; [reflexivity |]. split; [| split; [| split; [| split; [| split]]]].
  - intros param Hparam. unfold getProductById.
    cbn [reachable products objectId with_products]. rewrite Hr, Hparam.
    cbn [negb]. now rewrite (findById_app_fresh id _ _ Hfresh).
  - reflexivity.
  - reflexivity.
  - intros Hnone. unfold parsedCustomizationOptions in Hparsed.
    rewrite Hnone in Hparsed. cbn in Hparsed. injection Hparsed as <-.
    cbn in Hoptions. injection Hoptions as <-. reflexivity.
  - intros id' Hne. cbn [products with_products]. now apply findById_app_other.
  - cbn [products with_products]. rewrite length_app. cbn. lia.
Qed.

Lemma findById_remove_same (id : string) (l : list (string * document)) :
  NoDup (map fst l) -> findById id (remove id l) = None.
Proof.
  induction l as [| [i d] l IH]; cbn; intros Hnd; [reflexivity |].
  inversion Hnd as [| x xs Hnin Hnd']; subst.
  destruct (String.eqb_spec i id) as [-> | Hne].
  - clear - Hnin. induction l as [| [i d] l IH]; cbn; [reflexivity |].
    destruct (String.eqb_spec i id) as [-> | Hne]; [exfalso; apply Hnin; now left |].
    apply IH. intros H. apply Hnin. now right.
  - cbn. destruct (String.eqb_spec i id); [congruence | now apply IH].
Qed.

Lemma findById_remove_other (id id' : string) (l : list (string * document)) :
  id' <> id -> findById id' (remove id l) = findById id' l.
Proof.
  intros Hne. induction l as [| [i d] l IH]; cbn; [reflexivity |].
  destruct (String.eqb_spec i id) as [-> | Hid]; cbn.
  - destruct (String.eqb_spec id id'); [congruence | reflexivity].
  - destruct (String.eqb i id'); [reflexivity | exact IH].
Qed.

Lemma remove_length (id : string) (d : document) (l : list (string * document)) :
  findById id l = Some d -> S (List.length (remove id l)) = List.length l.
Proof.
  induction l as [| [i d0] l IH]; cbn; [discriminate |].
  destruct (String.eqb i id); [reflexivity |]. intros H. cbn. now rewrite (IH H).
Qed.

(** X22.  [DELETE /api/admin/products/:id] removes exactly the product asked for:
    afterwards the id is answered with 404, every other product is as it
    was, and the catalogue has one product less.  For an ObjectId that no
    product has the answer is 404, for a parameter that is no ObjectId,
    which [findById] cannot cast, it is 500, and in both cases nothing
    changes. *)
Theorem deleteProduct_removes_the_product (id : string) (s : store) :
  reachable s = true ->
  NoDup (map fst (products s)) ->
  (objectId s id = None ->
   deleteProduct id s = (server_error "Erro ao excluir produto", s)) /\
  (forall oid, objectId s id = Some oid ->
     (findById oid (products s) = None -> deleteProduct id s = (not_found, s)) /\
     (forall d, findById oid (products s) = Some d ->
        fst (deleteProduct id s) = deleted /\
        getProductById id (snd (deleteProduct id s)) = not_found /\
        (forall id', id' <> oid ->
           findById id' (products (snd (deleteProduct id s))) = findById id' (products s)) /\
        S (List.length (products (snd (deleteProduct id s)))) = List.length (products s))).
Proof.
  intros Hr Hnd. unfold deleteProduct. rewrite Hr. cbn [negb]. split.
  - intros H. now rewrite H.
  - intros oid Hoid. rewrite Hoid. split.
    + intros H. now rewrite H.
    + intros d H. rewrite H. cbn [fst snd products with_products].
      split; [reflexivity |]. split; [| split].
      * unfold getProductById. cbn [reachable products objectId with_products].
        rewrite Hr, Hoid. cbn [negb]. now rewrite (findById_remove_same oid _ Hnd).
      * intros id' Hne. now apply findById_remove_other.
      * now apply (remove_length oid d).
Qed.

Lemma findById_replace_other (id id' : string) (d : document) (l : list (string * document)) :
  id' <> id -> findById id' (replace id d l) = findById id' l.
Proof.
  intros Hne. induction l as [| [i d0] l IH]; cbn; [reflexivity |].
  destruct (String.eqb_spec i id) as [-> | Hid]; cbn.
  - destruct (String.eqb_spec id id'); [congruence | reflexivity].
  - destruct (String.eqb i id'); [reflexivity | exact IH].
Qed.

Lemma replace_ids (id : string) (d : document) (l : list (string * document)) :
  map fst (replace id d l) = map fst l.
Proof.
  induction l as [| [i d0] l IH]; cbn; [reflexivity |].
  destruct (String.eqb i id); cbn; [reflexivity | now rewrite IH].
Qed.

(** Writing a key that is there, or a new one, adds at most that key. *)
Lemma keys_set (k k' : string) (v : value) (u : list (string * value)) :
  In k (keys (set k' v u)) -> k = k' \/ In k (keys u).
Proof.
  unfold keys. induction u as [| [k0 v0] u IH]; cbn.
  - intros [H | []]. now left.
  - destruct (String.eqb_spec k' k0) as [-> | Hne]; cbn.
    + intros [H | H]; [left; congruence | right; now right].
    + intros [H | H]; [right; now left |].
      destruct (IH H) as [H1 | H1]; [now left | right; now right].
Qed.

Lemma get_In_keys (k : string) (v : value) (u : list (string * value)) :
  get k u = Some v -> In k (keys u).
Proof.
  unfold get, keys. induction u as [| [k0 v0] u IH]; cbn; [discriminate |].
  destruct (String.eqb_spec k k0) as [-> | Hne]; [now left | right; now apply IH].
Qed.

Lemma keys_set_present (k k' : string) (v : value) (u : list (string * value)) :
  get k' u <> None -> In k (keys (set k' v u)) -> In k (keys u).
Proof.
  intros Hk' H. destruct (keys_set k k' v u H) as [-> | Hin]; [| exact Hin].
  destruct (get k' u) as [x |] eqn:E; [| contradiction]. now apply (get_In_keys k' x).
Qed.

Lemma keys_flag (k k' : string) (u : list (string * value)) :
  In k (keys (process_flag k' u)) -> In k (keys u).
Proof.
  unfold process_flag. destruct (get k' u) eqn:E; [| trivial].
  apply keys_set_present. congruence.
Qed.

Lemma keys_number (k k' : string) (parse : value -> value) (u : list (string * value)) :
  In k (keys (process_number k' parse u)) -> In k (keys u).
Proof.
  unfold process_number. destruct (get k' u) eqn:E; [| trivial].
  apply keys_set_present. congruence.
Qed.

(** The processing of the body adds no key to it. *)
Lemma keys_normalise (k : string) (u u' : list (string * value)) :
  normalise b u = Some u' -> In k (keys u') -> In k (keys u).
Proof.
  unfold normalise. intros H Hk.
  destruct (process_tags b u) as [u1 |] eqn:E1; [| discriminate].
  destruct (process_options b u1) as [u2 |] eqn:E2; [| discriminate].
  injection H as <-.
  do 2 apply keys_number in Hk. do 3 apply keys_flag in Hk.
  assert (H2 : In k (keys u1)).
  { unfold process_options in E2.
    destruct (get "customizationOptions" u1) as [[| | | t | | |] |] eqn:Eo;
      try (now injection E2 as <-).
    destruct (str_empty t); [now injection E2 as <- |].
    destruct (json_parse b t) as [v |]; [| discriminate].
    injection E2 as <-.
    apply (keys_set_present k "customizationOptions" v u1); [congruence | exact Hk]. }
  unfold process_tags in E1. destruct (truthy (get "tags" u)); [| now injection E1 as <-].
  destruct (get "tags" u) as [[| | | t | | items |] |] eqn:Et; try discriminate.
  - injection E1 as <-.
    apply (keys_set_present k "tags" (JArr (map JStr (split_trim b t))) u);
      [congruence | exact H2].
  - now injection E1 as <-.
Qed.

Lemma keys_process_images (k : string) (files : option (list string)) (product : document)
    (u : list (string * value)) :
  In k (keys (process_images files product u)) -> k = "images" \/ In k (keys u).
Proof.
  unfold process_images. destruct files as [[| f fs] |]; try (now right).
  destruct (is_true (get "keepImages" u)); apply keys_set.
Qed.

(** A key that is not there has no value. *)
Lemma get_not_In_keys (k : string) (u : list (string * value)) :
  ~ In k (keys u) -> get k u = None.
Proof.
  destruct (get k u) as [v |] eqn:E; [| reflexivity].
  intros H. contradiction H. now apply (get_In_keys k v).
Qed.

(** No key writes the path [k] or inside it. *)
Lemma inside_none (s : store) (k : string) (u : list (string * value)) :
  (forall k', In k' (keys u) -> root k' <> k) -> inside s k u = [].
Proof.
  unfold inside, keys. induction u as [| [k0 v0] u IH]; cbn; [reflexivity |].
  intros H. destruct (String.eqb_spec (root k0) k) as [Heq | Hne].
  - exfalso. apply (H k0); [now left | exact Heq].
  - cbn. apply IH. intros k' Hk'. apply H. now right.
Qed.

Lemma root_of_plain (k : string) (u : list (string * value)) :
  (forall k', In k' (keys u) -> root k' <> k) -> root k = k -> get k u = None.
Proof.
  intros H Hroot. apply get_not_In_keys. intros Hin. now apply (H k Hin).
Qed.

Lemma apply_paths_untouched (s : store) (u : list (string * value)) (k : string)
    (paths : list string) :
  (forall k', In k' (keys u) -> root k' <> k) ->
  (forall p, In p paths -> root p = p) ->
  forall d d', apply_paths s paths u d = Some d' -> get k d' = get k d.
Proof.
  intros Hk Hplain. induction paths as [| p paths IH]; cbn [apply_paths]; intros d d' H.
  - now injection H as <-.
  - destruct (apply_path s u p d) as [d1 |] eqn:H1; [| discriminate].
    rewrite (IH (fun q Hq => Hplain q (or_intror Hq)) d1 d' H).
    destruct (String.eqb_spec k p) as [-> | Hne].
    + unfold apply_path in H1.
      rewrite (root_of_plain p u Hk (Hplain p (or_introl eq_refl))) in H1.
      rewrite (inside_none s p u Hk) in H1. now injection H1 as <-.
    + apply (apply_path_other s u p k d d1 H1). now apply String.eqb_neq.
Qed.

Lemma apply_paths_foreign (s : store) (u : list (string * value)) (k : string)
    (paths : list string) :
  ~ In k paths ->
  forall d d', apply_paths s paths u d = Some d' -> get k d' = get k d.
Proof.
  induction paths as [| p paths IH]; cbn [apply_paths]; intros Hk d d' H.
  - now injection H as <-.
  - destruct (apply_path s u p d) as [d1 |] eqn:H1; [| discriminate].
    rewrite (IH (fun Hin => Hk (or_intror Hin)) d1 d' H).
    apply (apply_path_other s u p k d d1 H1). apply String.eqb_neq.
    intros ->. apply Hk. now left.
Qed.

Lemma schema_paths_plain (p : string) : In p schema_paths -> root p = p.
Proof.
  cbn. intros H. repeat (destruct H as [<- | H]; [reflexivity |]). destruct H.
Qed.

(** X23.  [PUT /api/admin/products/:id] touches one product and, of that one,
    only what the request writes.  No product is added or removed; every
    other product is as it was; a member of the document stays as it was
    when no key of the body names it or a place inside it (as [tags.0]
    names a place inside [tags]), [images] apart when files are uploaded,
    so [updatedAt] and [averageRating], which only the [save] hooks set,
    stay unless the body writes them; a key that names no path of the
    schema (such as [keepImages]) is never stored; a parameter that is no
    ObjectId is answered with 500; and when the answer is not 200 the
    catalogue is unchanged. *)
Theorem updateProduct_touches_one_product (r : request) (s s' : store) (resp : response) :
  updateProduct b r s = (resp, s') ->
  map fst (products s') = map fst (products s) /\
  (forall oid id', objectId s (id r) = Some oid -> id' <> oid ->
     findById id' (products s') = findById id' (products s)) /\
  (objectId s (id r) = None -> resp = update_error /\ s' = s) /\
  (status resp <> 200%nat -> s' = s) /\
  (forall oid d d' k,
     objectId s (id r) = Some oid ->
     findById oid (products s) = Some d ->
     findById oid (products s') = Some d' ->
     ~ In k schema_paths \/
       ((forall k', In k' (keys (updateData r)) -> root k' <> k) /\
        (k <> "images" \/ files r = None \/ files r = Some [])) ->
     get k d' = get k d).
Proof.
  unfold updateProduct. intros H.
  assert (Hsame : (resp, s') = (update_error, s) \/ (resp, s') = (not_found, s) ->
            map fst (products s') = map fst (products s) /\
            (forall oid id', objectId s (id r) = Some oid -> id' <> oid ->
               findById id' (products s') = findById id' (products s)) /\
            (status resp <> 200%nat -> s' = s) /\
            (forall oid d d' k,
               objectId s (id r) = Some oid ->
               findById oid (products s) = Some d ->
               findById oid (products s') = Some d' ->
               ~ In k schema_paths \/
                 ((forall k', In k' (keys (updateData r)) -> root k' <> k) /\
                  (k <> "images" \/ files r = None \/ files r = Some [])) ->
               get k d' = get k d)).
  { intros [E | E]; injection E as -> ->; repeat split; intros; congruence. }
  destruct (reachable s); cbn [negb] in H.
  2: { symmetry in H. destruct (Hsame (or_introl H)) as (H1 & H2 & H3 & H4).
       injection H as -> ->. repeat split; assumption. }
  destruct (objectId s (id r)) as [oid |] eqn:Hoid.
  2: { symmetry in H. destruct (Hsame (or_introl H)) as (H1 & H2 & H3 & H4).
       injection H as -> ->. repeat split; assumption. }
  assert (Hno : None = Some oid -> resp = update_error /\ s' = s) by discriminate.
  destruct (findById oid (products s)) as [product |] eqn:Hfind.
  2: { symmetry in H. destruct (Hsame (or_intror H)) as (H1 & H2 & H3 & H4).
       repeat split; try assumption; discriminate. }
  destruct (normalise b (process_images (files r) product (updateData r))) as [u |] eqn:Hn.
  2: { symmetry in H. destruct (Hsame (or_introl H)) as (H1 & H2 & H3 & H4).
       repeat split; try assumption; discriminate. }
  destruct (apply_set s oid u product) as [d1 |] eqn:Hset.
  2: { symmetry in H. destruct (Hsame (or_introl H)) as (H1 & H2 & H3 & H4).
       repeat split; try assumption; discriminate. }
  destruct (validates s d1) eqn:Hv.
  2: { symmetry in H. destruct (Hsame (or_introl H)) as (H1 & H2 & H3 & H4).
       repeat split; try assumption; discriminate. }
  injection H as <- <-. cbn [products with_products].
  split; [apply replace_ids |].
  split; [intros o id' Ho Hne; injection Ho as <-; now apply findById_replace_other |].
  split; [discriminate |].
  split; [intros Hne; now contradiction Hne |].
  intros o d d' k Ho Hd Hd' Hk. injection Ho as <-.
  rewrite Hfind in Hd. injection Hd as <-.
  rewrite (findById_replace oid d1 product _ Hfind) in Hd'. injection Hd' as <-.
  unfold apply_set in Hset. destruct (same_id s oid u); [| discriminate].
  destruct Hk as [Hk | [Hk Himg]];
    [now apply (apply_paths_foreign s u k schema_paths Hk) |].
  apply (apply_paths_untouched s u k schema_paths); [| apply schema_paths_plain | exact Hset].
  intros k' Hk'. apply (keys_normalise k' _ u Hn) in Hk'.
  assert (Hin : k' = "images" /\ (exists f fs, files r = Some (f :: fs)) \/
                In k' (keys (updateData r))).
  { unfold process_images in Hk'. destruct (files r) as [[| f fs] |]; try (now right).
    destruct (is_true (get "keepImages" (updateData r)));
      (destruct (keys_set _ _ _ _ Hk') as [-> | Hin]; [left | now right];
       split; [reflexivity | now exists f, fs]). }
  destruct Hin as [[-> (f & fs & Hf)] | Hin]; [| now apply Hk].
  cbn [root Ascii.eqb Bool.eqb]. intros <-.
  destruct Himg as [Hne | [Hnone | Hnone]]; [now contradiction Hne | |];
    rewrite Hf in Hnone; discriminate.
Qed.

End CatalogueFacts.

Section PagingFacts.

Variable A : Type.



End PagingFacts.

Section ListingFacts.

Import ProductController ProductCatalogue.

Variable regexp : string -> option (document -> bool).
Variable sorted_by : string -> bool -> list (string * document) -> list (string * document).

(** Sorting rearranges the documents, no more. *)
Hypothesis sorted_by_perm : forall field asc l, Permutation (sorted_by field asc l) l.



End ListingFacts.

Section ProductStatsFacts.

Import ProductController ProductCatalogue Aggregate Sorting.

Lemma count_flag_le (k : string) (s : store) :
  (count_flag k s <= List.length (products s))%nat.
Proof. unfold count_flag. apply filter_length_le. Qed.

(** X25.  The product statistics agree with each other: the counts by category
    add up to the number of products, each category that occurs has one
    entry with the number of its products, the entries come by decreasing
    count, and none of the three flag counts exceeds the total. *)
Theorem getProductStats_partitions_by_category (s : store) :
  reachable s = true ->
  status (getProductStats s) = 200%nat /\
  total (categoryCounts s) = List.length (products s) /\
  NoDup (map g_id (categoryCounts s)) /\
  (forall g, In g (categoryCounts s) ->
     (0 < g_count g)%nat /\
     g_count g = List.length (filter (fun p => LogQueries.type_eqb (category_of (snd p)) (g_id g))
                                     (products s))) /\
  descending views (categoryCounts s) /\
  (count_flag "isActive" s <= List.length (products s))%nat /\
  (count_flag "isFeatured" s <= List.length (products s))%nat /\
  (count_flag "has3dModel" s <= List.length (products s))%nat.
Proof.
  intros Hr.
  destruct (grouped_sorted _ _ LogQueries.type_eqb type_eqb_spec
              (map (fun p => (category_of (snd p), tt)) (products s)))
    as (Hnd & Hcount & _ & Htot).
  fold (categoryCounts s) in Hnd, Hcount, Htot.
  split; [unfold getProductStats; now rewrite Hr |].
  split; [now rewrite Htot, length_map |].
  split; [exact Hnd |].
  split; [| split; [apply sort_desc_descending | repeat split; apply count_flag_le]].
  intros g Hin. destruct (Hcount g Hin) as [Hpos Heq]. split; [exact Hpos |].
  rewrite Heq. unfold occurrences. clear.
  induction (products s) as [| p l IH]; cbn; [reflexivity |].
  destruct (LogQueries.type_eqb (category_of (snd p)) (g_id g)); cbn; now rewrite IH.
Qed.

End ProductStatsFacts.

Section RatingFacts.

Import Num ProductModel.

Context {R : Rounding}.

Local Open Scope Q_scope.

Lemma rating_sum_bounds (ratings : list Q) (total : Q) (k : Z) :
  Forall (fun r => 1 <= r <= 5) ratings ->
  (0 <= k)%Z -> (5 * (k + Z.of_nat (List.length ratings)) <= 2 ^ 53)%Z ->
  inject_Z k <= total <= inject_Z (5 * k) ->
  inject_Z (k + Z.of_nat (List.length ratings))
    <= fold_left (fun t r => rnd (t + r)) ratings total
    <= inject_Z (5 * (k + Z.of_nat (List.length ratings))).
Proof.
  intros Hall. revert total k. induction Hall as [| r l Hr Hl IH]; intros total k Hk Hmax Ht.
  - cbn. now rewrite Z.add_0_r.
  - cbn [fold_left List.length]. rewrite Nat2Z.inj_succ.
    replace (k + Z.succ (Z.of_nat (List.length l)))%Z
      with ((k + 1) + Z.of_nat (List.length l))%Z by lia.
    cbn [List.length] in Hmax. rewrite Nat2Z.inj_succ in Hmax.
    apply IH; [lia | lia |].
    assert (H1 : inject_Z (k + 1) <= total + r <= inject_Z (5 * (k + 1))).
    { rewrite !inject_Z_plus, !inject_Z_mult in *. cbn in *.
      rewrite inject_Z_plus. change (inject_Z 1) with 1. change (inject_Z 5) with 5 in *.
      lra. }
    split.
    + rewrite <- (rnd_int (k + 1)) by lia. apply rnd_mono, H1.
    + rewrite <- (rnd_int (5 * (k + 1))) by lia. apply rnd_mono, H1.
Qed.

(** X26.  The average rating the [save] hook stores is 0 for a product without
    ratings and otherwise a number with one decimal between 1 and 5, when
    every rating is between 1 and 5 as the schema demands. *)
Theorem averageRating_within_the_scale (ratings : list Q) :
  Forall (fun r => 1 <= r <= 5) ratings ->
  (Z.of_nat (List.length ratings) <= 2 ^ 50)%Z ->
  exists n, averageRating ratings = Tenths n /\
            (match ratings with [] => n = 0 | _ :: _ => 10 <= n <= 50 end)%Z.
Proof.
  intros Hall Hlen. destruct ratings as [| r0 l]; [now exists 0%Z |].
  remember (r0 :: l) as ratings eqn:E.
  set (len := Z.of_nat (List.length ratings)).
  assert (Hpos : (0 < len)%Z).
  { unfold len. rewrite E. cbn [List.length]. lia. }
  assert (Hdefined : averageRating ratings
            = toFixed1 (div (Fin (rating_sum ratings)) (of_count len))).
  { unfold averageRating, len. now rewrite E. }
  pose proof (rating_sum_bounds ratings 0 0 Hall (Z.le_refl 0)) as Hsum.
  cbn [Z.add] in Hsum. fold len in Hsum. fold (rating_sum ratings) in Hsum.
  assert (Hmax : (5 * len <= 2 ^ 53)%Z).
  { unfold len. change (2 ^ 53)%Z with 9007199254740992%Z.
    change (2 ^ 50)%Z with 1125899906842624%Z in Hlen. lia. }
  assert (H00 : inject_Z 0 <= 0 <= inject_Z (5 * 0)) by (split; apply Qle_refl).
  specialize (Hsum Hmax H00).
  rewrite Hdefined. unfold of_count, div.
  rewrite (is_zero_false _ (of_count_positive len Hpos)).
  assert (Hlen' : rnd (inject_Z len) == inject_Z len) by (apply rnd_int; lia).
  assert (Hq : 0 < inject_Z len).
  { change 0 with (inject_Z 0). rewrite <- Zlt_Qlt. exact Hpos. }
  assert (Havg : 1 <= rnd (rating_sum ratings / rnd (inject_Z len)) <= 5).
  { apply rnd_between; [apply (rnd_int 1); cbn; lia | apply (rnd_int 5); cbn; lia |].
    rewrite Hlen'. rewrite inject_Z_mult in Hsum. change (inject_Z 5) with 5 in Hsum.
    split.
    - apply Qle_shift_div_l; [exact Hq | lra].
    - apply Qle_shift_div_r; [exact Hq | lra]. }
  unfold toFixed1. rewrite is_neg_false by lra.
  set (avg := rnd (rating_sum ratings / rnd (inject_Z len))) in *.
  eexists. split; [reflexivity |]. split.
  - apply (Z.le_trans _ (Qfloor (10 + (1 # 2)))); [now vm_compute |].
    apply Qfloor_resp_le. lra.
  - apply (Z.le_trans _ (Qfloor (50 + (1 # 2)))); [| now vm_compute].
    apply Qfloor_resp_le. lra.
Qed.

End RatingFacts.

Section CatalogueSamples.

Import ProductController ProductCatalogue ProductModel Aggregate Sorting Samples.

Lemma createProduct_then_getProductById_witness :
  exists d,
    fst (createProduct plain_builtins boot_body (Some ["product-9.png"]) boot_id 5 catalogue)
      = created d /\
    getProductById "64F1A2B3C4D5E6F708192A3C"
      (snd (createProduct plain_builtins boot_body (Some ["product-9.png"]) boot_id 5
              catalogue))
      = Response 200 (JObj [("success", JBool true); ("product", JObj d)]) /\
    get "isActive" d = Some (JBool false) /\
    get "customizationOptions" d
      = Some (JObj [("colors", JArr []); ("materials", JArr []); ("components", JArr [])]).
Proof.
  destruct (createProduct_then_getProductById plain_builtins boot_body
              (Some ["product-9.png"]) boot_id 5 catalogue
              (snd (createProduct plain_builtins boot_body (Some ["product-9.png"]) boot_id 5
                      catalogue))
              (fst (createProduct plain_builtins boot_body (Some ["product-9.png"]) boot_id 5
                      catalogue))) as (_ & _ & H).
  - reflexivity.
  - reflexivity.
  - destruct (H eq_refl) as (d & H1 & H2 & _ & H3 & H4 & _).
    exists d. split; [exact H1 |]. split; [now apply H2 |]. split; [exact H3 | now apply H4].
Defined.

Lemma deleteProduct_removes_the_product_witness :
  getProductById shoe_id (snd (deleteProduct shoe_id catalogue)) = not_found /\
  deleteProduct "p1" catalogue = (server_error "Erro ao excluir produto", catalogue).
Proof.
  destruct (deleteProduct_removes_the_product shoe_id catalogue) as [_ H].
  - reflexivity.
  - repeat constructor. intros [].
  - destruct (H shoe_id eq_refl) as [_ H0]. destruct (H0 shoe eq_refl) as (_ & H1 & _).
    split; [exact H1 |].
    destruct (deleteProduct_removes_the_product "p1" catalogue) as [H2 _].
    + reflexivity.
    + repeat constructor. intros [].
    + now apply H2.
Defined.

Lemma updateProduct_touches_one_product_witness :
  map fst (products (snd (updateProduct plain_builtins retag catalogue)))
    = map fst (products catalogue) /\
  (forall d', findById shoe_id (products (snd (updateProduct plain_builtins retag catalogue)))
              = Some d' ->
              get "name" d' = Some (JStr "Tenis")).
Proof.
  destruct (updateProduct_touches_one_product plain_builtins retag catalogue
              (snd (updateProduct plain_builtins retag catalogue))
              (fst (updateProduct plain_builtins retag catalogue))) as (H & _ & _ & _ & H4).
  - reflexivity.
  - split; [exact H |]. intros d' Hd'.
    rewrite (H4 shoe_id shoe d' "name" eq_refl eq_refl Hd'); [reflexivity |].
    right. split; [| left; discriminate].
    intros k' [<- | []]. discriminate.
Defined.

(** The update of the witness does go through, and writes the first tag. *)
Lemma retag_example :
  status (fst (updateProduct plain_builtins retag catalogue)) = 200%nat /\
  option_map (get "tags")
    (findById shoe_id (products (snd (updateProduct plain_builtins retag catalogue))))
    = Some (Some (JArr [JStr "trilha"; JStr "leve"])).
Proof. repeat split. Qed.



Lemma getProductStats_partitions_by_category_witness :
  total (categoryCounts shelf) = List.length (products shelf).
Proof.
  destruct (getProductStats_partitions_by_category shelf) as (_ & H & _).
  - reflexivity.
  - exact H.
Defined.

(** The shelf has four pairs of shoes and two pieces of clothing. *)
Lemma categoryCounts_example :
  map (fun g => (g_id g, g_count g)) (categoryCounts shelf)
    = [(Some "Calcados", 4%nat); (Some "Roupas", 2%nat)].
Proof. reflexivity. Qed.

Lemma averageRating_within_the_scale_witness :
  exists n, averageRating (R := Num.exact) [4; 5]%Q = Tenths n /\ (10 <= n <= 50)%Z.
Proof.
  apply (averageRating_within_the_scale (R := Num.exact) [4; 5]%Q).
  - repeat constructor; discriminate.
  - cbn. discriminate.
Defined.

End CatalogueSamples.

(** ** Accounts *)

Section AccountFacts.

Import UserController UserAccounts.

Variable compare : string -> string -> bool.
Variable hash : string -> string -> string.
Variable sign : user -> string.

(** A password matches the hash [bcrypt] made of it, whatever the salt. *)
Hypothesis bcrypt_sound : forall salt p, compare p (hash salt p) = true.

Lemma findOne_app_fresh (e : string) (u : user) (l : list user) :
  findOne e l = None -> email u = e -> findOne e (l ++ [u]) = Some u.
Proof.
  intros Hnone He. induction l as [| x l IH]; cbn in *.
  - now rewrite He, String.eqb_refl.
  - destruct (String.eqb (email x) e); [discriminate | now apply IH].
Qed.

Lemma findOne_none (e : string) (l : list user) :
  findOne e l = None -> ~ In e (map email l).
Proof.
  induction l as [| x l IH]; cbn; [tauto |].
  destruct (String.eqb_spec (email x) e) as [| Hne]; [discriminate |].
  intros H [Heq | Hin]; [now apply Hne | now apply IH].
Qed.

Lemma findById_In (id : string) (u : user) (l : list user) :
  findById id l = Some u -> In u l /\ u_id u = id.
Proof.
  induction l as [| x l IH]; cbn; [discriminate |].
  destruct (String.eqb_spec (u_id x) id) as [Hid | Hne].
  - intros H. injection H as <-. split; [now left | exact Hid].
  - intros H. destruct (IH H) as [Hin Hu]. split; [now right | exact Hu].
Qed.

Lemma findById_put (id : string) (u u' : user) (l : list user) :
  findById id l = Some u -> u_id u' = id -> findById id (put id u' l) = Some u'.
Proof.
  intros H Hid. induction l as [| x l IH]; cbn in *; [discriminate |].
  destruct (String.eqb_spec (u_id x) id) as [Hx | Hne]; cbn.
  - now rewrite Hid, String.eqb_refl.
  - destruct (String.eqb_spec (u_id x) id); [contradiction | now apply IH].
Qed.

Lemma put_other (id : string) (u' x : user) (l : list user) :
  u_id x <> id -> u_id u' = id -> (In x (put id u' l) <-> In x l).
Proof.
  intros Hx Hid. induction l as [| y l IH]; cbn; [tauto |].
  destruct (String.eqb_spec (u_id y) id) as [Hy | Hne]; cbn.
  - split; intros [H | H]; try (now right); exfalso; congruence.
  - rewrite IH. tauto.
Qed.

(** With unique emails, nobody else has the email of an account. *)
Lemma email_free_own (u : user) (l : list user) :
  NoDup (map email l) -> In u l -> email_free (u_id u) (email u) l = true.
Proof.
  unfold email_free. intros Hnd Hin. apply forallb_forall. intros x Hx.
  destruct (String.eqb_spec (email x) (email u)) as [He | Hne]; [| now rewrite orb_true_r].
  assert (x = u) as ->; [| now rewrite String.eqb_refl].
  clear - Hnd Hin Hx He. induction l as [| y l IH]; [destruct Hin |].
  cbn in Hnd. inversion Hnd as [| a b Hnin Hnd']; subst.
  destruct Hin as [-> | Hin], Hx as [-> | Hx]; try reflexivity.
  - exfalso. apply Hnin. rewrite <- He. now apply in_map.
  - exfalso. apply Hnin. rewrite He. now apply in_map.
  - now apply IH.
Qed.

(** The account written back is the one its email finds. *)
Lemma findOne_put (id : string) (u u' : user) (l : list user) :
  findById id l = Some u -> u_id u' = id ->
  email_free id (email u') l = true ->
  findOne (email u') (put id u' l) = Some u'.
Proof.
  intros H Hid Hfree. induction l as [| x l IH]; cbn in *; [discriminate |].
  apply andb_true_iff in Hfree. destruct Hfree as [Hx Hrest].
  destruct (String.eqb_spec (u_id x) id) as [Hxid | Hne]; cbn.
  - now rewrite String.eqb_refl.
  - cbn in Hx. apply negb_true_iff in Hx. rewrite Hx. now apply IH.
Qed.

Lemma findById_users_fresh (id : string) (u : user) (l : list user) :
  findById id l = None -> u_id u = id -> findById id (l ++ [u]) = Some u.
Proof.
  intros Hnone Hid. induction l as [| x l IH]; cbn in *.
  - now rewrite Hid, String.eqb_refl.
  - destruct (String.eqb (u_id x) id); [discriminate | now apply IH].
Qed.

(** X27.  An account that [POST /register] answers 201 for can log in at once
    with the password of the request and its email, or any email that the
    schema writes the same way; it is what [GET /profile] answers for its
    id, and the last of one more account in the list of [GET /].  The
    document stores the hash, not the password, and the email as the
    schema writes it; the password has a [length] of at least six and the
    role is one of the three of the schema; the answers carry the seven
    members of [toSafeObject], none of which is the password. *)
Theorem register_then_login (b : registration) (id salt : string) (now saved : Z)
    (s s' : store) (resp : response) :
  findById id (users s) = None ->
  register hash b id salt now saved s = (resp, s') ->
  status resp = 201%nat ->
  resp = registered (new_user hash s b id salt now saved) /\
  (forall e, normalise s e = normalise s (rg_email b) ->
     login compare sign {| cr_email := e; cr_password := Some (rg_password b) |} s'
       = logged_in (sign (new_user hash s b id salt now saved))
                   (new_user hash s b id salt now saved)) /\
  (forall param, objectId s param = Some id ->
     getProfile param s'
       = Response 200 (JObj [("success", JBool true);
                             ("user", toSafeObject (new_user hash s b id salt now saved))])) /\
  getAllUsers s'
    = Response 200 (JObj [("success", JBool true);
                          ("count", JNum (inject_Z (Z.of_nat (S (List.length (users s))))));
                          ("users", JArr (map toSafeObject (users s)
                                          ++ [toSafeObject
                                                (new_user hash s b id salt now saved)]))]) /\
  password (new_user hash s b id salt now saved) = hash salt (rg_password b) /\
  (6 <= utf16_length (rg_password b))%nat /\
  valid_role (role (new_user hash s b id salt now saved)) = true /\
  toSafeObject (new_user hash s b id salt now saved)
    = JObj [("id", JStr id); ("name", JStr (rg_name b));
            ("email", JStr (normalise s (rg_email b)));
            ("role", JStr (role_or_user (rg_role b))); ("isActive", JBool true);
            ("createdAt", JIso now); ("updatedAt", JIso saved)] /\
  field "password" (toSafeObject (new_user hash s b id salt now saved)) = None.
Proof.
  unfold register. intros Hfresh H Hst.
  destruct (reachable s) eqn:Hr; cbn [negb] in H; [| injection H as <- <-; discriminate].
  destruct (findOne (normalise s (rg_email b)) (users s)) eqn:Hfind;
    [injection H as <- <-; discriminate |].
  destruct (valid_profile (new_user hash s b id salt now saved)
            && valid_password (rg_password b))
    eqn:Hvalid; [| injection H as <- <-; discriminate].
  injection H as <- <-.
  apply andb_true_iff in Hvalid. destruct Hvalid as [Hprofile Hpw].
  unfold valid_profile in Hprofile. apply andb_true_iff in Hprofile.
  destruct Hprofile as [_ Hrole].
  split; [reflexivity |].
  split; [| split; [| split; [| split; [reflexivity | split; [| split; [| split]]]]]].
  - intros e He. unfold login.
    cbn [reachable users normalise with_users cr_email cr_password]. rewrite Hr, He.
    cbn [negb].
    rewrite (findOne_app_fresh _ (new_user hash s b id salt now saved) _ Hfind eq_refl).
    cbn [isActive new_user negb comparePassword password]. now rewrite bcrypt_sound.
  - intros param Hparam. unfold getProfile.
    cbn [reachable users objectId with_users]. rewrite Hr, Hparam. cbn [negb].
    now rewrite (findById_users_fresh id (new_user hash s b id salt now saved) _
                   Hfresh eq_refl).
  - unfold getAllUsers. cbn [reachable users with_users]. rewrite Hr. cbn [negb].
    rewrite length_app, map_app. cbn [List.length map]. now rewrite Nat.add_1_r.
  - unfold valid_password in Hpw. now apply Nat.leb_le.
  - exact Hrole.
  - reflexivity.
  - reflexivity.
Qed.

(** X28.  Registration keeps emails unique: an email that an account has, as
    the schema writes it, is answered with 400 and nothing is stored, and
    whatever the answer, no two accounts share an email afterwards if none
    did before. *)
Theorem register_keeps_emails_unique (b : registration) (id salt : string) (now saved : Z)
    (s : store) :
  NoDup (map email (users s)) ->
  NoDup (map email (users (snd (register hash b id salt now saved s)))) /\
  (reachable s = true -> In (normalise s (rg_email b)) (map email (users s)) ->
   register hash b id salt now saved s = (email_in_use, s)) /\
  (status (fst (register hash b id salt now saved s)) <> 201%nat ->
   snd (register hash b id salt now saved s) = s).
Proof.
  intros Hnd. unfold register.
  destruct (reachable s) eqn:Hr; cbn [negb]; [| repeat split; [exact Hnd | discriminate]].
  destruct (findOne (normalise s (rg_email b)) (users s)) eqn:Hfind.
  { repeat split; exact Hnd. }
  destruct (valid_profile (new_user hash s b id salt now saved)
            && valid_password (rg_password b)).
  - cbn [fst snd users with_users status registered]. split; [| split].
    + rewrite map_app. cbn [map email new_user].
      apply NoDup_app; [exact Hnd | repeat constructor; intros [] |].
      intros e Hin [<- | []]. now apply (findOne_none _ _ Hfind).
    + intros _ Hin. exfalso. now apply (findOne_none _ _ Hfind).
    + intros H. now contradiction H.
  - cbn [fst snd]. split; [exact Hnd |]. split; [| reflexivity].
    intros _ Hin. exfalso. now apply (findOne_none _ _ Hfind).
Qed.

(** The three parts of the statement below when the request was refused. *)
Ltac refused :=
  split; [intros _; reflexivity | split; [intros; congruence | discriminate]].

(** X29.  After [POST /change-password] answered 200 the account logs in with
    the new password, under its email or any email that the schema writes
    the same way.  It is the same account but for the hash and for
    [updatedAt], which the hook sets to the time at which it ran; the
    other accounts are untouched.  The new password has a [length] of at
    least six.  A wrong current password is answered with 401, and
    whenever the answer is not 200 nothing is stored. *)
Theorem changePassword_then_login (id : string) (current : option string)
    (newPassword salt : string) (saved : Z) (s s' : store) (resp : response)
    (oid : string) (u : user) :
  NoDup (map email (users s)) ->
  objectId s id = Some oid ->
  findById oid (users s) = Some u ->
  isActive u = true ->
  newPassword <> password u ->
  changePassword compare hash id current newPassword salt saved s = (resp, s') ->
  (status resp <> 200%nat -> s' = s) /\
  (reachable s = true -> comparePassword compare u current = Some false ->
   resp = wrong_current_password) /\
  (status resp = 200%nat ->
   exists u',
     findById oid (users s') = Some u' /\
     (forall e, normalise s e = email u ->
        login compare sign {| cr_email := e; cr_password := Some newPassword |} s'
          = logged_in (sign u') u') /\
     password u' = hash salt newPassword /\
     updatedAt u' = saved /\
     (u_id u' = u_id u /\ name u' = name u /\ email u' = email u /\ role u' = role u /\
      isActive u' = isActive u /\ createdAt u' = createdAt u) /\
     (6 <= utf16_length newPassword)%nat /\
     forall x, u_id x <> oid -> (In x (users s') <-> In x (users s))).
Proof.
  intros Hnd Hoid Hfind Hact Hnew. unfold changePassword. intros H.
  destruct (reachable s) eqn:Hr; cbn [negb] in H; [| injection H as <- <-; refused].
  rewrite Hoid, Hfind in H.
  destruct (comparePassword compare u current) as [[|] |] eqn:Hcmp;
    [| injection H as <- <-; refused | injection H as <- <-; refused].
  destruct (String.eqb_spec newPassword (password u)) as [| _]; [contradiction |].
  destruct (valid_password newPassword) eqn:Hvalid; [| injection H as <- <-; refused].
  injection H as <- <-.
  split; [intros Hne; now contradiction Hne |]. split; [discriminate |]. intros _.
  destruct (findById_In oid u _ Hfind) as [Hin Hid].
  set (u' := rehashed hash u newPassword salt saved).
  exists u'. cbn [users with_users].
  split; [now apply (findById_put oid u) |].
  split; [| split; [reflexivity | split; [reflexivity | split; [now repeat split | split]]]].
  - intros e He. unfold login.
    cbn [reachable users normalise with_users cr_email cr_password]. rewrite Hr, He.
    cbn [negb].
    change (email u) with (email u').
    rewrite (findOne_put oid u u' _ Hfind Hid);
      [| rewrite <- Hid; now apply (email_free_own u)].
    unfold u'. cbn [isActive rehashed]. rewrite Hact.
    cbn [negb comparePassword password rehashed]. now rewrite bcrypt_sound.
  - unfold valid_password in Hvalid. now apply Nat.leb_le.
  - intros x Hx. now apply put_other.
Qed.

(** X30.  [PUT /api/admin/users/:id] never touches the password: after an update
    that was answered 200 the stored hash and [updatedAt] are those from
    before, so a password that matched still logs in, under the account's
    email as it is now, unless the update left the account inactive, in
    which case every login is answered with the deactivation message.
    When the answer is not 200 nothing is stored. *)
Theorem updateUser_keeps_the_password (id : string) (c : changes) (s s' : store)
    (resp : response) (oid : string) (u : user) :
  NoDup (map email (users s)) ->
  objectId s id = Some oid ->
  findById oid (users s) = Some u ->
  updateUser id c s = (resp, s') ->
  (status resp <> 200%nat -> s' = s) /\
  (status resp = 200%nat ->
   exists u',
     resp = user_updated u' /\
     findById oid (users s') = Some u' /\
     password u' = password u /\
     updatedAt u' = updatedAt u /\
     isActive u' = match ch_isActive c with Some a => a | None => isActive u end /\
     (isActive u' = false ->
      forall e pw, normalise s e = email u' ->
                   login compare sign {| cr_email := e; cr_password := pw |} s'
                   = deactivated) /\
     (isActive u' = true ->
      forall e pw, normalise s e = email u' -> compare pw (password u) = true ->
                   login compare sign {| cr_email := e; cr_password := Some pw |} s'
                   = logged_in (sign u') u')).
Proof.
  intros Hnd Hoid Hfind. unfold updateUser. intros H.
  destruct (reachable s) eqn:Hr; cbn [negb] in H;
    [| injection H as <- <-; split; [reflexivity | discriminate]].
  rewrite Hoid, Hfind in H.
  destruct (valid_update u (apply_changes s c u) (users s)) eqn:Hvalid;
    [| injection H as <- <-; split; [reflexivity | discriminate]].
  injection H as <- <-.
  split; [intros Hne; now contradiction Hne |]. intros _.
  destruct (findById_In oid u _ Hfind) as [Hin Hid].
  set (u' := apply_changes s c u) in *.
  assert (Hid' : u_id u' = oid) by exact Hid.
  assert (Hfree : email_free oid (email u') (users s) = true).
  { unfold valid_update in Hvalid. apply andb_true_iff in Hvalid.
    destruct Hvalid as [_ Hemail]. apply orb_true_iff in Hemail.
    destruct Hemail as [Hsame | Hfree].
    - apply String.eqb_eq in Hsame. rewrite Hsame, <- Hid. now apply email_free_own.
    - now rewrite <- Hid. }
  assert (Hone : findOne (email u') (users (with_users s (put oid u' (users s)))) = Some u').
  { cbn [users with_users]. now apply (findOne_put oid u). }
  exists u'. split; [reflexivity |]. cbn [users with_users] in *.
  split; [now apply (findById_put oid u) |]. split; [reflexivity |].
  split; [reflexivity |]. split; [reflexivity |]. split.
  - intros Hoff e pw He. unfold login.
    cbn [reachable users normalise with_users cr_email cr_password].
    rewrite Hr, He. cbn [negb]. rewrite Hone. now rewrite Hoff.
  - intros Hon e pw He Hpw. unfold login.
    cbn [reachable users normalise with_users cr_email cr_password].
    rewrite Hr, He. cbn [negb]. rewrite Hone, Hon. cbn [negb comparePassword].
    change (password u') with (password u). now rewrite Hpw.
Qed.

End AccountFacts.

Section AccountSamples.

Import UserController UserAccounts Samples.

Lemma toy_hash_sound (salt p : string) : toy_compare p (toy_hash salt p) = true.
Proof. apply String.eqb_refl. Qed.

Lemma register_then_login_witness :
  status (login toy_compare toy_sign
            {| cr_email := "bia@exemplo.com"; cr_password := Some "segredo1" |}
            (snd (register toy_hash bia bia_id "salt" 5 6 accounts))) = 200%nat /\
  fst (register toy_hash bia bia_id "salt" 5 6 accounts)
    = Response 201 (JObj [("success", JBool true);
                          ("message", JStr "Usuário registrado com sucesso");
                          ("user", JObj [("id", JStr bia_id); ("name", JStr "Bia");
                                         ("email", JStr "bia@exemplo.com");
                                         ("role", JStr "user"); ("isActive", JBool true);
                                         ("createdAt", JIso 5); ("updatedAt", JIso 6)])]).
Proof.
  destruct (register_then_login toy_compare toy_hash toy_sign toy_hash_sound bia bia_id "salt"
              5 6 accounts (snd (register toy_hash bia bia_id "salt" 5 6 accounts))
              (fst (register toy_hash bia bia_id "salt" 5 6 accounts)))
    as (H0 & H & _).
  - reflexivity.
  - reflexivity.
  - reflexivity.
  - split; [| exact H0].
    change (Some "segredo1") with (Some (rg_password bia)).
    rewrite (H "bia@exemplo.com" eq_refl). reflexivity.
Defined.

(** A password of five characters is refused although it has six bytes:
    the validator counts what [length] counts. *)
Lemma register_counts_characters :
  String.length (rg_password bia_short) = 6%nat /\
  utf16_length (rg_password bia_short) = 5%nat /\
  register toy_hash bia_short bia_id "salt" 5 6 accounts
    = (server_error "Erro ao registrar usuário", accounts).
Proof. repeat split. Qed.

Lemma register_keeps_emails_unique_witness :
  NoDup (map email (users (snd (register toy_hash bia bia_id "salt" 5 6 accounts)))).
Proof.
  destruct (register_keeps_emails_unique toy_hash bia bia_id "salt" 5 6 accounts) as [H _].
  - repeat constructor. intros [].
  - exact H.
Defined.

Lemma changePassword_then_login_witness :
  exists u',
    login toy_compare toy_sign
      {| cr_email := "ana@exemplo.com"; cr_password := Some "novasenha" |}
      (snd (changePassword toy_compare toy_hash ana_id (Some "senha123") "novasenha" "salt" 9
              accounts))
      = logged_in (toy_sign u') u' /\
    updatedAt u' = 9 /\ createdAt u' = 1.
Proof.
  destruct (changePassword_then_login toy_compare toy_hash toy_sign toy_hash_sound ana_id
              (Some "senha123") "novasenha" "salt" 9 accounts
              (snd (changePassword toy_compare toy_hash ana_id (Some "senha123") "novasenha"
                      "salt" 9 accounts))
              (fst (changePassword toy_compare toy_hash ana_id (Some "senha123") "novasenha"
                      "salt" 9 accounts)) ana_id ana) as (_ & _ & H).
  - repeat constructor. intros [].
  - reflexivity.
  - reflexivity.
  - reflexivity.
  - discriminate.
  - reflexivity.
  - destruct (H eq_refl) as (u' & _ & Hlogin & _ & Hupd & (_ & _ & _ & _ & _ & Hcre) & _).
    exists u'. split; [now apply Hlogin |]. split; [exact Hupd | exact Hcre].
Defined.

(** The new password may not be shorter than six characters, however
    many bytes it has. *)
Lemma changePassword_counts_characters :
  String.length "çãoé" = 7%nat /\ utf16_length "çãoé" = 4%nat /\
  changePassword toy_compare toy_hash ana_id (Some "senha123") "çãoé" "salt" 9 accounts
    = (server_error "Erro ao alterar senha", accounts).
Proof. repeat split. Qed.

Lemma updateUser_keeps_the_password_witness :
  exists u',
    findById ana_id (users (snd (updateUser ana_id deactivate accounts))) = Some u' /\
    password u' = password ana /\
    login toy_compare toy_sign
      {| cr_email := "ana@exemplo.com"; cr_password := Some "senha123" |}
      (snd (updateUser ana_id deactivate accounts)) = deactivated.
Proof.
  destruct (updateUser_keeps_the_password toy_compare toy_sign ana_id deactivate accounts
              (snd (updateUser ana_id deactivate accounts))
              (fst (updateUser ana_id deactivate accounts)) ana_id ana) as [_ H].
  - repeat constructor. intros [].
  - reflexivity.
  - reflexivity.
  - reflexivity.
  - destruct (H eq_refl) as (u' & _ & H1 & H2 & _). exists u'.
    split; [exact H1 |]. split; [exact H2 | reflexivity].
Defined.

End AccountSamples.
